(** * last-chess-game: the core of [main.js], embedded and verified

    The development follows the source file top to bottom: the string
    primitives of the host language that the code calls, then
    [outcomeCategory], [formatWithPattern], [countFullMovesFromPgn], the two
    archive traversals [getLastGameForUser] and [getPreviousGameForUser],
    [buildTemplateVars] and [renderTemplate].

    Conventions.
    - A JavaScript string is a [string]; every [ascii] stands for one UTF-16
      code unit below 256 (the Latin-1 range), which covers every literal of
      the source. Case mapping and white space are the host's, restricted to
      that range.
    - A JavaScript number that holds an integer (epoch seconds, ratings,
      calendar fields) is a [Z]; the integers stay in the range that the
      host prints in plain decimal notation.
    - A property that may be [undefined] is an [option].
    - A network call either yields a value or throws: [outcome].
    - A regular expression is embedded as the scan it performs: the match at
      the head of a text, and the replacement loop over the positions. *)

From Stdlib Require Import ZArith String Ascii List Bool Lia DecimalString.
From Stdlib Require Import DecimalPos DecimalZ.
Import ListNotations.

Open Scope string_scope.
Open Scope Z_scope.

(** ** Host-language primitives *)

Module JS.

(** Code unit of a character. *)
Definition code (c : ascii) : Z := Z.of_N (N_of_ascii c).

Definition chr (z : Z) : ascii := ascii_of_N (Z.to_N z).

(** [WhiteSpace] and [LineTerminator] of the language, below 256: TAB, LF,
    VT, FF, CR, SP and NBSP. This is the class [\s] of regular expressions
    and the set removed by [trim]. *)
Definition isSpace (c : ascii) : bool :=
  let n := code c in
  ((9 <=? n) && (n <=? 13)) || (n =? 32) || (n =? 160).

(** [LineTerminator] below 256: LF and CR. *)
Definition isLineTerminator (c : ascii) : bool :=
  let n := code c in (n =? 10) || (n =? 13).

(** The class [\d]. *)
Definition isDigit (c : ascii) : bool :=
  let n := code c in (48 <=? n) && (n <=? 57).

(** One code unit of [String.prototype.toLowerCase]: A-Z and the accented
    capitals U+00C0-U+00DE (the multiplication sign U+00D7 apart) move up
    by 32. *)
Definition lowerChar (c : ascii) : ascii :=
  let n := code c in
  if ((65 <=? n) && (n <=? 90)) ||
     ((192 <=? n) && (n <=? 222) && negb (n =? 215))
  then chr (n + 32) else c.

Fixpoint toLowerCase (s : string) : string :=
  match s with
  | EmptyString => EmptyString
  | String c s' => String (lowerChar c) (toLowerCase s')
  end.

Fixpoint trimStart (s : string) : string :=
  match s with
  | EmptyString => EmptyString
  | String c s' => if isSpace c then trimStart s' else s
  end.

(** [trimEnd] keeps a character when it is not white space or when
    something survives after it. *)
Fixpoint trimEnd (s : string) : string :=
  match s with
  | EmptyString => EmptyString
  | String c s' =>
      match trimEnd s' with
      | EmptyString => if isSpace c then EmptyString else String c EmptyString
      | t => String c t
      end
  end.

Definition trim (s : string) : string := trimEnd (trimStart s).

(** Truthiness of a string: the empty string is falsy. *)
Definition nonEmpty (s : string) : bool :=
  match s with EmptyString => false | _ => true end.

(** [x || ''] for a possibly undefined string. *)
Definition orEmpty (x : option string) : string :=
  match x with Some s => s | None => EmptyString end.

(** [String(n)] for an integer. *)
Definition toString (n : Z) : string := NilZero.string_of_int (Z.to_int n).

Fixpoint repeat0 (n : nat) : string :=
  match n with O => EmptyString | S k => String "0" (repeat0 k) end.

(** [s.padStart(len, '0')]. *)
Definition padStart0 (len : nat) (s : string) : string :=
  repeat0 (len - String.length s) ++ s.

(** Upper-case hexadecimal digit. *)
Definition hexDigit (z : Z) : ascii :=
  if z <? 10 then chr (48 + z) else chr (55 + z).

Definition percent (byte : Z) : string :=
  String "%" (String (hexDigit (byte / 16)) (String (hexDigit (byte mod 16)) EmptyString)).

(** Characters [encodeURIComponent] leaves alone: letters, digits and
    [- _ . ! ~ * ' ( )]. *)
Definition uriUnreserved (c : ascii) : bool :=
  let n := code c in
  ((65 <=? n) && (n <=? 90)) || ((97 <=? n) && (n <=? 122)) ||
  ((48 <=? n) && (n <=? 57)) ||
  (n =? 45) || (n =? 95) || (n =? 46) || (n =? 33) || (n =? 126) ||
  (n =? 42) || (n =? 39) || (n =? 40) || (n =? 41).

(** [encodeURIComponent]: every other code unit is written as the
    percent-escaped bytes of its UTF-8 encoding (one byte below 128, two
    bytes from 128 to 255). *)
Fixpoint encodeURIComponent (s : string) : string :=
  match s with
  | EmptyString => EmptyString
  | String c s' =>
      let n := code c in
      (if uriUnreserved c then String c EmptyString
       else if n <? 128 then percent n
       else percent (192 + n / 64) ++ percent (128 + n mod 64))
      ++ encodeURIComponent s'
  end.

End JS.

Import JS.

(** Strict equality of two strings. *)
Notation "a === b" := (String.eqb a b) (at level 70, no associativity).

(** ** Result classification *)

Inductive OutcomeCategory : Type := Win | Loss | Draw | Unknown.

(** The source returns the strings ['win'], ['loss'], ['draw'] and
    ['unknown']. *)
Definition categoryName (c : OutcomeCategory) : string :=
  match c with
  | Win => "win" | Loss => "loss" | Draw => "draw" | Unknown => "unknown"
  end.

(** [outcomeCategory(result)]: the raw result code may be undefined. *)
Definition outcomeCategory (result : option string) : OutcomeCategory :=
  let r := toLowerCase (orEmpty result) in
  if r === "win" then Win
  else if (r === "stalemate") || (r === "agreed") || (r === "repetition") ||
          (r === "insufficient") || (r === "50move") ||
          (r === "timevsinsufficient") || (r === "draw") then Draw
  else if (r === "checkmated") || (r === "resigned") || (r === "timeout") ||
          (r === "abandoned") || (r === "lose") then Loss
  else Unknown.

Definition pastTenseLabel (cat : OutcomeCategory) : string :=
  match cat with
  | Win => "Won" | Loss => "Lost" | Draw => "Drew" | Unknown => ""
  end.

(** The code lists of the documentation. *)
Definition draw_codes : list string :=
  ["stalemate"; "agreed"; "repetition"; "insufficient"; "50move";
   "timevsinsufficient"; "draw"].

Definition loss_codes : list string :=
  ["checkmated"; "resigned"; "timeout"; "abandoned"; "lose"].

(** ** Date and time formatting *)

(** What [formatWithPattern] reads of a [Date]: the six local-time getters.
    [getMonth] counts from 0. *)
Record JsDate : Type := mkDate {
  getFullYear : Z;
  getMonth : Z;
  getDate : Z;
  getHours : Z;
  getMinutes : Z;
  getSeconds : Z
}.

(** The getters of a valid [Date] stay within the calendar ranges. *)
Definition valid_date (d : JsDate) : Prop :=
  0 <= getMonth d < 12 /\ 1 <= getDate d <= 31 /\ 0 <= getHours d < 24 /\
  0 <= getMinutes d < 60 /\ 0 <= getSeconds d < 60.

(** [zeroPad(n, len = 2)]. *)
Definition zeroPad (n : Z) : string := padStart0 2 (toString n).

(** The alternatives of [tokenRe], in the order the expression lists them. *)
Definition tokens : list string :=
  ["yyyy"; "MM"; "dd"; "HH"; "hh"; "mm"; "ss"; "a"].

(** [s] starts with the literal [t]. *)
Fixpoint startsWith (t s : string) {struct t} : bool :=
  match t with
  | EmptyString => true
  | String a t' =>
      match s with
      | EmptyString => false
      | String b s' => (a =? b)%char && startsWith t' s'
      end
  end.

(** The first alternative that matches at the head of [s]. *)
Fixpoint firstPrefix (alts : list string) (s : string) : option string :=
  match alts with
  | [] => None
  | t :: rest => if startsWith t s then Some t else firstPrefix rest s
  end.

Definition tokenAt (s : string) : option string := firstPrefix tokens s.

(** [H % 12 === 0 ? 12 : H % 12]; [%] truncates like [Z.rem]. *)
Definition h12 (H : Z) : Z :=
  if Z.rem H 12 =? 0 then 12 else Z.rem H 12.

Definition ampm (H : Z) : string := if H <? 12 then "AM" else "PM".

(** The object [map] of the source, as an association list. *)
Definition tokenMap (date : JsDate) : list (string * string) :=
  [ ("yyyy", toString (getFullYear date));
    ("MM", zeroPad (getMonth date + 1));
    ("dd", zeroPad (getDate date));
    ("HH", zeroPad (getHours date));
    ("hh", zeroPad (h12 (getHours date)));
    ("mm", zeroPad (getMinutes date));
    ("ss", zeroPad (getSeconds date));
    ("a", ampm (getHours date)) ].

Fixpoint lookup (k : string) (m : list (string * string)) : option string :=
  match m with
  | [] => None
  | (k', v) :: rest => if k' === k then Some v else lookup k rest
  end.

(** The callback [(tok) => map[tok] ?? tok]. *)
Definition renderToken (date : JsDate) (tok : string) : string :=
  match lookup tok (tokenMap date) with
  | Some v => v
  | None => tok
  end.

(** [fmt.replace(tokenRe, f)]: a single scan from left to right. At each
    position the alternatives are tried in order; a match is replaced and
    the scan resumes after it, any other character is copied. [skip] counts
    the characters of the current match still to be passed over. *)
Fixpoint replaceTokens (f : string -> string) (skip : nat) (s : string) : string :=
  match s with
  | EmptyString => EmptyString
  | String c s' =>
      match skip with
      | S k => replaceTokens f k s'
      | O =>
          match tokenAt s with
          | Some tok => f tok ++ replaceTokens f (String.length tok - 1) s'
          | None => String c (replaceTokens f 0 s')
          end
      end
  end.

Definition defaultPattern : string := "yyyy-MM-dd HH:mm".

(** [pattern || dflt]: an undefined or empty pattern gives way. *)
Definition orDefault (pattern : option string) (dflt : string) : string :=
  match pattern with
  | Some p => if nonEmpty p then p else dflt
  | None => dflt
  end.

(** The expression [fmt.replace(tokenRe, (tok) => map[tok] ?? tok)]. *)
Definition expand (date : JsDate) (fmt : string) : string :=
  replaceTokens (renderToken date) 0 fmt.

Definition formatWithPattern (date : JsDate) (pattern : option string) : string :=
  expand date (orDefault pattern defaultPattern).

(** The characters that occur in a token. *)
Definition isTokenChar (c : ascii) : bool :=
  ((c =? "y") || (c =? "M") || (c =? "d") || (c =? "H") || (c =? "h") ||
   (c =? "m") || (c =? "s") || (c =? "a"))%char.

Fixpoint allChars (p : ascii -> bool) (s : string) : bool :=
  match s with
  | EmptyString => true
  | String c s' => p c && allChars p s'
  end.

(** A substring without any character of a token. *)
Definition unrecognized (s : string) : bool :=
  allChars (fun c => negb (isTokenChar c)) s.

(** A reading of a pattern: the matched tokens and the characters between
    them, in order. *)
Inductive piece : Type :=
| Tok (t : string)
| Lit (c : ascii).

Definition pieceSource (p : piece) : string :=
  match p with Tok t => t | Lit c => String c EmptyString end.

Definition pieceOutput (date : JsDate) (p : piece) : string :=
  match p with Tok t => renderToken date t | Lit c => String c EmptyString end.

Definition isToken (p : piece) : Prop :=
  match p with Tok t => In t tokens | Lit _ => True end.

Fixpoint joinAll (l : list string) : string :=
  match l with
  | [] => EmptyString
  | s :: rest => s ++ joinAll rest
  end.

(** [s.slice(n)]. *)
Fixpoint dropStr (n : nat) (s : string) : string :=
  match n, s with
  | O, _ => s
  | S k, String _ s' => dropStr k s'
  | S _, EmptyString => EmptyString
  end.

(** ** Move counting *)

(** Puts [c] in front of the first part of a split. *)
Definition consHead (c : ascii) (parts : list string) : list string :=
  match parts with
  | [] => [String c EmptyString]
  | p :: ps => String c p :: ps
  end.

Definition isLF (c : ascii) : bool := code c =? 10.

(** [pgn.split(/\n\n/)]: the parts between the blank-line separators, found
    from left to right without overlap. *)
Fixpoint splitBlankLine (s : string) : list string :=
  match s with
  | EmptyString => [EmptyString]
  | String c s' =>
      match s' with
      | String d s'' =>
          if isLF c && isLF d then EmptyString :: splitBlankLine s''
          else consHead c (splitBlankLine s')
      | EmptyString => consHead c (splitBlankLine s')
      end
  end.

(** [parts[parts.length - 1] || '']. *)
Definition lastPart (parts : list string) : string := last parts EmptyString.

(** Position of the first [c] in [s]. *)
Fixpoint indexOf (c : ascii) (s : string) : option nat :=
  match s with
  | EmptyString => None
  | String d s' =>
      if (d =? c)%char then Some O
      else match indexOf c s' with Some n => Some (S n) | None => None end
  end.

(** [s.replace(/\{[^}]*\}/g, ' ')] for [op = "{"], [cl = "}"], and the same
    with parentheses: an opening character matches together with everything
    up to the first closing character after it, when there is one; the match
    becomes one space. [skip] counts the characters of the current match
    still to be passed over. *)
Fixpoint stripDelimited (op cl : ascii) (skip : nat) (s : string) : string :=
  match s with
  | EmptyString => EmptyString
  | String c s' =>
      match skip with
      | S k => stripDelimited op cl k s'
      | O =>
          if (c =? op)%char then
            match indexOf cl s' with
            | Some n => String " " (stripDelimited op cl (S n) s')
            | None => String c (stripDelimited op cl 0 s')
            end
          else String c (stripDelimited op cl 0 s')
      end
  end.

(** The alternatives of the result group: [1-0], [0-1], [1/2-1/2] and the
    star. *)
Definition resultTokens : list string := ["1-0"; "0-1"; "1/2-1/2"; "*"].

(** [\s*$] under the [m] flag, at the head of [r]: the number of white-space
    characters taken. The star is greedy and gives characters back until the
    position is the end of the text or stands before a line terminator. *)
Fixpoint trailingSpaces (r : string) : option nat :=
  match r with
  | EmptyString => Some O
  | String c r' =>
      if isSpace c then
        match trailingSpaces r' with
        | Some n => Some (S n)
        | None => if isLineTerminator c then Some O else None
        end
      else None
  end.

(** Length of the match, at the head of [s], of the expression that removes
    the result: one white-space character, a result token, then [\s*$]
    under the [m] flag. *)
Definition resultAt (s : string) : option nat :=
  match s with
  | EmptyString => None
  | String c rest =>
      if isSpace c then
        match firstPrefix resultTokens rest with
        | Some tok =>
            match trailingSpaces (dropStr (String.length tok) rest) with
            | Some n => Some (1 + String.length tok + n)%nat
            | None => None
            end
        | None => None
        end
      else None
  end.

(** [s.replace(re, ' ')] without the [g] flag: only the leftmost match is
    replaced. *)
Fixpoint stripResult (s : string) : string :=
  match s with
  | EmptyString => EmptyString
  | String c s' =>
      match resultAt s with
      | Some n => String " " (dropStr n s)
      | None => String c (stripResult s')
      end
  end.

(** [s.split(/\s+/)]: the parts between the runs of white space; a run at
    either end leaves an empty part there. [inRun] tells that the previous
    character was white space. *)
Fixpoint splitSpaces (inRun : bool) (s : string) : list string :=
  match s with
  | EmptyString => [EmptyString]
  | String c s' =>
      if isSpace c then
        if inRun then splitSpaces true s' else EmptyString :: splitSpaces true s'
      else consHead c (splitSpaces false s')
  end.

Fixpoint dropDigits (s : string) : string :=
  match s with
  | EmptyString => EmptyString
  | String c s' => if isDigit c then dropDigits s' else s
  end.

Definition startsWithDigit (s : string) : bool :=
  match s with String c _ => isDigit c | EmptyString => false end.

(** [/^\d+\.\.\.|^\d+\.$/.test(t)]: a move-number marker such as [12.] or
    [12...]. *)
Definition isMoveNumber (t : string) : bool :=
  startsWithDigit t &&
  (startsWith "..." (dropDigits t) || (dropDigits t === ".")).

(** [/^\$\d+$/.test(t)]. *)
Definition isNag (t : string) : bool :=
  match t with
  | String c r => (c =? "$")%char && startsWithDigit r && (dropDigits r === "")
  | EmptyString => false
  end.

(** [/^\d-\d$/.test(t)]. *)
Definition isDigitDashDigit (t : string) : bool :=
  match t with
  | String a (String b (String c EmptyString)) =>
      isDigit a && (b =? "-")%char && isDigit c
  | _ => false
  end.

(** [/^[!?+#]+$/.test(t)]. *)
Definition isGlyphRun (t : string) : bool :=
  nonEmpty t &&
  allChars (fun c => ((c =? "!") || (c =? "?") || (c =? "+") || (c =? "#"))%char) t.

(** The predicate of the second filter. *)
Definition isCleanToken (t : string) : bool :=
  nonEmpty t && negb (isNag t) && negb (isDigitDashDigit t) &&
  negb (t === "*") &&
  negb ((t === "1-0") || (t === "0-1") || (t === "1/2-1/2")) &&
  negb (isGlyphRun t).

(** The list [clean] of the source. *)
Definition cleanTokens (pgn : string) : list string :=
  let movesSection := lastPart (splitBlankLine pgn) in
  let s := stripDelimited "(" ")" 0 (stripDelimited "{" "}" 0 movesSection) in
  let s := stripResult s in
  let tokens := splitSpaces false (trim s) in
  let sans := filter (fun t => negb (isMoveNumber t)) tokens in
  filter isCleanToken sans.

(** [ply]. *)
Definition plyCount (pgn : string) : Z := Z.of_nat (List.length (cleanTokens pgn)).

(** [Math.ceil(ply / 2)] for a count. *)
Definition ceilHalf (ply : Z) : Z := (ply + 1) / 2.

(** [countFullMovesFromPgn(pgn)]. The text may be undefined. None of the
    steps can throw on a string, so the handler of the [try] is never
    entered. *)
Definition countFullMovesFromPgn (pgn : option string) : string :=
  match pgn with
  | None => "N/A"
  | Some text =>
      if nonEmpty text
      then toString (Z.max 1 (ceilHalf (plyCount text)))
      else "N/A"
  end.

(** ** Data model of the archive service *)

(** [PlayerRef]. The code reads every field defensively, so each may be
    missing. *)
Record PlayerRef : Type := mkPlayer {
  username : option string;
  result : option string;
  rating : option Z
}.

(** The object [{}] that stands in for a missing side. *)
Definition noPlayer : PlayerRef := mkPlayer None None None.

(** [GameItem]. Times are epoch seconds. *)
Record GameItem : Type := mkGame {
  url : option string;
  end_time : option Z;
  start_time : option Z;
  time_class : option string;
  rules : option string;
  rated : option bool;
  pgn : option string;
  white : option PlayerRef;
  black : option PlayerRef
}.

Inductive Color : Type := white_side | black_side.

(** Truthiness of a possibly undefined number: [undefined] and 0 are
    falsy. *)
Definition truthy (x : option Z) : bool :=
  match x with Some z => negb (z =? 0) | None => false end.

(** [x || 0]. *)
Definition orZero (x : option Z) : Z :=
  match x with Some z => z | None => 0 end.

(** [game.white || {}]. *)
Definition orNoPlayer (p : option PlayerRef) : PlayerRef :=
  match p with Some x => x | None => noPlayer end.

(** [name?.trim().toLowerCase()]. *)
Definition normalizeUsername (name : option string) : option string :=
  match name with
  | Some n => Some (toLowerCase (trim n))
  | None => None
  end.

(** Strict equality of two possibly undefined strings. *)
Definition sameOpt (a b : option string) : bool :=
  match a, b with
  | Some x, Some y => x === y
  | None, None => true
  | _, _ => false
  end.

(** ** The network *)

(** A request yields a value or throws (a transport failure or a status
    other than 200). *)
Inductive outcome (A : Type) : Type :=
| Ok (a : A)
| Throw.

Arguments Ok {A} a.
Arguments Throw {A}.

Definition bind {A B : Type} (m : outcome A) (k : A -> outcome B) : outcome B :=
  match m with
  | Ok a => k a
  | Throw => Throw
  end.

Notation "x <- m ;; k" := (bind m (fun x => k))
  (at level 61, m at next level, right associativity).

(** [try { ... } catch { }] around a computation whose value replaces a
    default. *)
Definition catchWith {A : Type} (dflt : A) (m : outcome A) : A :=
  match m with Ok a => a | Throw => dflt end.

Definition indexUrl (u : string) : string :=
  "https://api.chess.com/pub/player/" ++ encodeURIComponent u ++ "/games/archives".

(** The predicate of the category filter:
    [g.time_class?.toLowerCase() === timeClass]. *)
Definition classMatches (timeClass : string) (g : GameItem) : bool :=
  match time_class g with
  | Some c => toLowerCase c === timeClass
  | None => false
  end.

(** One turn of the loop that picks the most recent candidate of
    [getLastGameForUser]. *)
Definition laterOf (latest g : GameItem) : GameItem :=
  if negb (truthy (end_time latest)) ||
     (truthy (end_time g) && (orZero (end_time g) >? orZero (end_time latest)))
  then g else latest.

(** [let latest = candidates[candidates.length - 1]; for (const g of
    candidates) ...]. The list is not empty where the source runs this. *)
Definition pickLatest (candidates : list GameItem) : option GameItem :=
  match candidates with
  | [] => None
  | g0 :: _ => Some (fold_left laterOf candidates (last candidates g0))
  end.

(** One turn of the loop of [getPreviousGameForUser]; [latest] starts
    undefined. *)
Definition laterBefore (latest : option GameItem) (g : GameItem) : option GameItem :=
  match latest with
  | None => Some g
  | Some l =>
      if orZero (end_time g) >? orZero (end_time l) then Some g else latest
  end.

Definition pickPrevious (candidates : list GameItem) : option GameItem :=
  fold_left laterBefore candidates None.

(** The filter of [getPreviousGameForUser]. *)
Definition qualifies (timeClass : string) (beforeEndTime : Z) (g : GameItem) : bool :=
  classMatches timeClass g && (orZero (end_time g) <? beforeEndTime).

(** The candidate set of [getLastGameForUser]: every game when no category
    is asked for ([opts?.timeClass] undefined or empty), the games of the
    category otherwise. *)
Definition candidatesOf (timeClass : option string) (games : list GameItem)
    : list GameItem :=
  match timeClass with
  | Some tc => if nonEmpty tc then filter (classMatches tc) games else games
  | None => games
  end.

(** What [getLastGameForUser] returns. *)
Record Resolved : Type := mkResolved {
  game : GameItem;
  meColor : Color;
  meUsername : string
}.

Section Network.

(** [fetchJson] at an archive index, read as [idx.archives || []], and at a
    monthly archive, read as [month.games || []]. *)
Variable fetchArchives : string -> outcome (list string).
Variable fetchMonth : string -> outcome (list GameItem).

(** The body of the loop of [getLastGameForUser], over the archive
    locations from the newest to the oldest. [user] is the parameter
    [username] of the source and [u] its normal form. *)
Fixpoint scanLast (u user : string) (timeClass : option string)
    (newestFirst : list string) : outcome (option Resolved) :=
  match newestFirst with
  | [] => Ok None
  | a :: older =>
      games <- fetchMonth a ;;
      match games with
      | [] => scanLast u user timeClass older
      | _ =>
          match pickLatest (candidatesOf timeClass games) with
          | None => scanLast u user timeClass older
          | Some latest =>
              let wu := normalizeUsername (username (orNoPlayer (white latest))) in
              let bu := normalizeUsername (username (orNoPlayer (black latest))) in
              if sameOpt wu (Some u) then Ok (Some (mkResolved latest white_side user))
              else if sameOpt bu (Some u) then Ok (Some (mkResolved latest black_side user))
              else scanLast u user timeClass older
          end
      end
  end.

Definition getLastGameForUser (user : string) (timeClass : option string)
    : outcome (option Resolved) :=
  match normalizeUsername (Some user) with
  | Some u =>
      if nonEmpty u then
        archives <- fetchArchives (indexUrl u) ;;
        scanLast u user timeClass (rev archives)
      else Ok None
  | None => Ok None
  end.

(** The body of the loop of [getPreviousGameForUser]. *)
Fixpoint scanPrevious (timeClass : string) (beforeEndTime : Z)
    (newestFirst : list string) : outcome (option GameItem) :=
  match newestFirst with
  | [] => Ok None
  | a :: older =>
      games <- fetchMonth a ;;
      match pickPrevious (filter (qualifies timeClass beforeEndTime) games) with
      | Some latest => Ok (Some latest)
      | None => scanPrevious timeClass beforeEndTime older
      end
  end.

Definition getPreviousGameForUser (user timeClass : string) (beforeEndTime : Z)
    : outcome (option GameItem) :=
  match normalizeUsername (Some user) with
  | Some u =>
      if nonEmpty u then
        archives <- fetchArchives (indexUrl u) ;;
        scanPrevious timeClass beforeEndTime (rev archives)
      else Ok None
  | None => Ok None
  end.

End Network.

(** ** Template variables *)

(** [profileUrl(username)]. *)
Definition profileUrl (name : option string) : string :=
  let u := trim (orEmpty name) in
  if nonEmpty u then "https://www.chess.com/member/" ++ encodeURIComponent u
  else "".

Definition labelGameType (tc : option string) : string :=
  let t := toLowerCase (orEmpty tc) in
  if t === "bullet" then "Bullet"
  else if t === "blitz" then "Blitz"
  else if t === "rapid" then "Rapid"
  else if t === "daily" then "Daily"
  else "".

(** [x != null ? String(x) : '']. *)
Definition ratingText (r : option Z) : string :=
  match r with Some z => toString z | None => "" end.

(** [formatDuration(start, end, timeClass)]. [Math.round] of the quotient
    of two non-negative integers rounds half up. The source computes in
    doubles and this definition in integers: the two agree as long as the
    elapsed milliseconds stay well below [2 ^ 53], as they do for epoch
    seconds below [2 ^ 32], and the statements about it are made for such
    times. *)
Definition formatDuration (start finish : option Z) (timeClass : string) : string :=
  if negb (truthy start) || negb (truthy finish) || (orZero finish <? orZero start)
  then ""
  else
    let ms := (orZero finish - orZero start) * 1000 in
    if toLowerCase timeClass === "daily" then
      let day := 24 * 3600 * 1000 in
      let days := Z.max 0 ((2 * ms + day) / (2 * day)) in
      if days =? 1 then "1 day" else toString days ++ " days"
    else
      let totalMinutes := ms / 60000 in
      let hours := totalMinutes / 60 in
      let minutes := Z.rem totalMinutes 60 in
      zeroPad hours ++ ":" ++ zeroPad minutes.

(** [delta > 0 ? `+${delta}` : `${delta}`]. *)
Definition signedDelta (delta : Z) : string :=
  if delta >? 0 then "+" ++ toString delta else toString delta.

Section Builder.

Variable fetchArchives : string -> outcome (list string).
Variable fetchMonth : string -> outcome (list GameItem).

(** [new Date(ms)] read through the local-time getters: the calendar and
    the time zone of the host. The timestamps are within the range of
    [Date]. *)
Variable localDate : Z -> JsDate.

(** [formatDate(ts, pattern)]. *)
Definition formatDate (ts : option Z) (pattern : option string) : string :=
  if truthy ts
  then formatWithPattern (localDate (orZero ts * 1000))
         (Some (orDefault pattern "yyyy-MM-dd"))
  else "".

Definition formatDateOnly (ts : option Z) (datePattern : option string) : string :=
  formatDate ts (Some (orDefault datePattern "yyyy-MM-dd")).

Definition formatTimeOnly (ts : option Z) (timePattern : option string) : string :=
  if truthy ts
  then formatWithPattern (localDate (orZero ts * 1000))
         (Some (orDefault timePattern "hh:mm"))
  else "".

Definition formatTimestamp (ts : option Z) (datePattern timePattern : option string)
    : string :=
  let d := formatDateOnly ts datePattern in
  let t := formatTimeOnly ts timePattern in
  if nonEmpty d && nonEmpty t then d ++ " " ++ t
  else if nonEmpty d then d else t.

(** The name of the focus player:
    [(lookupUsername && lookupUsername.trim()) ||
     (meColor === 'white' ? white.username : black.username) || '']. *)
Definition lookupNameOf (g : GameItem) (me : Color) (lookupUsername : option string)
    : string :=
  let asked := trim (orEmpty lookupUsername) in
  if nonEmpty asked then asked
  else orEmpty (match me with
                | white_side => username (orNoPlayer (white g))
                | black_side => username (orNoPlayer (black g))
                end).

(** [lookupSide]. *)
Definition lookupSideOf (g : GameItem) (me : Color) (lookupUsername : option string)
    : Color :=
  let lookupNorm := normalizeUsername (Some (lookupNameOf g me lookupUsername)) in
  if sameOpt lookupNorm (normalizeUsername (username (orNoPlayer (white g))))
  then white_side
  else if sameOpt lookupNorm (normalizeUsername (username (orNoPlayer (black g))))
  then black_side
  else me.

Definition playerOn (g : GameItem) (side : Color) : PlayerRef :=
  match side with
  | white_side => orNoPlayer (white g)
  | black_side => orNoPlayer (black g)
  end.

Definition otherSide (side : Color) : Color :=
  match side with white_side => black_side | black_side => white_side end.

(** The side of the focus player in the previous game. *)
Definition prevLookupOf (prev : GameItem) (lookupNorm : option string) : PlayerRef :=
  if sameOpt (normalizeUsername (username (orNoPlayer (white prev)))) lookupNorm
  then orNoPlayer (white prev) else orNoPlayer (black prev).

(** The body of the [try] block that computes [ratingChange]; the value
    stays empty on every path that does not assign it. *)
Definition ratingChangeTry (g : GameItem) (me : Color) (lookupUsername : option string)
    : outcome string :=
  let timeClass := orEmpty (time_class g) in
  let lookupName := lookupNameOf g me lookupUsername in
  let lookupPlayer := playerOn g (lookupSideOf g me lookupUsername) in
  if truthy (end_time g) && nonEmpty timeClass && nonEmpty lookupName then
    prev <- getPreviousGameForUser fetchArchives fetchMonth lookupName timeClass
              (orZero (end_time g)) ;;
    match prev with
    | Some p =>
        match rating lookupPlayer,
              rating (prevLookupOf p (normalizeUsername (Some lookupName))) with
        | Some a, Some b => Ok (signedDelta (a - b))
        | _, _ => Ok ""
        end
    | None => Ok ""
    end
  else Ok "".

(** [ratingChange] after the [try ... catch]. *)
Definition ratingChange (g : GameItem) (me : Color) (lookupUsername : option string)
    : string :=
  catchWith "" (ratingChangeTry g me lookupUsername).

(** [winnerSide] and [loserSide]: white is asked first. *)
Definition sideWith (cat : OutcomeCategory) (g : GameItem) : option Color :=
  let whiteCat := outcomeCategory (result (orNoPlayer (white g))) in
  let blackCat := outcomeCategory (result (orNoPlayer (black g))) in
  if categoryName whiteCat === categoryName cat then Some white_side
  else if categoryName blackCat === categoryName cat then Some black_side
  else None.

(** [winner] and [loser]: the player of that side, or undefined. *)
Definition playerWith (cat : OutcomeCategory) (g : GameItem) : option PlayerRef :=
  match sideWith cat g with
  | Some side => Some (playerOn g side)
  | None => None
  end.

(** [p?.username || '']. *)
Definition nameOf (p : option PlayerRef) : string :=
  match p with Some x => orEmpty (username x) | None => "" end.

(** [p?.username ? profileUrl(p.username) : '']. *)
Definition urlOf (p : option PlayerRef) : string :=
  match p with
  | Some x => if nonEmpty (orEmpty (username x)) then profileUrl (username x) else ""
  | None => ""
  end.

(** [p?.rating != null ? String(p.rating) : '']. *)
Definition ratingOf (p : option PlayerRef) : string :=
  match p with Some x => ratingText (rating x) | None => "" end.

(** [buildTemplateVars(game, meColor, lookupUsername, dateFormat,
    timeFormat)]: the object [vars], as the list of its entries in the order
    of the source. *)
Definition buildTemplateVars (g : GameItem) (me : Color) (lookupUsername : option string)
    (dateFormat timeFormat : option string) : list (string * string) :=
  let white := orNoPlayer (white g) in
  let black := orNoPlayer (black g) in
  let timeClass := orEmpty (time_class g) in
  let start := start_time g in
  let finish := end_time g in
  let whiteCat := outcomeCategory (result white) in
  let blackCat := outcomeCategory (result black) in
  let winner := playerWith Win g in
  let loser := playerWith Loss g in
  let lookupName := lookupNameOf g me lookupUsername in
  let lookupSide := lookupSideOf g me lookupUsername in
  let lookupPlayer := playerOn g lookupSide in
  let otherPlayer := playerOn g (otherSide lookupSide) in
  let focusName :=
    if nonEmpty (orEmpty (username lookupPlayer))
    then orEmpty (username lookupPlayer) else lookupName in
  [ ("rated", match rated g with Some true => "Rated" | _ => "Unrated" end);
    ("rules", orEmpty (rules g));
    ("start_timestamp", formatTimestamp start dateFormat timeFormat);
    ("end_timestamp", formatTimestamp finish dateFormat timeFormat);
    ("start_date", formatDateOnly start dateFormat);
    ("end_date", formatDateOnly finish dateFormat);
    ("start_time", formatTimeOnly start timeFormat);
    ("end_time", formatTimeOnly finish timeFormat);
    ("moves", countFullMovesFromPgn (pgn g));
    ("time", formatDuration start finish timeClass);
    ("url", orEmpty (url g));
    ("game_type", labelGameType (Some timeClass));
    ("white", orEmpty (username white));
    ("white_url", profileUrl (username white));
    ("white_rating", ratingText (rating white));
    ("white_result", pastTenseLabel whiteCat);
    ("black", orEmpty (username black));
    ("black_url", profileUrl (username black));
    ("black_rating", ratingText (rating black));
    ("black_result", pastTenseLabel blackCat);
    ("winner", nameOf winner);
    ("winner_url", urlOf winner);
    ("winner_rating", ratingOf winner);
    ("loser", nameOf loser);
    ("loser_url", urlOf loser);
    ("loser_rating", ratingOf loser);
    ("focus", focusName);
    ("focus_url", profileUrl (Some focusName));
    ("focus_rating", ratingText (rating lookupPlayer));
    ("focus_result", pastTenseLabel (outcomeCategory (result lookupPlayer)));
    ("foe", orEmpty (username otherPlayer));
    ("foe_url", profileUrl (username otherPlayer));
    ("foe_rating", ratingText (rating otherPlayer));
    ("foe_result", pastTenseLabel (outcomeCategory (result otherPlayer)));
    ("rating_change", ratingChange g me lookupUsername) ].

End Builder.

(** ** Template rendering *)

(** [s.slice(0, n)]. *)
Fixpoint takeStr (n : nat) (s : string) : string :=
  match n, s with
  | S k, String c s' => String c (takeStr k s')
  | _, _ => EmptyString
  end.

(** Length of the longest white-space prefix: what a greedy [\s*] takes. *)
Fixpoint countSpaces (s : string) : nat :=
  match s with
  | String c s' => if isSpace c then S (countSpaces s') else O
  | EmptyString => O
  end.

(** The keys are identifiers (letters, digits and underscores), as the ones
    [buildTemplateVars] produces and the legacy ones are: such a key stands
    for itself inside [new RegExp(`{{\\s*${k}\\s*}}`, 'g')]. *)
Definition isKeyChar (c : ascii) : bool :=
  let n := code c in
  ((65 <=? n) && (n <=? 90)) || ((97 <=? n) && (n <=? 122)) ||
  ((48 <=? n) && (n <=? 57)) || (n =? 95).

Definition plainKey (k : string) : bool := nonEmpty k && allChars isKeyChar k.

(** Length of the match of [{{\s*k\s*}}] at the head of [s], if it matches
    there. Neither a key character nor a brace is white space, so the greedy
    stars never have to give anything back. The key is read letter by
    letter, which is what the expression built from it does for a key of
    letters, digits and underscores, as every key of [buildTemplateVars] and
    every legacy key is; the source does not escape the key, so a key with a
    character that is special in an expression is outside this definition,
    and the statements about the renderer are made for identifier keys. *)
Definition matchHandlebar (k s : string) : option nat :=
  if startsWith "{{" s then
    let r1 := dropStr 2 s in
    let n1 := countSpaces r1 in
    let r2 := dropStr n1 r1 in
    if startsWith k r2 then
      let r3 := dropStr (String.length k) r2 in
      let n2 := countSpaces r3 in
      if startsWith "}}" (dropStr n2 r3)
      then Some (2 + n1 + String.length k + n2 + 2)%nat
      else None
    else None
  else None.

(** [GetSubstitution]: the replacement text of [String.prototype.replace]
    when the replacement is a string. [$$] gives a dollar sign, [$&] the
    matched text, [$`] the text before the match and [$'] the text after
    it; the expression has no capture group, so any other dollar sign stands
    for itself. *)
Fixpoint getSubstitution (matched before after repl : string) : string :=
  match repl with
  | EmptyString => EmptyString
  | String c r =>
      if (c =? "$")%char then
        match r with
        | String d r' =>
            if (d =? "$")%char then String "$" (getSubstitution matched before after r')
            else if (d =? "&")%char then matched ++ getSubstitution matched before after r'
            else if (d =? "`")%char then before ++ getSubstitution matched before after r'
            else if (d =? "'")%char then after ++ getSubstitution matched before after r'
            else String c (getSubstitution matched before after r)
        | EmptyString => String c EmptyString
        end
      else String c (getSubstitution matched before after r)
  end.

(** [out.replace(re, repl)] with the [g] flag: one scan from left to right;
    a match is replaced by its substitution and the scan resumes after it,
    any other character is copied. [before] is the text already passed and
    [skip] counts the characters of the current match still to be passed
    over. *)
Fixpoint replaceScan (k repl before : string) (skip : nat) (s : string) : string :=
  match s with
  | EmptyString => EmptyString
  | String c s' =>
      let before' := before ++ String c EmptyString in
      match skip with
      | S n => replaceScan k repl before' n s'
      | O =>
          match matchHandlebar k s with
          | Some len =>
              getSubstitution (takeStr len s) before (dropStr len s) repl
              ++ replaceScan k repl before' (len - 1) s'
          | None => String c (replaceScan k repl before' 0 s')
          end
      end
  end.

Definition replaceHandlebars (k repl s : string) : string :=
  replaceScan k repl EmptyString 0 s.

(** One value of [normalizeVarsToNA]: undefined, null and the empty string
    become "N/A". *)
Definition normalizeValue (v : option string) : string :=
  match v with
  | Some s => if nonEmpty s then s else "N/A"
  | None => "N/A"
  end.

(** [normalizeVarsToNA(vars)]: an object is the list of its entries, in
    insertion order; the keys of an object are distinct. *)
Definition normalizeVarsToNA (vars : list (string * option string))
    : list (string * string) :=
  map (fun kv => (fst kv, normalizeValue (snd kv))) vars.

Definition legacyKeys : list string :=
  ["start"; "end"; "time_class"; "timeClass";
   "lookup"; "lookup_url"; "lookup_rating"; "lookup_result";
   "other"; "other_url"; "other_rating"; "other_result"].

(** The first loop of [renderTemplate]. *)
Definition substituteVars (normalized : list (string * string)) (out : string) : string :=
  fold_left (fun o kv => replaceHandlebars (fst kv) (snd kv) o) normalized out.

(** The second loop of [renderTemplate]. *)
Definition blankLegacy (out : string) : string :=
  fold_left (fun o key => replaceHandlebars key "N/A" o) legacyKeys out.

(** [renderTemplate(tpl, vars)]. [vars] lists the entries of the object in
    the order of [Object.entries], which is the order of insertion for keys
    that are not integer-like. *)
Definition renderTemplate (tpl : option string) (vars : list (string * option string))
    : string :=
  trim (blankLegacy (substituteVars (normalizeVarsToNA vars) (orEmpty tpl))).

(** The variables of [buildTemplateVars] as [renderTemplate] receives
    them. *)
Definition asVars (vars : list (string * string)) : list (string * option string) :=
  map (fun kv => (fst kv, Some (snd kv))) vars.

(** The keys of [buildTemplateVars]. *)
Definition knownKeys : list string :=
  ["rated"; "rules"; "start_timestamp"; "end_timestamp"; "start_date";
   "end_date"; "start_time"; "end_time"; "moves"; "time"; "url"; "game_type";
   "white"; "white_url"; "white_rating"; "white_result";
   "black"; "black_url"; "black_rating"; "black_result";
   "winner"; "winner_url"; "winner_rating";
   "loser"; "loser_url"; "loser_rating";
   "focus"; "focus_url"; "focus_rating"; "focus_result";
   "foe"; "foe_url"; "foe_rating"; "foe_result"; "rating_change"].

(** ** Reference readings of the documentation *)

(** The end time of a game, absent read as 0. *)
Definition endOf (g : GameItem) : Z := orZero (end_time g).

(** The stable running maximum of the documentation: scan in list order and
    keep the first candidate seen unless a strictly greater end time turns
    up later. *)
Definition keepUnlessGreater (best g : GameItem) : GameItem :=
  if endOf g >? endOf best then g else best.

Definition stableRunningMax (candidates : list GameItem) : option GameItem :=
  match candidates with
  | [] => None
  | g0 :: rest => Some (fold_left keepUnlessGreater rest g0)
  end.

(** Equality of two category names up to letter case. *)
Definition sameUpToCase (a b : string) : Prop := toLowerCase a = toLowerCase b.

(** A game that only has a location, an end time and a category. *)
Definition gameAt (loc : string) (finish : Z) (category : string) : GameItem :=
  mkGame (Some loc) (Some finish) None (Some category) None None None None None.

(** The archive of the documented example: three games of one category that
    end at 100, 200 and 300. *)
Definition exampleGames : list GameItem :=
  [gameAt "g100" 100 "blitz"; gameAt "g200" 200 "blitz"; gameAt "g300" 300 "blitz"].

Definition exampleArchives (indexLocation : string) : outcome (list string) :=
  Ok ["https://api.chess.com/pub/player/someone/games/2024/01"].

Definition exampleMonth (location : string) : outcome (list GameItem) :=
  Ok exampleGames.

(** The reading of the renderer in the documentation: every occurrence of
    a handlebar is replaced by the value as it stands. *)
Fixpoint replaceLiteral (k v : string) (skip : nat) (s : string) : string :=
  match s with
  | EmptyString => EmptyString
  | String c s' =>
      match skip with
      | S n => replaceLiteral k v n s'
      | O =>
          match matchHandlebar k s with
          | Some len => v ++ replaceLiteral k v (len - 1) s'
          | None => String c (replaceLiteral k v 0 s')
          end
      end
  end.

Definition renderLiteral (tpl : option string) (vars : list (string * option string))
    : string :=
  trim (fold_left (fun o key => replaceLiteral key "N/A" 0 o) legacyKeys
         (fold_left (fun o kv => replaceLiteral (fst kv) (snd kv) 0 o)
            (normalizeVarsToNA vars) (orEmpty tpl))).

(** A value without a dollar sign. *)
Definition dollarFree (v : string) : bool :=
  allChars (fun c => negb (c =? "$")%char) v.

Definition isBrace (c : ascii) : bool := ((c =? "{") || (c =? "}"))%char.

(** Text without braces. *)
Definition braceFree (s : string) : bool := allChars (fun c => negb (isBrace c)) s.

(** Text without an opening brace, and without a closing one. *)
Definition openFree (s : string) : bool := allChars (fun c => negb (c =? "{")%char) s.

Definition closeFree (s : string) : bool := allChars (fun c => negb (c =? "}")%char) s.

(** White space only. *)
Definition spaces (w : string) : bool := allChars isSpace w.

(** A handlebar for the key [k], with white space [w1] and [w2] around the
    key. *)
Definition handlebar (w1 k w2 : string) : string :=
  "{{" ++ w1 ++ k ++ w2 ++ "}}".

(** Some position of [s] starts a handlebar for [k]. *)
Fixpoint hasHandlebar (k s : string) : bool :=
  match s with
  | EmptyString => false
  | String _ s' =>
      match matchHandlebar k s with
      | Some _ => true
      | None => hasHandlebar k s'
      end
  end.

(** A date that is the same at every instant, for the examples. *)
Definition fixedDate (ms : Z) : JsDate := mkDate 2024 0 5 10 7 9.

(** Case analysis on the 256 characters. *)
Ltac each_char c :=
  destruct c as [[] [] [] [] [] [] [] []]; vm_compute; try congruence; auto.

(** ** Settings and the state of the plugin *)

(** The line feed, ['\n']. *)
Definition newline : string := String (chr 10) EmptyString.

(** The separator of [pgn.split(/\n\n/)]. *)
Definition blankLine : string := String (chr 10) (String (chr 10) EmptyString).

(** A header block: text without an empty line that does not end with a
    line feed, so that the first separator after it starts right behind
    it. *)
Fixpoint headerBlock (h : string) : bool :=
  match h with
  | EmptyString => true
  | String c h' =>
      match h' with
      | EmptyString => negb (isLF c)
      | String d _ => negb (isLF c && isLF d) && headerBlock h'
      end
  end.

(** [parts.join(sep)]. *)
Fixpoint joinWith (sep : string) (parts : list string) : string :=
  match parts with
  | [] => EmptyString
  | p :: rest =>
      match rest with
      | [] => p
      | _ => p ++ sep ++ joinWith sep rest
      end
  end.

(** [s || d] for two strings. *)
Definition orIfEmpty (s d : string) : string := if nonEmpty s then s else d.

(** [/\s/.test(s)]. *)
Definition hasSpace (s : string) : bool := negb (allChars (fun c => negb (isSpace c)) s).

(** [/[Hh]/.test(s)]. *)
Definition hasHourLetter (s : string) : bool :=
  negb (allChars (fun c => negb ((c =? "H") || (c =? "h"))%char) s).

(** [s.split(/\s+/).filter(Boolean)]. *)
Definition wordsOf (s : string) : list string := filter nonEmpty (splitSpaces false s).

Module Plugin.

(** [LastChessSettings], once loaded. *)
Record LastChessSettings : Type := mkSettings {
  username : string;
  templateDefault : string;
  templateOtherUser : string;
  dateFormat : string;
  timeFormat : string;
  lastLookupUsername : string
}.

Definition DEFAULT_SETTINGS : LastChessSettings :=
  mkSettings "gothamchess"
    "- {{end_date}} - [{{focus_result}} a {{game_type}} game]({{url}}) against [{{foe}}]({{foe_url}})<sup>{{foe_rating}}</sup>  rating is now {{rating_change}}/{{focus_rating}}"
    "- {{end_date}} - [{{white}}]({{white_url}})({{white_result}}) vs [{{black}}]({{black_url}})({{black_result}}) in {{moves}} moves"
    "yyyy-MM-dd" "hh:mm" "".

(** The stored object that [loadData] returns: every key may be missing,
    and an older version stored the key [template]. *)
Record StoredData : Type := mkData {
  storedUsername : option string;
  storedTemplateDefault : option string;
  storedTemplateOtherUser : option string;
  storedDateFormat : option string;
  storedTimeFormat : option string;
  storedLastLookupUsername : option string;
  storedTemplate : option string
}.

(** One key of [Object.assign({}, DEFAULT_SETTINGS, data)]. *)
Definition assigned (stored : option string) (dflt : string) : string :=
  match stored with Some v => v | None => dflt end.

(** The heuristic for a format of one component: a format with an hour
    letter is a time format. It yields the date format and the time
    format. *)
Definition oneComponent (stored : string) : string * string :=
  if hasHourLetter stored
  then (dateFormat DEFAULT_SETTINGS, stored)
  else (stored, timeFormat DEFAULT_SETTINGS).

(** The migration of [loadSettings]: the date format and the time format
    after it, from the merged ones and the stored ones. *)
Definition migrateFormats (mergedDate mergedTime : string)
    (storedDate storedTime : option string) : string * string :=
  if nonEmpty (orEmpty storedTime) then (mergedDate, mergedTime)
  else
    match storedDate with
    | Some sd =>
        if nonEmpty sd then
          if hasSpace sd then
            match wordsOf sd with
            | p0 :: p1 :: more =>
                (orIfEmpty p0 (dateFormat DEFAULT_SETTINGS),
                 orIfEmpty (joinWith " " (p1 :: more)) (timeFormat DEFAULT_SETTINGS))
            | _ => oneComponent sd
            end
          else oneComponent sd
        else (mergedDate, mergedTime)
    | None => (mergedDate, mergedTime)
    end.

(** [loadSettings()], from what [loadData] returned ([None] for [null]) to
    the settings. *)
Definition loadSettings (data : option StoredData) : LastChessSettings :=
  match data with
  | None => DEFAULT_SETTINGS
  | Some d =>
      let legacyTemplate := orEmpty (storedTemplate d) in
      let mergedTemplate :=
        assigned (storedTemplateDefault d) (templateDefault DEFAULT_SETTINGS) in
      let formats :=
        migrateFormats
          (assigned (storedDateFormat d) (dateFormat DEFAULT_SETTINGS))
          (assigned (storedTimeFormat d) (timeFormat DEFAULT_SETTINGS))
          (storedDateFormat d) (storedTimeFormat d) in
      mkSettings
        (assigned (storedUsername d) (username DEFAULT_SETTINGS))
        (if nonEmpty legacyTemplate &&
            negb (nonEmpty (orEmpty (storedTemplateDefault d)))
         then legacyTemplate else mergedTemplate)
        (assigned (storedTemplateOtherUser d) (templateOtherUser DEFAULT_SETTINGS))
        (fst formats) (snd formats)
        (assigned (storedLastLookupUsername d) (lastLookupUsername DEFAULT_SETTINGS))
  end.

(** The object [toSave] of [saveSettings()]: the six known settings and
    nothing else. *)
Definition saveSettings (s : LastChessSettings) : StoredData :=
  mkData (Some (username s)) (Some (templateDefault s))
    (Some (templateOtherUser s)) (Some (dateFormat s)) (Some (timeFormat s))
    (Some (lastLookupUsername s)) None.

(** The busy indicator: the count of running operations and the text of
    the status bar item, [None] when the host gave no item. *)
Record Busy : Type := mkBusy {
  busyCount : Z;
  statusBarEl : option string
}.

Definition setText (text : string) (el : option string) : option string :=
  match el with Some _ => Some text | None => None end.

Definition clearBusy (b : Busy) : Busy :=
  mkBusy (busyCount b) (setText "" (statusBarEl b)).

Definition beginBusy (text : string) (b : Busy) : Busy :=
  mkBusy (busyCount b + 1) (setText text (statusBarEl b)).

Definition endBusy (b : Busy) : Busy :=
  let n := Z.max 0 (busyCount b - 1) in
  if n =? 0 then clearBusy (mkBusy n (statusBarEl b))
  else mkBusy n (statusBarEl b).

(** What one run of [fetchInsert] leaves behind: the notice shown, the text
    that replaced the selection of the editor, if any, and the busy
    indicator. *)
Record Inserted : Type := mkInserted {
  notice : string;
  insertedText : option string;
  busyAfter : Busy
}.

Section FetchInsert.

Variable fetchArchives : string -> outcome (list string).
Variable fetchMonth : string -> outcome (list GameItem).
Variable localDate : Z -> JsDate.

(** The default text of [beginBusy], which ends with an ellipsis character
    outside the Latin-1 range. *)
Variable busyText : string.

(** The body of the [try] block of [fetchInsert]: the notice and the
    text inserted. *)
Definition fetchInsertTry (settings : LastChessSettings)
    (user template : string) (lookupUsername timeClass : option string)
    : outcome (string * option string) :=
  let asked := nonEmpty (orEmpty timeClass) in
  let label := if asked then " " ++ orEmpty timeClass else "" in
  res <- getLastGameForUser fetchArchives fetchMonth user timeClass ;;
  match res with
  | None =>
      Ok (if asked
          then "No recent " ++ orEmpty timeClass ++ " games found or user not found."
          else "No recent games found or user not found.", None)
  | Some r =>
      let vars :=
        buildTemplateVars fetchArchives fetchMonth localDate (game r) (meColor r)
          (Some (orIfEmpty (orEmpty lookupUsername) user))
          (Some (dateFormat settings)) (Some (timeFormat settings)) in
      let text := renderTemplate (Some template) (asVars vars) in
      Ok ("Inserted last" ++ label ++ " game.", Some (text ++ newline))
  end.

(** [fetchInsert(username, template, extraVars, opts)]. [viewOpen] tells
    whether a note is open; [lookupUsername] is [extraVars.lookupUsername]
    and [timeClass] is [opts?.timeClass]. *)
Definition fetchInsert (settings : LastChessSettings) (busy : Busy) (viewOpen : bool)
    (user template : string) (lookupUsername timeClass : option string) : Inserted :=
  if viewOpen then
    let result :=
      catchWith ("Failed to fetch from Chess.com. See console for details.", None)
        (fetchInsertTry settings user template lookupUsername timeClass) in
    mkInserted (fst result) (snd result) (endBusy (beginBusy busyText busy))
  else mkInserted "Open a note to insert the last game." None busy.

End FetchInsert.

End Plugin.

(** ** Notions used in the further statements *)

(** The side of a game on which the normal form [u] of a user name plays,
    white being asked first. *)
Definition sideOfUser (u : string) (g : GameItem) : option Color :=
  if sameOpt (normalizeUsername (username (orNoPlayer (white g)))) (Some u)
  then Some white_side
  else if sameOpt (normalizeUsername (username (orNoPlayer (black g)))) (Some u)
  then Some black_side
  else None.

(** What one archive gives to [getLastGameForUser]: its most recent
    candidate, when the user plays in it. *)
Definition archiveYields (u : string) (timeClass : option string)
    (games : list GameItem) : option (GameItem * Color) :=
  match pickLatest (candidatesOf timeClass games) with
  | Some g =>
      match sideOfUser u g with
      | Some c => Some (g, c)
      | None => None
      end
  | None => None
  end.

(** A text that is empty or starts with a character other than white
    space. *)
Definition headNotSpace (s : string) : Prop :=
  match s with String c _ => isSpace c = false | EmptyString => True end.

(** A word of a format: not empty and without white space. *)
Definition wordLike (w : string) : bool :=
  nonEmpty w && allChars (fun c => negb (isSpace c)) w.

(** The characters of an escaped URI component: the unreserved ones and
    the percent sign. *)
Definition uriSafe (c : ascii) : bool := uriUnreserved c || (c =? "%")%char.

(** The keys of an object given as the list of its entries. *)
Definition keysOf {A : Type} (entries : list (string * A)) : list string :=
  map fst entries.

(** Two monthly archives for the examples: in the older one the user
    "Someone" won a blitz game as white, in the newer one the user lost a
    rapid game as black. Any other location fails. *)
Definition blitzGame : GameItem :=
  mkGame (Some "https://www.chess.com/game/live/1") (Some 1704449229)
    (Some 1704448000) (Some "blitz") (Some "chess") (Some true) None
    (Some (mkPlayer (Some "Someone") (Some "win") (Some 1500)))
    (Some (mkPlayer (Some "other") (Some "resigned") (Some 1400))).

Definition rapidGame : GameItem :=
  mkGame (Some "https://www.chess.com/game/live/2") (Some 1707000000)
    (Some 1706999000) (Some "rapid") (Some "chess") (Some true) None
    (Some (mkPlayer (Some "third") (Some "win") (Some 1600)))
    (Some (mkPlayer (Some "someone") (Some "checkmated") (Some 1490))).

Definition twoArchives (indexLocation : string) : outcome (list string) :=
  Ok ["2024/01"; "2024/02"].

Definition twoMonths (location : string) : outcome (list GameItem) :=
  if location === "2024/02" then Ok [rapidGame]
  else if location === "2024/01" then Ok [blitzGame]
  else Throw.

(** The same index when the newer archive cannot be fetched. *)
Definition brokenMonths (location : string) : outcome (list GameItem) :=
  if location === "2024/01" then Ok [blitzGame] else Throw.

(** ** Further reference readings *)

(** The decimal digit [d], for [0 <= d <= 9]. *)
Definition digitChar (d : Z) : ascii := chr (48 + d).

(** A number below 100 written with two decimal digits, the tens first. *)
Definition twoDigits (n : Z) : string :=
  String (digitChar (n / 10)) (String (digitChar (n mod 10)) EmptyString).

(** The category of a game is the requested one up to letter case. *)
Definition sameCategory (category : string) (g : GameItem) : bool :=
  match time_class g with
  | Some c => toLowerCase c === toLowerCase category
  | None => false
  end.

(** A game of the category that ends strictly before the cutoff, an absent
    end time read as 0. *)
Definition wanted (category : string) (cutoff : Z) (g : GameItem) : bool :=
  sameCategory category g && (endOf g <? cutoff).

(** A finished game between white [w], rated [wr], who won, and black [b],
    rated [br], who resigned. *)
Definition matchGame (loc : string) (finish : Z) (category : string)
    (w : string) (wr : Z) (b : string) (br : Z) : GameItem :=
  mkGame (Some loc) (Some finish) None (Some category) None None None
    (Some (mkPlayer (Some w) (Some "win") (Some wr)))
    (Some (mkPlayer (Some b) (Some "resigned") (Some br))).

(** An index with one archive, an archive that holds the given games, and a
    service that fails every request. *)
Definition oneArchive (indexLocation : string) : outcome (list string) :=
  Ok ["2024/01"].

Definition monthOf (games : list GameItem) (location : string)
    : outcome (list GameItem) :=
  Ok games.

Definition failing {A : Type} (location : string) : outcome A := Throw.

(** Games of three categories for the examples: the game that ends at 240
    is a rapid game, and one blitz game spells its category with a capital
    letter. *)
Definition mixedGames : list GameItem :=
  [gameAt "g100" 100 "blitz"; gameAt "r240" 240 "rapid";
   gameAt "g200" 200 "Blitz"; gameAt "d220" 220 "daily";
   gameAt "g300" 300 "blitz"].

(** The documented example with the category spelled "Blitz" throughout. *)
Definition capitalGames : list GameItem :=
  [gameAt "g100" 100 "Blitz"; gameAt "g200" 200 "Blitz"; gameAt "g300" 300 "Blitz"].

(** The times of the archive service are epoch seconds below [2 ^ 32]. On
    them the doubles of [formatDuration] hold the values of the exact
    arithmetic: the milliseconds stay below [2 ^ 53], and no quotient lies
    close enough to a whole or a half number for its rounding to differ. *)
Definition epochSeconds (t : Z) : Prop := 0 < t < 2 ^ 32.

(** The value of an upper-case hexadecimal digit. *)
Definition hexValue (c : ascii) : option Z :=
  let n := code c in
  if (48 <=? n) && (n <=? 57) then Some (n - 48)
  else if (65 <=? n) && (n <=? 70) then Some (n - 55)
  else None.

(** The byte that a percent escape at the head of a text stands for. *)
Definition escapedByte (s : string) : option Z :=
  match s with
  | String p s1 =>
      if (p =? "%")%char then
        match s1 with
        | String a (String b _) =>
            match hexValue a, hexValue b with
            | Some x, Some y => Some (16 * x + y)
            | _, _ => None
            end
        | _ => None
        end
      else None
  | EmptyString => None
  end.

(** Reading an escaped URI component back: a percent escape below 128 is
    that character, two escapes that are the UTF-8 bytes of a code unit from
    128 to 255 are that code unit, and any other character stands for
    itself. [skip] counts the characters of the current escape still to be
    passed over. *)
Fixpoint unescapeComponent (skip : nat) (s : string) : string :=
  match s with
  | EmptyString => EmptyString
  | String c s' =>
      match skip with
      | S k => unescapeComponent k s'
      | O =>
          match escapedByte s with
          | Some b1 =>
              if b1 <? 128 then String (chr b1) (unescapeComponent 2 s')
              else
                match escapedByte (dropStr 3 s) with
                | Some b2 =>
                    String (chr ((b1 - 192) * 64 + (b2 - 128)))
                      (unescapeComponent 5 s')
                | None => String c (unescapeComponent 0 s')
                end
          | None => String c (unescapeComponent 0 s')
          end
      end
  end.

(** *** Templates as text and handlebars *)

(** A key as [buildTemplateVars] and the legacy list have them: an
    identifier that does not start with a digit. Such a key stands for
    itself in the expression built from it, and [Object.entries] lists the
    entries of an object with such keys in the order of insertion. *)
Definition identifierKey (k : string) : bool :=
  plainKey k && negb (startsWithDigit k).

(** A text read as pieces: text without braces, and handlebars with a name
    and the white space around it. *)
Inductive segment : Type :=
| Text (t : string)
| Bar (w1 k w2 : string).

Definition segmentText (s : segment) : string :=
  match s with
  | Text t => t
  | Bar w1 k w2 => handlebar w1 k w2
  end.

Definition wellFormed (s : segment) : bool :=
  match s with
  | Text t => braceFree t
  | Bar w1 k w2 => spaces w1 && plainKey k && spaces w2
  end.

Definition textOf (segs : list segment) : string :=
  joinAll (map segmentText segs).


(** One pass, on the pieces: every handlebar that bears the key gives way
    to the pieces of the value, which the pass does not look at again. *)
Definition splice (key : string) (value : list segment) (segs : list segment)
    : list segment :=
  flat_map (fun s => match s with
                     | Bar _ k _ => if key === k then value else [s]
                     | Text _ => [s]
                     end) segs.

(** The passes one after another, each over the outcome of the one
    before. *)
Definition resolveAll (passes : list (string * list segment))
    (segs : list segment) : list segment :=
  fold_left (fun acc p => splice (fst p) (snd p) acc) passes segs.




(** A value as the renderer normalises it. *)
Definition normalSegments (v : option (list segment)) : list segment :=
  match v with
  | Some segs => if nonEmpty (textOf segs) then segs else [Text "N/A"]
  | None => [Text "N/A"]
  end.

(** The passes of [renderTemplate] for variables given by their pieces:
    one for each variable, then one for each legacy key. *)
Definition passesOf (entries : list (string * option (list segment)))
    : list (string * list segment) :=
  (map (fun e => (fst e, normalSegments (snd e))) entries
   ++ map (fun key => (key, [Text "N/A"])) legacyKeys)%list.

(** The variables as [renderTemplate] receives them. *)
Definition varsOf (entries : list (string * option (list segment)))
    : list (string * option string) :=
  map (fun e => (fst e, option_map textOf (snd e))) entries.

(** An entry whose key is an identifier and whose value is made of text
    without braces and dollar signs and of handlebars. *)
Definition entryOk (e : string * option (list segment)) : bool :=
  identifierKey (fst e) && forallb wellFormed (normalSegments (snd e))
  && dollarFree (textOf (normalSegments (snd e))).

(** *** The items of a movetext *)

(** What a movetext is made of: moves in algebraic notation, move numbers
    ("12." for white and "12..." for black), comments in braces, variations
    in parentheses, numeric annotation glyphs ("$5"), runs of annotation
    signs, and result tokens. *)
Inductive item : Type :=
| Move (san : string)
| Number (digits : string)
| Ellipsis (digits : string)
| Comment (text : string)
| Variation (text : string)
| Nag (digits : string)
| Glyphs (signs : string)
| Result (token : string).

Definition itemText (i : item) : string :=
  match i with
  | Move san => san
  | Number ds => ds ++ "."
  | Ellipsis ds => ds ++ "..."
  | Comment c => "{" ++ c ++ "}"
  | Variation v => "(" ++ v ++ ")"
  | Nag ds => "$" ++ ds
  | Glyphs g => g
  | Result r => r
  end.

Definition isLetter (c : ascii) : bool :=
  let n := code c in
  ((65 <=? n) && (n <=? 90)) || ((97 <=? n) && (n <=? 122)).

Definition isGlyph (c : ascii) : bool :=
  ((c =? "!") || (c =? "?") || (c =? "+") || (c =? "#"))%char.

(** A character of a token: no white space, no opening brace and no opening
    parenthesis. *)
Definition tokenChar (c : ascii) : bool :=
  negb (isSpace c) && negb (c =? "{")%char && negb (c =? "(")%char.

Definition startsWithLetter (s : string) : bool :=
  match s with String c _ => isLetter c | EmptyString => false end.

(** The items as they are written: a move starts with a letter; the digits
    of a number are digits; a comment holds no closing brace and a
    variation no closing parenthesis and no opening brace, and neither holds
    a line feed; a result is one of the four tokens. *)
Definition itemOk (i : item) : bool :=
  match i with
  | Move san => startsWithLetter san && allChars tokenChar san
  | Number ds | Ellipsis ds | Nag ds => nonEmpty ds && allChars isDigit ds
  | Comment c => allChars (fun x => negb (x =? "}")%char && negb (isLF x)) c
  | Variation v =>
      allChars (fun x => negb (x =? ")")%char && negb (x =? "{")%char && negb (isLF x)) v
  | Glyphs g => nonEmpty g && allChars isGlyph g
  | Result r => existsb (String.eqb r) resultTokens
  end.

(** The movetext: the items in order, one space between them. *)
Definition movetext (items : list item) : string :=
  joinWith " " (map itemText items).

(** The moves among the items. *)
Definition movesOf (items : list item) : list string :=
  flat_map (fun i => match i with Move san => [san] | _ => [] end) items.

(** A text in which an opening character is replaced by one space: what a
    comment or a variation becomes. *)
Definition blank (op : ascii) (t : string) : string :=
  match t with
  | String c _ => if (c =? op)%char then " " else t
  | EmptyString => t
  end.

(** The tokens that are counted: those that pass both filters. *)
Definition counted (t : string) : bool := negb (isMoveNumber t) && isCleanToken t.

(** White space is the space character only. *)
Definition plainSpaced (s : string) : bool :=
  allChars (fun c => negb (isSpace c) || (c =? " ")%char) s.

(** The first parts of two splits are the same, and so are the non-empty
    ones among the other parts. *)
Definition sameWords (l1 l2 : list string) : Prop :=
  hd EmptyString l1 = hd EmptyString l2 /\
  filter nonEmpty (tl l1) = filter nonEmpty (tl l2).

(** A text is free of the opening character, or it is closed: the opening
    character, text without the closing one, and the closing character. *)
Definition freeOrClosed (op cl : ascii) (t : string) : Prop :=
  allChars (fun x => negb (x =? op)%char) t = true \/
  exists c, t = String op (c ++ String cl "") /\
            allChars (fun x => negb (x =? cl)%char) c = true.

(** A token: not empty and made of token characters. *)
Definition tokenLike (t : string) : bool := nonEmpty t && allChars tokenChar t.

(** What is left of an item when the comments and the variations are
    removed. *)
Definition stripped (i : item) : string :=
  blank "(" (blank "{" (itemText i)).

(** Which items are tokens. *)
Definition isToken_item (i : item) : bool :=
  match i with Comment _ | Variation _ => false | _ => true end.

(** ** Theorems *)

(** *** Outcome classification *)

Lemma eqb_in_draw (r : string) :
  (r === "stalemate") || (r === "agreed") || (r === "repetition") ||
  (r === "insufficient") || (r === "50move") ||
  (r === "timevsinsufficient") || (r === "draw") = true <-> In r draw_codes.
Proof.
  unfold draw_codes; simpl.
  rewrite !orb_true_iff, !String.eqb_eq.
  intuition congruence.
Qed.

Lemma eqb_in_loss (r : string) :
  (r === "checkmated") || (r === "resigned") || (r === "timeout") ||
  (r === "abandoned") || (r === "lose") = true <-> In r loss_codes.
Proof.
  unfold loss_codes; simpl.
  rewrite !orb_true_iff, !String.eqb_eq.
  intuition congruence.
Qed.

(** C7. [outcomeCategory] is total and decides the category on the
    lower-cased code: Win exactly for "win", Draw exactly for the seven draw
    codes, Loss exactly for the five loss codes, Unknown for everything
    else; the absent and the empty code are Unknown. *)
Theorem outcomeCategory_mapping (result : option string) :
  let r := toLowerCase (orEmpty result) in
  (outcomeCategory result = Win <-> r = "win") /\
  (outcomeCategory result = Draw <-> In r draw_codes) /\
  (outcomeCategory result = Loss <-> In r loss_codes) /\
  (outcomeCategory result = Unknown <->
     r <> "win" /\ ~ In r draw_codes /\ ~ In r loss_codes) /\
  outcomeCategory None = Unknown /\
  outcomeCategory (Some "") = Unknown /\
  outcomeCategory (Some "WIN") = Win /\
  outcomeCategory (Some "TimeVsInsufficient") = Draw /\
  outcomeCategory (Some "Resigned") = Loss /\
  outcomeCategory (Some "kingofthehill") = Unknown.
Proof.
  intros r.
  assert (Hd : forall x, In x draw_codes -> x <> "win")
    by (intros x Hx ->; simpl in Hx; intuition discriminate).
  assert (Hl : forall x, In x loss_codes -> x <> "win" /\ ~ In x draw_codes).
  { intros x Hx; simpl in Hx.
    repeat (destruct Hx as [<- | Hx]; [split; [discriminate | simpl; intuition discriminate] |]).
    contradiction. }
  unfold outcomeCategory; fold r.
  destruct (r === "win") eqn:Ew.
  - apply String.eqb_eq in Ew.
    repeat split; try discriminate; try tauto; intros H; exfalso.
    + exact (Hd r H Ew).
    + exact (proj1 (Hl r H) Ew).
  - apply String.eqb_neq in Ew.
    match goal with |- context [if ?b then Draw else _] => destruct b eqn:Ed end.
    + apply eqb_in_draw in Ed.
      repeat split; try discriminate; try tauto; intros H; exfalso.
      exact (proj2 (Hl r H) Ed).
    + assert (Nd : ~ In r draw_codes)
        by (intros H; apply eqb_in_draw in H; congruence).
      match goal with |- context [if ?b then Loss else _] => destruct b eqn:El end.
      * apply eqb_in_loss in El.
        repeat split; try discriminate; try tauto.
      * assert (Nl : ~ In r loss_codes)
          by (intros H; apply eqb_in_loss in H; congruence).
        repeat split; try discriminate; try tauto.
Qed.

(** *** Pattern formatting *)

Lemma append_nil_r (s : string) : s ++ "" = s.
Proof. induction s; simpl; congruence. Qed.

Lemma append_assoc (a b c : string) : (a ++ b) ++ c = a ++ (b ++ c).
Proof. induction a; simpl; congruence. Qed.

Lemma toString_nonempty (z : Z) : toString z <> "".
Proof.
  unfold toString, NilZero.string_of_int, NilZero.string_of_uint.
  destruct (Z.to_int z) as [d|d]; [|discriminate].
  destruct d; cbn; discriminate.
Qed.

Lemma append_nonempty_r (a b : string) : b <> "" -> a ++ b <> "".
Proof. destruct a; cbn; [auto | discriminate]. Qed.

Lemma append_nonempty_l (a b : string) : a <> "" -> a ++ b <> "".
Proof. destruct a; cbn; [congruence | discriminate]. Qed.

Lemma nonEmpty_true (s : string) : s <> "" -> nonEmpty s = true.
Proof. destruct s; [congruence | reflexivity]. Qed.

Lemma length_append (a b : string) :
  String.length (a ++ b) = (String.length a + String.length b)%nat.
Proof. induction a; simpl; congruence. Qed.

(** Skipping the characters of a match resumes the scan after it. *)
Lemma replaceTokens_skip (f : string -> string) (t s : string) :
  replaceTokens f (String.length t) (t ++ s) = replaceTokens f 0 s.
Proof. induction t; simpl; auto. Qed.

(** A token at the scan position is replaced by the callback's value. *)
Lemma expand_token (date : JsDate) (tok rest : string) :
  tokenAt (tok ++ rest) = Some tok -> tok <> "" ->
  expand date (tok ++ rest) = renderToken date tok ++ expand date rest.
Proof.
  intros Ht Hne. unfold expand.
  destruct tok as [|c tok']; [congruence|].
  change (String c tok' ++ rest) with (String c (tok' ++ rest)) in *.
  cbn [replaceTokens]. rewrite Ht.
  replace (String.length (String c tok') - 1)%nat with (String.length tok')
    by (cbn [String.length]; lia).
  now rewrite replaceTokens_skip.
Qed.

(** A character that starts no token is copied. *)
Lemma expand_plain_char (date : JsDate) (c : ascii) (rest : string) :
  isTokenChar c = false ->
  expand date (String c rest) = String c (expand date rest).
Proof.
  intros Hc. unfold expand. cbn [replaceTokens].
  replace (tokenAt (String c rest)) with (@None string); [reflexivity|].
  unfold isTokenChar in Hc.
  repeat (apply orb_false_elim in Hc; destruct Hc as [Hc ?]).
  unfold tokenAt, tokens, firstPrefix, startsWith.
  repeat match goal with
  | H : (c =? ?x)%char = false |- context [(?x =? c)%char] =>
      rewrite (Ascii.eqb_sym x c), H
  end.
  reflexivity.
Qed.

Lemma prefix_app_plain (t : string) : forall (p : string) (c : ascii) (r : string),
  allChars isTokenChar t = true -> isTokenChar c = false ->
  startsWith t (p ++ String c r) = startsWith t p.
Proof.
  induction t as [|a t IH]; intros p c r Ht Hc.
  - now destruct p.
  - cbn [allChars] in Ht. apply andb_true_iff in Ht as [Ha Ht].
    destruct p as [|b p]; cbn [String.append startsWith].
    + destruct (Ascii.eqb_spec a c) as [->|_]; [congruence | reflexivity].
    + destruct (a =? b)%char; [now apply IH | reflexivity].
Qed.

Lemma firstPrefix_app_plain (alts : list string) (p : string) (c : ascii) (r : string) :
  forallb (allChars isTokenChar) alts = true -> isTokenChar c = false ->
  firstPrefix alts (p ++ String c r) = firstPrefix alts p.
Proof.
  intros Ha Hc. induction alts as [|t alts IH]; [reflexivity|].
  cbn [forallb] in Ha. apply andb_true_iff in Ha as [Ht Ha].
  cbn [firstPrefix]. rewrite prefix_app_plain by assumption.
  destruct (startsWith t p); auto.
Qed.

Lemma prefix_length (t : string) : forall p,
  startsWith t p = true -> (String.length t <= String.length p)%nat.
Proof.
  induction t as [|a t IH]; intros p H; [cbn; lia|].
  destruct p as [|b p]; cbn [startsWith] in H; [discriminate|].
  apply andb_true_iff in H as [_ H].
  cbn [String.length]. apply IH in H. lia.
Qed.

Lemma firstPrefix_some (alts : list string) (p t : string) :
  firstPrefix alts p = Some t -> In t alts /\ startsWith t p = true.
Proof.
  induction alts as [|a alts IH]; cbn [firstPrefix]; [discriminate|].
  destruct (startsWith a p) eqn:E.
  - intros [= <-]. split; [now left | assumption].
  - intros H. apply IH in H as [? ?]. split; [now right | assumption].
Qed.

(** The scan of a pattern splits at a character that starts no token: no
    match reaches across it. *)
Lemma replaceTokens_split (f : string -> string) (pre : string) :
  forall (skip : nat) (c : ascii) (r : string),
  isTokenChar c = false -> (skip <= String.length pre)%nat ->
  replaceTokens f skip (pre ++ String c r) =
  replaceTokens f skip pre ++ replaceTokens f 0 (String c r).
Proof.
  induction pre as [|a pre IH]; intros skip c r Hc Hk.
  - cbn [String.length] in Hk. now replace skip with 0%nat by lia.
  - change (String a pre ++ String c r) with (String a (pre ++ String c r)).
    cbn [String.length] in Hk.
    destruct skip as [|k]; cbn [replaceTokens].
    + change (String a (pre ++ String c r)) with (String a pre ++ String c r).
      unfold tokenAt. rewrite firstPrefix_app_plain by (assumption || reflexivity).
      destruct (firstPrefix tokens (String a pre)) as [tok|] eqn:E.
      * apply firstPrefix_some in E as [_ E]. apply prefix_length in E.
        cbn [String.length] in E.
        rewrite IH by (assumption || lia). now rewrite append_assoc.
      * now rewrite IH by (assumption || lia).
    + apply IH; [assumption | lia].
Qed.

Lemma expand_unrecognized (date : JsDate) (u rest : string) :
  unrecognized u = true -> expand date (u ++ rest) = u ++ expand date rest.
Proof.
  induction u as [|c u IH]; intros Hu; [reflexivity|].
  unfold unrecognized in Hu. cbn [allChars] in Hu.
  apply andb_true_iff in Hu as [Hc Hu]. apply negb_true_iff in Hc.
  change (String c u ++ rest) with (String c (u ++ rest)).
  rewrite expand_plain_char by assumption.
  cbn [String.append]. f_equal. now apply IH.
Qed.

(** An unrecognized, non-empty substring is copied as it stands, and the
    pattern on either side of it is formatted on its own. *)
Lemma expand_around_unrecognized (date : JsDate) (pre u post : string) :
  unrecognized u = true -> u <> "" ->
  expand date (pre ++ u ++ post) = expand date pre ++ u ++ expand date post.
Proof.
  intros Hu Hne. destruct u as [|c u]; [congruence|].
  assert (Hc : isTokenChar c = false).
  { unfold unrecognized in Hu. cbn [allChars] in Hu.
    apply andb_true_iff in Hu as [Hc _]. now apply negb_true_iff in Hc. }
  change (String c u ++ post) with (String c (u ++ post)).
  unfold expand at 1. rewrite replaceTokens_split by (assumption || lia).
  fold (expand date pre). f_equal.
  change (replaceTokens (renderToken date) 0 (String c (u ++ post)))
    with (expand date (String c u ++ post)).
  now apply expand_unrecognized.
Qed.

(** The twelve-hour value of an hour of the day. *)
Lemma h12_range (H : Z) : 0 <= H < 24 ->
  1 <= h12 H <= 12 /\ (h12 H - H) mod 12 = 0 /\
  String.length (zeroPad (h12 H)) = 2%nat /\ zeroPad (h12 H) <> "00" /\
  (H mod 12 = 0 -> zeroPad (h12 H) = "12").
Proof.
  intros HH.
  assert (Hn : (Z.to_nat H < 24)%nat) by lia.
  replace H with (Z.of_nat (Z.to_nat H)) by lia.
  clear HH. revert Hn. generalize (Z.to_nat H). clear H. intros n Hn.
  do 24 (destruct n as [|n];
         [vm_compute; repeat split; intros; congruence|]).
  lia.
Qed.

Lemma prefix_drop (t : string) : forall s,
  startsWith t s = true -> s = t ++ dropStr (String.length t) s.
Proof.
  induction t as [|a t IH]; intros s H; [reflexivity|].
  destruct s as [|b s]; cbn [startsWith] in H; [discriminate|].
  apply andb_true_iff in H as [Hab H]. apply Ascii.eqb_eq in Hab as ->.
  cbn [String.length dropStr String.append]. f_equal. now apply IH.
Qed.

(** Every pattern reads as a sequence of tokens and single characters such
    that the output renders the tokens and copies the characters. *)
Lemma replaceTokens_pieces (date : JsDate) (s : string) : forall skip,
  exists ps : list piece,
    dropStr skip s = joinAll (map pieceSource ps) /\
    replaceTokens (renderToken date) skip s = joinAll (map (pieceOutput date) ps) /\
    Forall isToken ps.
Proof.
  induction s as [|c s IH]; intros skip.
  - exists []. destruct skip; repeat split; constructor.
  - destruct skip as [|k]; cbn [replaceTokens dropStr].
    + destruct (tokenAt (String c s)) as [tok|] eqn:E.
      * apply firstPrefix_some in E as [Hin E].
        destruct tok as [|a tok]; [cbn in Hin; intuition discriminate|].
        pose proof (prefix_drop _ _ E) as Hs.
        cbn [String.length dropStr] in Hs.
        destruct (IH (String.length (String a tok) - 1)%nat) as (ps & H1 & H2 & H3).
        exists (Tok (String a tok) :: ps). cbn [map joinAll pieceSource pieceOutput].
        rewrite <- H1, <- H2.
        replace (String.length (String a tok) - 1)%nat with (String.length tok)
          by (cbn [String.length]; lia).
        repeat split; [exact Hs | now constructor].
      * destruct (IH 0%nat) as (ps & H1 & H2 & H3).
        exists (Lit c :: ps). cbn [map joinAll pieceSource pieceOutput dropStr] in *.
        rewrite <- H1, <- H2. repeat split. now constructor.
    + apply IH.
Qed.

(** Below 100 [zeroPad] writes the tens digit and the units digit. *)
Lemma zeroPad_twoDigits (n : Z) : 0 <= n < 100 -> zeroPad n = twoDigits n.
Proof.
  intros Hn.
  assert (Hk : (Z.to_nat n < 100)%nat) by lia.
  replace n with (Z.of_nat (Z.to_nat n)) by lia.
  clear Hn. revert Hk. generalize (Z.to_nat n). clear n. intros k Hk.
  do 100 (destruct k as [|k]; [vm_compute; reflexivity|]).
  lia.
Qed.

(** The twelve-hour value of an hour is the only number from 1 to 12 that
    differs from the hour by a multiple of 12. *)
Lemma h12_unique (H v : Z) :
  0 <= H < 24 -> 1 <= v <= 12 -> (v - H) mod 12 = 0 -> h12 H = v.
Proof.
  intros HH Hv Hmod.
  destruct (h12_range H HH) as (Hr & Hm & _).
  apply Z.mod_divide in Hmod; [|lia]. apply Z.mod_divide in Hm; [|lia].
  destruct Hmod as [q1 Hq1]. destruct Hm as [q2 Hq2]. lia.
Qed.

(** C8. For a valid date the token [hh] is replaced by the twelve-hour value
    of the hour, written with two decimal digits: the value [v] from 1 to 12
    that differs from the hour of the day by a multiple of 12, so the hours
    0 and 12 give "12" and no hour gives "00". An unrecognized substring is
    copied verbatim and the pattern around it is formatted on its own; every
    pattern only has its tokens replaced; and the result is a function of
    the date's getters and the pattern, so formatting twice gives the same
    string. *)
Theorem formatWithPattern_hh_verbatim (date : JsDate) (v : Z)
    (pre u post rest : string) :
  valid_date date ->
  1 <= v <= 12 -> (v - getHours date) mod 12 = 0 ->
  let hh := twoDigits v in
  formatWithPattern date (Some "hh") = hh /\
  formatWithPattern date (Some ("hh" ++ rest)) = hh ++ expand date rest /\
  hh <> "00" /\
  (getHours date mod 12 = 0 -> hh = "12") /\
  (unrecognized u = true -> u <> "" ->
   formatWithPattern date (Some (pre ++ u ++ post)) =
     expand date pre ++ u ++ expand date post) /\
  (unrecognized u = true -> u <> "" ->
   formatWithPattern date (Some (pre ++ u ++ "hh" ++ rest)) =
     expand date pre ++ u ++ hh ++ expand date rest) /\
  (unrecognized u = true -> u <> "" -> formatWithPattern date (Some u) = u) /\
  (forall pattern, exists ps : list piece,
     orDefault pattern defaultPattern = joinAll (map pieceSource ps) /\
     formatWithPattern date pattern = joinAll (map (pieceOutput date) ps) /\
     Forall isToken ps) /\
  (forall date' pattern,
     getFullYear date' = getFullYear date -> getMonth date' = getMonth date ->
     getDate date' = getDate date -> getHours date' = getHours date ->
     getMinutes date' = getMinutes date -> getSeconds date' = getSeconds date ->
     formatWithPattern date' pattern = formatWithPattern date pattern) /\
  (formatWithPattern (mkDate 2024 0 5 0 7 9) (Some "hh") = "12" /\
   formatWithPattern (mkDate 2024 0 5 3 7 9) (Some "hh") = "03" /\
   formatWithPattern (mkDate 2024 0 5 11 7 9) (Some "hh") = "11" /\
   formatWithPattern (mkDate 2024 0 5 12 7 9) (Some "hh") = "12" /\
   formatWithPattern (mkDate 2024 0 5 15 7 9) (Some "hh") = "03" /\
   formatWithPattern (mkDate 2024 0 5 23 7 9) (Some "hh.mm") = "11.07").
Proof.
  intros (_ & _ & HH & _) Hv Hmod hh.
  assert (Hval : zeroPad (h12 (getHours date)) = hh).
  { rewrite (h12_unique _ v HH Hv Hmod). apply zeroPad_twoDigits. lia. }
  assert (Hhh : forall r, expand date ("hh" ++ r) = hh ++ expand date r).
  { intros r. rewrite <- Hval. apply expand_token; [reflexivity | discriminate]. }
  assert (Hne : forall a b c, a ++ String b c <> "") by (intros [|? ?] ? ?; discriminate).
  destruct (h12_range _ HH) as (_ & _ & _ & H00 & H12).
  rewrite Hval in H00, H12.
  refine (conj _ (conj _ (conj H00 (conj H12 (conj _ (conj _ (conj _ (conj _ (conj _ _))))))))).
  - unfold formatWithPattern. cbn [orDefault nonEmpty].
    change "hh" with ("hh" ++ ""). rewrite Hhh. apply append_nil_r.
  - unfold formatWithPattern. cbn [orDefault String.append nonEmpty]. apply Hhh.
  - intros Hu Hu0. unfold formatWithPattern.
    replace (orDefault (Some (pre ++ u ++ post)) defaultPattern) with (pre ++ u ++ post).
    + now apply expand_around_unrecognized.
    + destruct u as [|c u]; [congruence|]. cbn [orDefault].
      now destruct (pre ++ String c u ++ post) eqn:E; [apply Hne in E|].
  - intros Hu Hu0. unfold formatWithPattern.
    replace (orDefault (Some (pre ++ u ++ "hh" ++ rest)) defaultPattern)
      with (pre ++ u ++ "hh" ++ rest).
    + rewrite expand_around_unrecognized by assumption. now rewrite Hhh.
    + destruct u as [|c u]; [congruence|]. cbn [orDefault].
      now destruct (pre ++ String c u ++ "hh" ++ rest) eqn:E; [apply Hne in E|].
  - intros Hu Hu0. destruct u as [|c u]; [congruence|].
    unfold formatWithPattern. cbn [orDefault nonEmpty].
    rewrite <- (append_nil_r (String c u)) at 1.
    rewrite expand_unrecognized by assumption. apply append_nil_r.
  - intros pattern. unfold formatWithPattern, expand.
    destruct (replaceTokens_pieces date (orDefault pattern defaultPattern) 0)
      as (ps & H1 & H2 & H3).
    exists ps. repeat split; assumption.
  - intros [y' M' d' H' m' s'] pattern. destruct date as [y M d H m s]. cbn.
    now intros -> -> -> -> -> ->.
  - repeat split; vm_compute; reflexivity.
Qed.

Lemma formatWithPattern_hh_verbatim_witness :
  formatWithPattern (mkDate 2024 0 5 15 7 9) (Some "hh") = "03".
Proof.
  refine (proj1 (formatWithPattern_hh_verbatim (mkDate 2024 0 5 15 7 9) 3
                   "" "-" "" ":mm" _ _ _)).
  - unfold valid_date; cbn; lia.
  - lia.
  - reflexivity.
Defined.

(** *** Move counting *)

Lemma toString_not_NA (n : Z) : 1 <= n -> toString n <> "N/A".
Proof.
  intros Hn. unfold toString.
  destruct n as [|p|p]; try lia.
  cbn [Z.to_int]. unfold NilZero.string_of_int.
  remember (Pos.to_uint p) as u eqn:Eu. clear Eu.
  unfold NilZero.string_of_uint.
  destruct u; cbn; discriminate.
Qed.

(** *** The most recent candidate of an archive *)

Lemma truthy_orZero (x : option Z) : truthy x = negb (orZero x =? 0).
Proof. now destruct x. Qed.

Lemma laterOf_cases (latest g : GameItem) :
  laterOf latest g =
    if (endOf latest =? 0) || (negb (endOf g =? 0) && (endOf g >? endOf latest))
    then g else latest.
Proof.
  unfold laterOf, endOf. rewrite !truthy_orZero. now rewrite negb_involutive.
Qed.

Lemma last_cons_default {A : Type} (l : list A) (a d : A) :
  last (a :: l) d = last l a.
Proof.
  revert a d. induction l as [|b l IH]; intros a d; [reflexivity|].
  change (last (a :: b :: l) d) with (last (b :: l) d).
  rewrite IH. symmetry. apply IH.
Qed.

Lemma last_In {A : Type} (l : list A) (d : A) : l <> [] -> In (last l d) l.
Proof.
  induction l as [|a l IH]; [congruence|]. intros _.
  destruct l as [|b l]; [now left|].
  right. apply IH. discriminate.
Qed.

Lemma last_nonempty_default {A : Type} (l : list A) (d d' : A) :
  l <> [] -> last l d = last l d'.
Proof.
  destruct l as [|a l]; [congruence|]. intros _.
  now rewrite !last_cons_default.
Qed.

(** While every game seen lies below a bound, so does the running choice. *)
Lemma fold_laterOf_below (M : Z) (l : list GameItem) : forall latest,
  (forall h, In h l -> endOf h < M) -> endOf latest < M ->
  endOf (fold_left laterOf l latest) < M.
Proof.
  induction l as [|g l IH]; intros latest Hl Hlat; [exact Hlat|].
  cbn [fold_left]. apply IH.
  - intros h Hh. apply Hl. now right.
  - rewrite laterOf_cases.
    destruct ((endOf latest =? 0) || _); [apply Hl; now left | exact Hlat].
Qed.

(** A choice with a positive end time is kept while nothing greater comes. *)
Lemma fold_laterOf_keeps (l : list GameItem) (latest : GameItem) :
  0 < endOf latest -> (forall h, In h l -> endOf h <= endOf latest) ->
  fold_left laterOf l latest = latest.
Proof.
  intros Hpos. induction l as [|g l IH]; intros Hl; [reflexivity|].
  cbn [fold_left].
  assert (Hg : endOf g <= endOf latest) by (apply Hl; now left).
  rewrite laterOf_cases.
  replace (endOf latest =? 0) with false by (symmetry; apply Z.eqb_neq; lia).
  replace (endOf g >? endOf latest) with false
    by (symmetry; rewrite Z.gtb_ltb; apply Z.ltb_ge; lia).
  rewrite andb_false_r. cbn [orb]. apply IH.
  intros h Hh. apply Hl. now right.
Qed.

(** While no game has an end time, each game replaces the choice. *)
Lemma fold_laterOf_falsy (l : list GameItem) : forall latest,
  endOf latest = 0 -> (forall h, In h l -> endOf h = 0) ->
  fold_left laterOf l latest = last l latest.
Proof.
  induction l as [|g l IH]; intros latest H0 Hl; [reflexivity|].
  cbn [fold_left]. rewrite last_cons_default.
  rewrite laterOf_cases, H0. cbn [Z.eqb orb].
  apply IH; [apply Hl; now left | intros h Hh; apply Hl; now right].
Qed.

(** A non-empty list splits at the first element that attains the
    maximum. *)
Lemma first_max_split {A : Type} (e : A -> Z) (l : list A) :
  l <> [] ->
  exists l1 g l2, l = (l1 ++ g :: l2)%list /\
    (forall h, In h l1 -> e h < e g) /\ (forall h, In h l2 -> e h <= e g).
Proof.
  induction l as [|a l IH]; [congruence|]. intros _.
  destruct l as [|b l].
  - exists [], a, []. repeat split; intros h [].
  - destruct IH as (l1 & g & l2 & E & H1 & H2); [discriminate|].
    destruct (Z_lt_le_dec (e a) (e g)) as [Hlt|Hge].
    + exists (a :: l1), g, l2. rewrite E. repeat split; [|exact H2].
      intros h [<-|Hh]; [exact Hlt | now apply H1].
    + exists [], a, (b :: l). repeat split; [intros h []|].
      intros h Hh. rewrite E in Hh. apply in_app_or in Hh as [Hh|[<-|Hh]].
      * specialize (H1 h Hh). lia.
      * lia.
      * specialize (H2 h Hh). lia.
Qed.

Lemma pickLatest_eq (candidates : list GameItem) (d : GameItem) :
  candidates <> [] ->
  pickLatest candidates = Some (fold_left laterOf candidates (last candidates d)).
Proof.
  intros Hne. destruct candidates as [|g0 rest]; [congruence|].
  unfold pickLatest. now rewrite (last_nonempty_default (g0 :: rest) g0 d).
Qed.

(** What the scan of [getLastGameForUser] picks among candidates with
    non-negative end times. *)
Lemma pickLatest_char (candidates : list GameItem) :
  candidates <> [] ->
  Forall (fun g => 0 <= endOf g) candidates ->
  exists g, pickLatest candidates = Some g /\ In g candidates /\
    (forall h, In h candidates -> endOf h <= endOf g) /\
    (forall d, endOf (last candidates d) = endOf g -> g = last candidates d) /\
    (forall d, endOf (last candidates d) < endOf g ->
       exists l1 l2, candidates = (l1 ++ g :: l2)%list /\
         forall h, In h l1 -> endOf h < endOf g).
Proof.
  intros Hne Hpos. rewrite Forall_forall in Hpos.
  destruct (first_max_split endOf candidates Hne) as (l1 & g & l2 & E & H1 & H2).
  rewrite (pickLatest_eq candidates g Hne). set (L := last candidates g).
  assert (HL : In L candidates) by (apply last_In; assumption).
  assert (HLd : forall d, last candidates d = L)
    by (intros d; apply last_nonempty_default; assumption).
  assert (Hmax : forall h, In h candidates -> endOf h <= endOf g).
  { intros h Hh. rewrite E in Hh. apply in_app_or in Hh as [Hh|[<-|Hh]].
    - specialize (H1 h Hh). lia.
    - lia.
    - now apply H2. }
  assert (Hg : In g candidates) by (rewrite E; apply in_or_app; right; now left).
  destruct (Z.eq_dec (endOf L) (endOf g)) as [Heq|Hneq].
  - (* the last candidate attains the maximum *)
    assert (Hr : fold_left laterOf candidates L = L).
    { destruct (Z.eq_dec (endOf g) 0) as [Hz|Hnz].
      - rewrite fold_laterOf_falsy; [apply HLd | lia |].
        intros h Hh. specialize (Hmax h Hh). specialize (Hpos h Hh).
        cbn beta in Hpos. lia.
      - apply fold_laterOf_keeps.
        + specialize (Hpos g Hg). cbn beta in Hpos. lia.
        + intros h Hh. rewrite Heq. now apply Hmax. }
    exists L. rewrite Hr.
    refine (conj eq_refl (conj HL (conj _ (conj _ _)))).
    + intros h Hh. rewrite Heq. now apply Hmax.
    + intros d _. now rewrite HLd.
    + intros d Hd. rewrite HLd in Hd. lia.
  - (* an earlier candidate is strictly greater *)
    assert (HltL : endOf L < endOf g) by (specialize (Hmax L HL); lia).
    assert (Hgpos : 0 < endOf g)
      by (specialize (Hpos L HL); cbn beta in Hpos; lia).
    assert (Hr : fold_left laterOf candidates L = g).
    { rewrite E, fold_left_app. cbn [fold_left].
      pose proof (fold_laterOf_below (endOf g) l1 L H1 HltL) as Hb.
      set (r1 := fold_left laterOf l1 L) in *.
      assert (Hstep : laterOf r1 g = g).
      { rewrite laterOf_cases.
        replace (endOf g =? 0) with false by (symmetry; apply Z.eqb_neq; lia).
        replace (endOf g >? endOf r1) with true
          by (symmetry; rewrite Z.gtb_ltb; apply Z.ltb_lt; lia).
        now rewrite orb_true_r. }
      rewrite Hstep. now apply fold_laterOf_keeps. }
    exists g. rewrite Hr.
    refine (conj eq_refl (conj Hg (conj Hmax (conj _ _)))).
    + intros d Hd. rewrite HLd in Hd. lia.
    + intros d _. exists l1, l2. split; [exact E | exact H1].
Qed.

Lemma candidatesOf_nil (timeClass : option string) : candidatesOf timeClass [] = [].
Proof. destruct timeClass as [tc|]; cbn; [destruct (nonEmpty tc)|]; reflexivity. Qed.

(** One turn of the loop of [getLastGameForUser] in an archive that has a
    candidate. *)
Lemma scanLast_step (fetchMonth : string -> outcome (list GameItem))
    (u user : string) (timeClass : option string) (a : string)
    (older : list string) (games : list GameItem) (g : GameItem) :
  fetchMonth a = Ok games ->
  pickLatest (candidatesOf timeClass games) = Some g ->
  scanLast fetchMonth u user timeClass (a :: older) =
    if sameOpt (normalizeUsername (username (orNoPlayer (white g)))) (Some u)
    then Ok (Some (mkResolved g white_side user))
    else if sameOpt (normalizeUsername (username (orNoPlayer (black g)))) (Some u)
    then Ok (Some (mkResolved g black_side user))
    else scanLast fetchMonth u user timeClass older.
Proof.
  intros Hf Hp. cbn [scanLast]. rewrite Hf. cbn [bind].
  destruct games as [|g1 games].
  - rewrite candidatesOf_nil in Hp. discriminate.
  - now rewrite Hp.
Qed.

(** C1, as stated, fails: of two candidates with the same end time the scan
    of the code returns the second, the stable running maximum of the
    documentation the first. *)
Lemma pickLatest_tie_counterexample :
  pickLatest [gameAt "a" 100 "blitz"; gameAt "b" 100 "blitz"]
    = Some (gameAt "b" 100 "blitz") /\
  stableRunningMax [gameAt "a" 100 "blitz"; gameAt "b" 100 "blitz"]
    = Some (gameAt "a" 100 "blitz") /\
  pickLatest [gameAt "a" 100 "blitz"; gameAt "b" 100 "blitz"]
    <> stableRunningMax [gameAt "a" 100 "blitz"; gameAt "b" 100 "blitz"].
Proof.
  repeat split; try reflexivity.
  vm_compute. intros H. inversion H.
Qed.

(** C1, amended. In every archive whose candidate set is not empty (end
    times being non-negative, an absent one read as 0) the resolver selects
    a candidate with the greatest end time. The scan starts from the last
    candidate: when the last candidate attains the greatest end time it is
    the one selected, otherwise the first candidate in list order that
    attains it is. The selected candidate is the one whose sides are then
    compared with the user. *)
Theorem getLastGameForUser_selects_greatest (candidates : list GameItem) :
  candidates <> [] ->
  Forall (fun g => 0 <= endOf g) candidates ->
  exists g, pickLatest candidates = Some g /\ In g candidates /\
    (forall h, In h candidates -> endOf h <= endOf g) /\
    (forall d, endOf (last candidates d) = endOf g -> g = last candidates d) /\
    (forall d, endOf (last candidates d) < endOf g ->
       exists l1 l2, candidates = (l1 ++ g :: l2)%list /\
         forall h, In h l1 -> endOf h < endOf g) /\
    (forall fetchMonth u user timeClass a older games,
       fetchMonth a = Ok games -> candidatesOf timeClass games = candidates ->
       scanLast fetchMonth u user timeClass (a :: older) =
         if sameOpt (normalizeUsername (username (orNoPlayer (white g)))) (Some u)
         then Ok (Some (mkResolved g white_side user))
         else if sameOpt (normalizeUsername (username (orNoPlayer (black g)))) (Some u)
         then Ok (Some (mkResolved g black_side user))
         else scanLast fetchMonth u user timeClass older).
Proof.
  intros Hne Hpos.
  destruct (pickLatest_char candidates Hne Hpos) as (g & Hp & Hin & Hmax & Hlast & Hfirst).
  exists g. refine (conj Hp (conj Hin (conj Hmax (conj Hlast (conj Hfirst _))))).
  intros fetchMonth u user timeClass a older games Hf Hc.
  apply (scanLast_step _ _ _ _ _ _ games); [exact Hf | now rewrite Hc].
Qed.

Lemma getLastGameForUser_selects_greatest_witness :
  exists g, pickLatest [gameAt "a" 100 "blitz"; gameAt "b" 300 "blitz";
                        gameAt "c" 300 "blitz"; gameAt "d" 200 "blitz"] = Some g /\
    g = gameAt "b" 300 "blitz".
Proof.
  destruct (getLastGameForUser_selects_greatest
              [gameAt "a" 100 "blitz"; gameAt "b" 300 "blitz";
               gameAt "c" 300 "blitz"; gameAt "d" 200 "blitz"])
    as (g & Hp & _).
  - discriminate.
  - repeat constructor; vm_compute; discriminate.
  - exists g. split; [exact Hp|]. vm_compute in Hp. now inversion Hp.
Defined.

(** *** The category filter *)

Lemma classMatches_iff (timeClass : string) (g : GameItem) :
  classMatches timeClass g = true <->
  exists c, time_class g = Some c /\ toLowerCase c = timeClass.
Proof.
  unfold classMatches. destruct (time_class g) as [c|].
  - rewrite String.eqb_eq. split.
    + intros H. now exists c.
    + now intros (c' & [= <-] & H).
  - split; [discriminate | now intros (c' & H & _)].
Qed.

Lemma fold_laterOf_In (l : list GameItem) : forall latest,
  fold_left laterOf l latest = latest \/ In (fold_left laterOf l latest) l.
Proof.
  induction l as [|g l IH]; intros latest; [now left|].
  cbn [fold_left]. destruct (IH (laterOf latest g)) as [H|H].
  - rewrite H. unfold laterOf.
    destruct (_ || _); [right; now left | now left].
  - right. now right.
Qed.

Lemma pickLatest_In (candidates : list GameItem) (g : GameItem) :
  pickLatest candidates = Some g -> In g candidates.
Proof.
  destruct candidates as [|g0 rest]; [discriminate|].
  rewrite (pickLatest_eq _ g0) by discriminate. intros H0.
  assert (E : g = fold_left laterOf (g0 :: rest) (last (g0 :: rest) g0))
    by congruence.
  destruct (fold_laterOf_In (g0 :: rest) (last (g0 :: rest) g0)) as [H|H].
  - rewrite E, H. apply last_In. discriminate.
  - now rewrite E.
Qed.

(** A game returned by the loop of [getLastGameForUser] was picked among the
    candidates of one of the archives. *)
Lemma scanLast_sound (fetchMonth : string -> outcome (list GameItem))
    (u user : string) (timeClass : option string) (r : Resolved) :
  forall newestFirst,
  scanLast fetchMonth u user timeClass newestFirst = Ok (Some r) ->
  exists a games, In a newestFirst /\ fetchMonth a = Ok games /\
    pickLatest (candidatesOf timeClass games) = Some (game r).
Proof.
  induction newestFirst as [|a older IH]; [discriminate|].
  cbn [scanLast]. destruct (fetchMonth a) as [games|] eqn:Hf; [|discriminate].
  cbn [bind].
  assert (Hold : scanLast fetchMonth u user timeClass older = Ok (Some r) ->
                 exists a0 games0, In a0 (a :: older) /\ fetchMonth a0 = Ok games0 /\
                   pickLatest (candidatesOf timeClass games0) = Some (game r)).
  { intros H. destruct (IH H) as (a0 & games0 & Hin & H1 & H2).
    exists a0, games0. repeat split; auto. now right. }
  destruct games as [|g1 games]; [exact Hold|].
  destruct (pickLatest (candidatesOf timeClass (g1 :: games))) as [latest|] eqn:Hp;
    [|exact Hold].
  destruct (sameOpt _ (Some u)).
  - intros [= <-]. exists a, (g1 :: games). repeat split; auto. now left.
  - destruct (sameOpt _ (Some u)); [|exact Hold].
    intros [= <-]. exists a, (g1 :: games). repeat split; auto. now left.
Qed.

Lemma fold_laterBefore_some (l : list GameItem) : forall b,
  fold_left laterBefore l (Some b) = Some (fold_left keepUnlessGreater l b).
Proof.
  induction l as [|g l IH]; intros b; [reflexivity|].
  cbn [fold_left laterBefore]. unfold keepUnlessGreater at 2, endOf.
  destruct (orZero (end_time g) >? orZero (end_time b)); apply IH.
Qed.

(** The scan of [getPreviousGameForUser] is the stable running maximum. *)
Lemma pickPrevious_stable (candidates : list GameItem) :
  pickPrevious candidates = stableRunningMax candidates.
Proof.
  destruct candidates as [|g0 rest]; [reflexivity|].
  unfold pickPrevious. cbn [fold_left laterBefore stableRunningMax].
  apply fold_laterBefore_some.
Qed.

Lemma fold_keep_below (M : Z) (l : list GameItem) : forall b,
  (forall h, In h l -> endOf h < M) -> endOf b < M ->
  endOf (fold_left keepUnlessGreater l b) < M.
Proof.
  induction l as [|g l IH]; intros b Hl Hb; [exact Hb|].
  cbn [fold_left]. apply IH.
  - intros h Hh. apply Hl. now right.
  - unfold keepUnlessGreater.
    destruct (endOf g >? endOf b); [apply Hl; now left | exact Hb].
Qed.

Lemma fold_keep_keeps (l : list GameItem) (b : GameItem) :
  (forall h, In h l -> endOf h <= endOf b) ->
  fold_left keepUnlessGreater l b = b.
Proof.
  induction l as [|g l IH]; intros Hl; [reflexivity|].
  cbn [fold_left]. unfold keepUnlessGreater at 2.
  replace (endOf g >? endOf b) with false.
  - apply IH. intros h Hh. apply Hl. now right.
  - symmetry. rewrite Z.gtb_ltb. apply Z.ltb_ge. apply Hl. now left.
Qed.

(** The stable running maximum is the first element that attains the
    greatest end time. *)
Lemma stableRunningMax_char (candidates : list GameItem) :
  candidates <> [] ->
  exists l1 g l2, candidates = (l1 ++ g :: l2)%list /\
    stableRunningMax candidates = Some g /\
    (forall h, In h l1 -> endOf h < endOf g) /\
    (forall h, In h l2 -> endOf h <= endOf g).
Proof.
  intros Hne.
  destruct (first_max_split endOf candidates Hne) as (l1 & g & l2 & E & H1 & H2).
  exists l1, g, l2. refine (conj E (conj _ (conj H1 H2))).
  rewrite E. destruct l1 as [|b l1]; cbn [app stableRunningMax].
  - now rewrite fold_keep_keeps.
  - rewrite fold_left_app. cbn [fold_left].
    assert (Hb : endOf (fold_left keepUnlessGreater l1 b) < endOf g).
    { apply fold_keep_below; [|apply H1; now left].
      intros h Hh. apply H1. now right. }
    unfold keepUnlessGreater at 2.
    replace (endOf g >? _) with true
      by (symmetry; rewrite Z.gtb_ltb; apply Z.ltb_lt; exact Hb).
    now rewrite fold_keep_keeps.
Qed.

Lemma pickPrevious_In (candidates : list GameItem) (g : GameItem) :
  pickPrevious candidates = Some g -> In g candidates.
Proof.
  destruct candidates as [|g0 rest]; [discriminate|].
  intros H.
  destruct (stableRunningMax_char (g0 :: rest)) as (l1 & g' & l2 & E & Hs & _);
    [discriminate|].
  rewrite pickPrevious_stable, Hs in H. injection H as <-.
  rewrite E. apply in_or_app. right. now left.
Qed.

(** A game returned by the loop of [getPreviousGameForUser] was picked among
    the qualifying games of one of the archives. *)
Lemma scanPrevious_sound (fetchMonth : string -> outcome (list GameItem))
    (timeClass : string) (cutoff : Z) (p : GameItem) :
  forall newestFirst,
  scanPrevious fetchMonth timeClass cutoff newestFirst = Ok (Some p) ->
  exists a games, In a newestFirst /\ fetchMonth a = Ok games /\
    pickPrevious (filter (qualifies timeClass cutoff) games) = Some p.
Proof.
  induction newestFirst as [|a older IH]; [discriminate|].
  cbn [scanPrevious]. destruct (fetchMonth a) as [games|] eqn:Hf; [|discriminate].
  cbn [bind].
  destruct (pickPrevious (filter (qualifies timeClass cutoff) games)) as [g|] eqn:Hp.
  - intros [= <-]. exists a, games. repeat split; auto. now left.
  - intros H. destruct (IH H) as (a0 & games0 & Hin & H1 & H2).
    exists a0, games0. repeat split; auto. now right.
Qed.

(** Archives without a qualifying game are passed over. *)
Lemma scanPrevious_skip (fetchMonth : string -> outcome (list GameItem))
    (timeClass : string) (cutoff : Z) (rest : list string) :
  forall newer,
  (forall b, In b newer -> exists gs, fetchMonth b = Ok gs /\
     filter (qualifies timeClass cutoff) gs = []) ->
  scanPrevious fetchMonth timeClass cutoff (newer ++ rest) =
  scanPrevious fetchMonth timeClass cutoff rest.
Proof.
  induction newer as [|b newer IH]; intros H; [reflexivity|].
  cbn [app scanPrevious].
  destruct (H b (or_introl eq_refl)) as (gs & Hf & Hq).
  rewrite Hf. cbn [bind]. rewrite Hq. cbn [pickPrevious fold_left].
  apply IH. intros b' Hb'. apply H. now right.
Qed.

Lemma getPreviousGameForUser_sound
    (fetchArchives : string -> outcome (list string))
    (fetchMonth : string -> outcome (list GameItem))
    (user timeClass : string) (cutoff : Z) (p : GameItem) :
  getPreviousGameForUser fetchArchives fetchMonth user timeClass cutoff = Ok (Some p) ->
  exists archives a games,
    fetchArchives (indexUrl (toLowerCase (trim user))) = Ok archives /\
    In a archives /\ fetchMonth a = Ok games /\
    pickPrevious (filter (qualifies timeClass cutoff) games) = Some p.
Proof.
  unfold getPreviousGameForUser. cbn [normalizeUsername].
  destruct (nonEmpty (toLowerCase (trim user))); [|discriminate].
  destruct (fetchArchives _) as [archives|] eqn:Ha; [|discriminate].
  cbn [bind]. intros H.
  apply scanPrevious_sound in H as (a & games & Hin & Hf & Hp).
  exists archives, a, games. repeat split; auto. now apply in_rev.
Qed.

Lemma getLastGameForUser_sound
    (fetchArchives : string -> outcome (list string))
    (fetchMonth : string -> outcome (list GameItem))
    (user : string) (timeClass : option string) (r : Resolved) :
  getLastGameForUser fetchArchives fetchMonth user timeClass = Ok (Some r) ->
  exists archives a games,
    fetchArchives (indexUrl (toLowerCase (trim user))) = Ok archives /\
    In a archives /\ fetchMonth a = Ok games /\
    pickLatest (candidatesOf timeClass games) = Some (game r).
Proof.
  unfold getLastGameForUser. cbn [normalizeUsername].
  destruct (nonEmpty (toLowerCase (trim user))); [|discriminate].
  destruct (fetchArchives _) as [archives|] eqn:Ha; [|discriminate].
  cbn [bind]. intros H.
  apply scanLast_sound in H as (a & games & Hin & Hf & Hp).
  exists archives, a, games. repeat split; auto. now apply in_rev.
Qed.

(** For a request in lower case the filter of the code is the
    case-insensitive one. *)
Lemma qualifies_wanted (timeClass : string) (cutoff : Z) (g : GameItem) :
  toLowerCase timeClass = timeClass ->
  qualifies timeClass cutoff g = wanted timeClass cutoff g.
Proof.
  intros Hlow. unfold qualifies, wanted, classMatches, sameCategory, endOf.
  now rewrite Hlow.
Qed.

Lemma sameCategory_iff (category : string) (g : GameItem) :
  sameCategory category g = true <->
  exists c, time_class g = Some c /\ sameUpToCase c category.
Proof.
  unfold sameCategory, sameUpToCase. destruct (time_class g) as [c|].
  - rewrite String.eqb_eq. split; [intros H; now exists c | now intros (c' & [= <-] & H)].
  - split; [discriminate | now intros (c' & H & _)].
Qed.

(** C3. The filter lower-cases the stored category and compares it with the
    request as given: a game qualifies if and only if its category in lower
    case is the requested string itself, which is equality up to letter case
    only for a request in lower case. [buildTemplateVars] hands the stored
    category of the game over as the request, without lower-casing it: for a
    game whose category is spelled "Blitz" no game qualifies, not even an
    earlier game with the very same category, and the rating change
    is lost; with the category spelled "blitz" it is "+10". *)
Theorem category_filter_request_case (timeClass : string) (g : GameItem) :
  (classMatches timeClass g = true <->
     exists c, time_class g = Some c /\ toLowerCase c = timeClass) /\
  (toLowerCase timeClass = timeClass ->
     (classMatches timeClass g = true <->
        exists c, time_class g = Some c /\ sameUpToCase c timeClass)) /\
  (forall games, nonEmpty timeClass = true ->
     (In g (candidatesOf (Some timeClass) games) <->
        In g games /\ classMatches timeClass g = true)) /\
  (forall games cutoff,
     (In g (filter (qualifies timeClass cutoff) games) <->
        In g games /\ classMatches timeClass g = true /\ endOf g < cutoff)) /\
  (let previous := matchGame "g1" 200 "Blitz" "someone" 1500 "opponent" 1400 in
   let current := matchGame "g2" 300 "Blitz" "someone" 1510 "opponent" 1400 in
   let vars := buildTemplateVars oneArchive (monthOf [previous; current]) fixedDate
                 current white_side (Some "someone") None None in
   time_class previous = time_class current /\
   sameCategory "Blitz" previous = true /\
   classMatches "Blitz" previous = false /\
   getPreviousGameForUser oneArchive (monthOf [previous; current]) "someone" "Blitz" 300
     = Ok None /\
   lookup "game_type" vars = Some "Blitz" /\
   lookup "rating_change" vars = Some "") /\
  (let previous := matchGame "g1" 200 "blitz" "someone" 1500 "opponent" 1400 in
   let current := matchGame "g2" 300 "blitz" "someone" 1510 "opponent" 1400 in
   let vars := buildTemplateVars oneArchive (monthOf [previous; current]) fixedDate
                 current white_side (Some "someone") None None in
   getPreviousGameForUser oneArchive (monthOf [previous; current]) "someone" "blitz" 300
     = Ok (Some previous) /\
   lookup "game_type" vars = Some "Blitz" /\
   lookup "rating_change" vars = Some "+10").
Proof.
  assert (Hq : forall games cutoff x,
             In x (filter (qualifies timeClass cutoff) games) <->
             In x games /\ classMatches timeClass x = true /\ endOf x < cutoff).
  { intros games cutoff x. rewrite filter_In. unfold qualifies, endOf.
    rewrite andb_true_iff, Z.ltb_lt. tauto. }
  refine (conj (classMatches_iff _ _) (conj _ (conj _ (conj _ (conj _ _))))).
  - intros Hlow. rewrite classMatches_iff. unfold sameUpToCase. rewrite Hlow.
    tauto.
  - intros games Hne. cbn [candidatesOf]. rewrite Hne. apply filter_In.
  - intros games cutoff. apply Hq.
  - repeat split; vm_compute; reflexivity.
  - repeat split; vm_compute; reflexivity.
Qed.

(** *** The previous game *)

(** C4. For a request in lower case [getPreviousGameForUser] considers the
    games whose category is the requested one up to letter case and that end
    strictly before the cutoff (an absent end time read as 0): when the
    archives newer than [a] hold no such game and [a] holds one, the result
    is taken from [a], and it is the first such game, in list order, that
    attains the greatest end time among them; games of other categories are
    passed over. A request that holds a capital letter finds no game at all:
    of the games ending at 100, 200 and 300, all of the category "Blitz",
    the request for "Blitz" with the cutoff 250 returns none, where the
    request for "blitz" returns the game ending at 200. *)
Theorem getPreviousGameForUser_category_case
    (fetchArchives : string -> outcome (list string))
    (fetchMonth : string -> outcome (list GameItem))
    (user timeClass : string) (cutoff : Z)
    (older newer : list string) (a : string) (games : list GameItem) :
  nonEmpty (toLowerCase (trim user)) = true ->
  toLowerCase timeClass = timeClass ->
  fetchArchives (indexUrl (toLowerCase (trim user))) = Ok (older ++ a :: newer)%list ->
  (forall b, In b newer -> exists gs, fetchMonth b = Ok gs /\
     filter (wanted timeClass cutoff) gs = []) ->
  fetchMonth a = Ok games ->
  filter (wanted timeClass cutoff) games <> [] ->
  (exists l1 g l2,
     getPreviousGameForUser fetchArchives fetchMonth user timeClass cutoff = Ok (Some g) /\
     filter (wanted timeClass cutoff) games = (l1 ++ g :: l2)%list /\
     (forall h, In h l1 -> endOf h < endOf g) /\
     (forall h, In h l2 -> endOf h <= endOf g) /\
     In g games /\
     (exists c, time_class g = Some c /\ sameUpToCase c timeClass) /\
     endOf g < cutoff) /\
  (forall fa fm who request p,
     getPreviousGameForUser fa fm who request cutoff = Ok (Some p) ->
     (exists c, time_class p = Some c /\ toLowerCase c = request) /\
     endOf p < cutoff) /\
  getPreviousGameForUser exampleArchives exampleMonth "someone" "blitz" 250
    = Ok (Some (gameAt "g200" 200 "blitz")) /\
  getPreviousGameForUser oneArchive (monthOf mixedGames) "someone" "blitz" 250
    = Ok (Some (gameAt "g200" 200 "Blitz")) /\
  getPreviousGameForUser oneArchive (monthOf mixedGames) "someone" "rapid" 250
    = Ok (Some (gameAt "r240" 240 "rapid")) /\
  getPreviousGameForUser oneArchive (monthOf capitalGames) "someone" "blitz" 250
    = Ok (Some (gameAt "g200" 200 "Blitz")) /\
  getPreviousGameForUser oneArchive (monthOf capitalGames) "someone" "Blitz" 250
    = Ok None.
Proof.
  intros Hu Hlow Ha Hnewer Hf Hq.
  assert (Hsame : forall gs,
            filter (qualifies timeClass cutoff) gs = filter (wanted timeClass cutoff) gs).
  { intros gs. apply filter_ext. intros x. now apply qualifies_wanted. }
  refine (conj _ (conj _ (conj eq_refl (conj eq_refl (conj eq_refl (conj eq_refl eq_refl)))))).
  - destruct (stableRunningMax_char _ Hq) as (l1 & g & l2 & E & Hs & H1 & H2).
    exists l1, g, l2.
    assert (Hin : In g (filter (wanted timeClass cutoff) games))
      by (rewrite E; apply in_or_app; right; now left).
    apply filter_In in Hin as [Hin Hqual]. unfold wanted in Hqual.
    apply andb_true_iff in Hqual as [Hc Hlt]. apply Z.ltb_lt in Hlt.
    apply sameCategory_iff in Hc.
    refine (conj _ (conj E (conj H1 (conj H2 (conj Hin (conj Hc Hlt)))))).
    unfold getPreviousGameForUser. cbn [normalizeUsername]. rewrite Hu, Ha.
    cbn [bind]. rewrite rev_app_distr. cbn [rev]. rewrite <- app_assoc.
    rewrite scanPrevious_skip.
    + cbn [app scanPrevious]. rewrite Hf. cbn [bind].
      now rewrite Hsame, pickPrevious_stable, Hs.
    + intros b Hb. destruct (Hnewer b) as (gs & Hgs & Hnone); [now apply in_rev|].
      exists gs. split; [assumption|]. now rewrite Hsame.
  - intros fa fm who request p H.
    apply getPreviousGameForUser_sound in H as (archives & a0 & games0 & _ & _ & _ & Hp).
    apply pickPrevious_In in Hp. apply filter_In in Hp as [_ Hp].
    unfold qualifies in Hp. apply andb_true_iff in Hp as [Hc Hlt].
    apply Z.ltb_lt in Hlt. apply classMatches_iff in Hc. now split.
Qed.

Lemma getPreviousGameForUser_category_case_witness :
  exists l1 g l2,
    getPreviousGameForUser oneArchive (monthOf mixedGames) "someone" "blitz" 250
      = Ok (Some g) /\
    filter (wanted "blitz" 250) mixedGames = (l1 ++ g :: l2)%list /\
    (forall h, In h l1 -> endOf h < endOf g) /\
    (forall h, In h l2 -> endOf h <= endOf g) /\
    In g mixedGames /\
    (exists c, time_class g = Some c /\ sameUpToCase c "blitz") /\
    endOf g < 250.
Proof.
  refine (proj1 (getPreviousGameForUser_category_case oneArchive (monthOf mixedGames)
    "someone" "blitz" 250 [] [] "2024/01" mixedGames _ _ _ _ _ _)).
  - reflexivity.
  - reflexivity.
  - reflexivity.
  - intros b [].
  - reflexivity.
  - vm_compute. discriminate.
Defined.

(** *** Winner and loser *)







(** *** Rating change *)

(** C5. [rating_change] is computed only for a game with an end time, a
    category and a non-empty focus name: otherwise it is empty whatever the
    archives hold. When the previous game is found and both ratings are
    present it is the difference, the rating of the focus in the current
    game minus the rating of the side of the previous game that bears the
    name of the focus (white when white's normalised name is that of the
    focus, black otherwise), with a leading plus sign when positive and as
    the signed numeral otherwise. A request that throws, no previous game or
    a missing rating leave it empty, and the renderer then writes "N/A". For
    the ratings 1500 and 1488 it is "+12", reversed "-12", equal "0". *)
Theorem buildTemplateVars_rating_change
    (fetchArchives : string -> outcome (list string))
    (fetchMonth : string -> outcome (list GameItem))
    (localDate : Z -> JsDate)
    (g : GameItem) (me : Color) (lookupUsername dateFormat timeFormat : option string) :
  let vars := buildTemplateVars fetchArchives fetchMonth localDate g me
                lookupUsername dateFormat timeFormat in
  let rc := ratingChange fetchArchives fetchMonth g me lookupUsername in
  let timeClass := orEmpty (time_class g) in
  let lookupName := lookupNameOf g me lookupUsername in
  let focus := playerOn g (lookupSideOf g me lookupUsername) in
  let previous :=
    getPreviousGameForUser fetchArchives fetchMonth lookupName timeClass
      (orZero (end_time g)) in
  let bearsName (p : option PlayerRef) :=
    normalizeUsername (username (orNoPlayer p)) = Some (toLowerCase (trim lookupName)) in
  lookup "rating_change" vars = Some rc /\
  (truthy (end_time g) = false \/ timeClass = "" \/ lookupName = "" -> rc = "") /\
  (forall prev a b,
     truthy (end_time g) = true -> timeClass <> "" -> lookupName <> "" ->
     previous = Ok (Some prev) ->
     rating focus = Some a ->
     (bearsName (white prev) /\ rating (orNoPlayer (white prev)) = Some b) \/
     (~ bearsName (white prev) /\ rating (orNoPlayer (black prev)) = Some b) ->
     (0 < a - b -> rc = "+" ++ toString (a - b)) /\
     (a - b <= 0 -> rc = toString (a - b)) /\
     rc <> "") /\
  (previous = Throw -> rc = "") /\
  (previous = Ok None -> rc = "") /\
  (forall prev, previous = Ok (Some prev) ->
     rating focus = None \/
     (bearsName (white prev) /\ rating (orNoPlayer (white prev)) = None) \/
     (~ bearsName (white prev) /\ rating (orNoPlayer (black prev)) = None) ->
     rc = "") /\
  (rc = "" -> renderTemplate (Some "{{rating_change}}") (asVars vars) = "N/A") /\
  (let change (current : GameItem) (earlier : list GameItem) :=
     lookup "rating_change"
       (buildTemplateVars oneArchive (monthOf (earlier ++ [current])) fixedDate
          current white_side (Some "someone") None None) in
   change (matchGame "g2" 300 "blitz" "someone" 1500 "opponent" 1400)
          [matchGame "g1" 200 "blitz" "opponent" 1450 "Someone" 1488] = Some "+12" /\
   change (matchGame "g2" 300 "blitz" "someone" 1488 "opponent" 1400)
          [matchGame "g1" 200 "blitz" "opponent" 1450 "Someone" 1500] = Some "-12" /\
   change (matchGame "g2" 300 "blitz" "someone" 1500 "opponent" 1400)
          [matchGame "g1" 200 "blitz" "someone" 1500 "opponent" 1450] = Some "0" /\
   change (matchGame "g2" 300 "blitz" "someone" 1500 "opponent" 1400)
          [matchGame "g0" 100 "blitz" "someone" 1400 "opponent" 1450;
           matchGame "r1" 250 "rapid" "someone" 1700 "opponent" 1450;
           matchGame "g1" 200 "blitz" "someone" 1495 "opponent" 1450] = Some "+5" /\
   change (matchGame "g2" 300 "blitz" "someone" 1500 "opponent" 1400) [] = Some "" /\
   change (matchGame "g2" 0 "blitz" "someone" 1500 "opponent" 1400)
          [matchGame "g1" (-5) "blitz" "someone" 1488 "opponent" 1450] = Some "" /\
   lookup "rating_change"
     (buildTemplateVars failing failing fixedDate
        (matchGame "g2" 300 "blitz" "someone" 1500 "opponent" 1400)
        white_side (Some "someone") None None) = Some "" /\
   renderTemplate (Some "{{rating_change}}")
     (asVars (buildTemplateVars failing failing fixedDate
        (matchGame "g2" 300 "blitz" "someone" 1500 "opponent" 1400)
        white_side (Some "someone") None None)) = "N/A").
Proof.
  intros vars rc timeClass lookupName focus previous bearsName.
  set (computed := truthy (end_time g) && nonEmpty timeClass && nonEmpty lookupName).
  assert (Hrc : rc = catchWith ""
            (if computed then
               prev <- previous ;;
               match prev with
               | Some p =>
                   match rating focus,
                         rating (prevLookupOf p (normalizeUsername (Some lookupName))) with
                   | Some a, Some b => Ok (signedDelta (a - b))
                   | _, _ => Ok ""
                   end
               | None => Ok ""
               end
             else Ok "")) by reflexivity.
  assert (Hside : forall prev r,
            (bearsName (white prev) /\ rating (orNoPlayer (white prev)) = r) \/
            (~ bearsName (white prev) /\ rating (orNoPlayer (black prev)) = r) ->
            rating (prevLookupOf prev (normalizeUsername (Some lookupName))) = r).
  { intros prev r H. unfold prevLookupOf, bearsName in *. cbn [normalizeUsername] in *.
    destruct (normalizeUsername (username (orNoPlayer (white prev)))) as [w|] eqn:Ew;
      cbn [sameOpt].
    - destruct (String.eqb_spec w (toLowerCase (trim lookupName))) as [->|Hne].
      + destruct H as [[_ H]|[H _]]; [assumption | now elim H].
      + destruct H as [[H _]|[_ H]]; [congruence | assumption].
    - destruct H as [[H _]|[_ H]]; [discriminate | assumption]. }
  refine (conj eq_refl (conj _ (conj _ (conj _ (conj _ (conj _ (conj _ _))))))).
  - intros H. rewrite Hrc.
    replace computed with false; [reflexivity|]. unfold computed.
    destruct H as [-> | [-> | ->]]; [reflexivity | |].
    + cbn [nonEmpty]. now rewrite andb_false_r.
    + cbn [nonEmpty]. now rewrite andb_false_r.
  - intros prev a b He Htc Hname Hp Ha Hb.
    assert (Hc : computed = true).
    { unfold computed. now rewrite He, (nonEmpty_true _ Htc), (nonEmpty_true _ Hname). }
    rewrite Hrc, Hc, Hp. cbn [bind catchWith].
    rewrite Ha, (Hside prev (Some b) Hb). cbn [catchWith]. unfold signedDelta.
    refine (conj _ (conj _ _)).
    + intros Hpos. now replace (a - b >? 0) with true
        by (symmetry; rewrite Z.gtb_ltb; apply Z.ltb_lt; lia).
    + intros Hle. now replace (a - b >? 0) with false
        by (symmetry; rewrite Z.gtb_ltb; apply Z.ltb_ge; lia).
    + destruct (a - b >? 0); [discriminate | apply toString_nonempty].
  - intros Hp. rewrite Hrc, Hp. now destruct computed.
  - intros Hp. rewrite Hrc, Hp. now destruct computed.
  - intros prev Hp Hr. rewrite Hrc, Hp. destruct computed; [|reflexivity].
    cbn [bind]. destruct Hr as [-> | Hr]; [reflexivity|].
    rewrite (Hside prev None Hr). now destruct (rating focus).
  - intros Hempty. unfold vars, buildTemplateVars. fold rc. rewrite Hempty.
    vm_compute. reflexivity.
  - repeat split; vm_compute; reflexivity.
Qed.

(** *** Rendering *)

Lemma getSubstitution_dollarFree (matched before after v : string) :
  dollarFree v = true -> getSubstitution matched before after v = v.
Proof.
  unfold dollarFree. induction v as [|c v IH]; intros H; [reflexivity|].
  cbn [allChars] in H. apply andb_true_iff in H as [Hc H].
  apply negb_true_iff in Hc. cbn [getSubstitution]. rewrite Hc.
  f_equal. now apply IH.
Qed.

(** For a value without a dollar sign the scan of the code inserts the
    value as it stands. *)
Lemma replaceScan_literal (k v : string) (s : string) :
  dollarFree v = true ->
  forall before skip, replaceScan k v before skip s = replaceLiteral k v skip s.
Proof.
  intros Hv. induction s as [|c s IH]; intros before skip; [reflexivity|].
  cbn [replaceScan replaceLiteral]. destruct skip as [|n]; [|apply IH].
  destruct (matchHandlebar k (String c s)) as [len|].
  - rewrite getSubstitution_dollarFree by assumption. now rewrite IH.
  - now rewrite IH.
Qed.

(** The renderer of the code agrees with the reading of the documentation on
    every template when no value holds a dollar sign. *)
Lemma renderTemplate_refines_literal (tpl : option string)
    (vars : list (string * option string)) :
  Forall (fun kv => dollarFree (normalizeValue (snd kv)) = true) vars ->
  renderTemplate tpl vars = renderLiteral tpl vars.
Proof.
  intros Hv. unfold renderTemplate, renderLiteral, blankLegacy, substituteVars.
  f_equal.
  assert (Hleg : forall keys o,
            fold_left (fun o key => replaceHandlebars key "N/A" o) keys o =
            fold_left (fun o key => replaceLiteral key "N/A" 0 o) keys o).
  { induction keys as [|key keys IH]; intros o; [reflexivity|].
    cbn [fold_left]. unfold replaceHandlebars at 2.
    rewrite replaceScan_literal by reflexivity. apply IH. }
  rewrite Hleg. f_equal.
  generalize (orEmpty tpl). induction Hv as [|[k v] vars Hk Hv IH]; intros o;
    [reflexivity|].
  cbn [normalizeVarsToNA map fold_left fst snd] in *.
  unfold replaceHandlebars at 2. rewrite replaceScan_literal by exact Hk.
  apply IH.
Qed.


(** C6 on a value that holds a replacement pattern. The value is passed to
    [replace] as a string, so [$&] stands for the matched text and [$$] for
    one dollar sign: the handlebar is not replaced by the value. Such a
    value arises from a date format that holds the pattern. The formatter
    passes a function to [replace] and copies the pattern verbatim. *)
Theorem renderTemplate_replacement_pattern
    (fetchArchives : string -> outcome (list string))
    (fetchMonth : string -> outcome (list GameItem)) :
  let g := gameAt "g" 1704449229 "blitz" in
  let vars := buildTemplateVars fetchArchives fetchMonth fixedDate g white_side
                (Some "someone") (Some "yyyy $&") (Some "hh:mm") in
  lookup "end_date" vars = Some "2024 $&" /\
  renderTemplate (Some "{{end_date}}") (asVars vars) = "2024 {{end_date}}" /\
  renderLiteral (Some "{{end_date}}") (asVars vars) = "2024 $&" /\
  renderTemplate (Some "{{rules}}") [("rules", Some "$&")] = "{{rules}}" /\
  renderTemplate (Some "{{url}}") [("url", Some "a$$b")] = "a$b".
Proof.
  intros g vars. repeat split; reflexivity.
Qed.

(** **** Characters and prefixes *)

Lemma keyChar_facts (c : ascii) :
  isKeyChar c = true ->
  isSpace c = false /\ (c =? "{")%char = false /\ (c =? "}")%char = false.
Proof. each_char c. Qed.

Lemma space_facts (c : ascii) :
  isSpace c = true -> (c =? "{")%char = false /\ (c =? "}")%char = false.
Proof. each_char c. Qed.

Lemma allChars_app (p : ascii -> bool) (a b : string) :
  allChars p (a ++ b) = allChars p a && allChars p b.
Proof.
  induction a as [|c a IH]; [reflexivity|].
  cbn [String.append allChars]. now rewrite IH, andb_assoc.
Qed.

Lemma allChars_impl (p q : ascii -> bool) (s : string) :
  (forall c, p c = true -> q c = true) ->
  allChars p s = true -> allChars q s = true.
Proof.
  intros Hpq. induction s as [|c s IH]; [reflexivity|].
  cbn [allChars]. rewrite !andb_true_iff. intros [Hc Hs]. auto.
Qed.

Lemma plainKey_inv (k : string) :
  plainKey k = true ->
  allChars isKeyChar k = true /\ exists c k', k = String c k' /\ isKeyChar c = true.
Proof.
  unfold plainKey. rewrite andb_true_iff. intros [Hne Hall]. split; [exact Hall|].
  destruct k as [|c k']; [discriminate|].
  exists c, k'. split; [reflexivity|].
  cbn [allChars] in Hall. now apply andb_true_iff in Hall as [Hc _].
Qed.

Lemma plainKey_openFree (k : string) : plainKey k = true -> openFree k = true.
Proof.
  intros H. apply plainKey_inv in H as [H _]. revert H. apply allChars_impl.
  intros c Hc. apply keyChar_facts in Hc as (_ & Hc & _). now rewrite Hc.
Qed.

Lemma spaces_openFree (w : string) : spaces w = true -> openFree w = true.
Proof.
  apply allChars_impl. intros c Hc.
  apply space_facts in Hc as [Hc _]. now rewrite Hc.
Qed.

Lemma braceFree_openFree (s : string) : braceFree s = true -> openFree s = true.
Proof.
  apply allChars_impl. intros c Hc. unfold isBrace in Hc.
  apply negb_true_iff, orb_false_iff in Hc as [Hc _]. now rewrite Hc.
Qed.

Lemma braceFree_closeFree (s : string) : braceFree s = true -> closeFree s = true.
Proof.
  apply allChars_impl. intros c Hc. unfold isBrace in Hc.
  apply negb_true_iff, orb_false_iff in Hc as [_ Hc]. now rewrite Hc.
Qed.

Lemma startsWith_app (t r : string) : startsWith t (t ++ r) = true.
Proof.
  induction t as [|c t IH]; [reflexivity|].
  cbn [String.append startsWith]. now rewrite Ascii.eqb_refl.
Qed.

Lemma dropStr_app (t r : string) : dropStr (String.length t) (t ++ r) = r.
Proof. induction t as [|c t IH]; [reflexivity | exact IH]. Qed.

Lemma countSpaces_app (w r : string) :
  spaces w = true -> countSpaces r = 0%nat ->
  countSpaces (w ++ r) = String.length w.
Proof.
  unfold spaces. induction w as [|c w IH]; intros Hw Hr; [exact Hr|].
  cbn [allChars] in Hw. apply andb_true_iff in Hw as [Hc Hw].
  cbn [String.append countSpaces String.length]. rewrite Hc. f_equal. now apply IH.
Qed.

Lemma countSpaces_key (k r : string) :
  plainKey k = true -> countSpaces (k ++ r) = 0%nat.
Proof.
  intros H. apply plainKey_inv in H as (_ & c & k' & -> & Hc).
  apply keyChar_facts in Hc as (Hc & _). cbn [String.append countSpaces].
  now rewrite Hc.
Qed.

(** **** The match of a handlebar *)

Lemma handlebar_app (w1 k w2 post : string) :
  handlebar w1 k w2 ++ post = "{{" ++ (w1 ++ (k ++ (w2 ++ ("}}" ++ post)))).
Proof.
  unfold handlebar. cbn [String.append]. do 2 f_equal.
  now rewrite (append_assoc w1), (append_assoc k), (append_assoc w2).
Qed.

Lemma handlebar_length (w1 k w2 : string) :
  String.length (handlebar w1 k w2) =
  (2 + String.length w1 + String.length k + String.length w2 + 2)%nat.
Proof.
  unfold handlebar. cbn [String.append String.length].
  rewrite !length_append. cbn [String.length]. lia.
Qed.

(** A handlebar for a key is matched as a whole, whatever follows it. *)
Lemma matchHandlebar_handlebar (w1 k w2 post : string) :
  plainKey k = true -> spaces w1 = true -> spaces w2 = true ->
  matchHandlebar k (handlebar w1 k w2 ++ post) =
  Some (String.length (handlebar w1 k w2)).
Proof.
  intros Hk H1 H2. rewrite handlebar_app, handlebar_length.
  unfold matchHandlebar.
  rewrite (startsWith_app "{{"). rewrite (dropStr_app "{{").
  rewrite (countSpaces_app w1) by (auto using countSpaces_key).
  rewrite dropStr_app, startsWith_app, dropStr_app.
  rewrite (countSpaces_app w2) by auto.
  now rewrite dropStr_app, (startsWith_app "}}").
Qed.

Lemma matchHandlebar_not_open (k : string) (c : ascii) (s : string) :
  (c =? "{")%char = false -> matchHandlebar k (String c s) = None.
Proof.
  intros Hc. unfold matchHandlebar. cbn [startsWith].
  now rewrite (Ascii.eqb_sym "{" c), Hc.
Qed.

Lemma matchHandlebar_single_open (k s : string) :
  openFree s = true -> matchHandlebar k (String "{" s) = None.
Proof.
  intros Hs. unfold matchHandlebar. cbn [startsWith].
  destruct s as [|c s]; [reflexivity|].
  unfold openFree in Hs. cbn [allChars] in Hs.
  apply andb_true_iff in Hs as [Hc _]. apply negb_true_iff in Hc.
  now rewrite (Ascii.eqb_sym "{" c), Hc.
Qed.

Lemma hasHandlebar_openFree (k s : string) :
  openFree s = true -> hasHandlebar k s = false.
Proof.
  unfold openFree. induction s as [|c s IH]; intros H; [reflexivity|].
  cbn [allChars] in H. apply andb_true_iff in H as [Hc H].
  apply negb_true_iff in Hc. cbn [hasHandlebar].
  rewrite matchHandlebar_not_open by exact Hc. now apply IH.
Qed.

Lemma hasHandlebar_app_openFree (k pre s : string) :
  openFree pre = true -> hasHandlebar k (pre ++ s) = hasHandlebar k s.
Proof.
  unfold openFree. induction pre as [|c pre IH]; intros H; [reflexivity|].
  cbn [allChars] in H. apply andb_true_iff in H as [Hc H].
  apply negb_true_iff in Hc. cbn [String.append hasHandlebar].
  rewrite matchHandlebar_not_open by exact Hc. now apply IH.
Qed.

(** **** One pass *)

(** A pass over a text without a handlebar for its key changes nothing,
    whatever the value. *)
Lemma replaceScan_no_handlebar (k v s : string) : forall before,
  hasHandlebar k s = false -> replaceScan k v before 0 s = s.
Proof.
  induction s as [|c s IH]; intros before H; [reflexivity|].
  cbn [hasHandlebar] in H. cbn [replaceScan].
  destruct (matchHandlebar k (String c s)); [discriminate|].
  f_equal. now apply IH.
Qed.

Lemma replaceLiteral_skip (k v t s : string) :
  replaceLiteral k v (String.length t) (t ++ s) = replaceLiteral k v 0 s.
Proof. induction t as [|c t IH]; [reflexivity | exact IH]. Qed.

Lemma replaceLiteral_openFree (k v pre s : string) :
  openFree pre = true ->
  replaceLiteral k v 0 (pre ++ s) = pre ++ replaceLiteral k v 0 s.
Proof.
  unfold openFree. induction pre as [|c pre IH]; intros H; [reflexivity|].
  cbn [allChars] in H. apply andb_true_iff in H as [Hc H].
  apply negb_true_iff in Hc. cbn [String.append replaceLiteral].
  rewrite matchHandlebar_not_open by exact Hc. f_equal. now apply IH.
Qed.

(** The pass for [k] over one handlebar for [k] in text without an opening
    brace puts the value in its place. *)
Lemma replaceHandlebars_single (k v w1 w2 pre post : string) :
  plainKey k = true -> spaces w1 = true -> spaces w2 = true ->
  openFree pre = true -> openFree post = true -> dollarFree v = true ->
  replaceHandlebars k v (pre ++ handlebar w1 k w2 ++ post) = pre ++ v ++ post.
Proof.
  intros Hk H1 H2 Hpre Hpost Hv. unfold replaceHandlebars.
  rewrite replaceScan_literal by exact Hv.
  rewrite replaceLiteral_openFree by exact Hpre. f_equal.
  pose proof (matchHandlebar_handlebar w1 k w2 post Hk H1 H2) as Hm.
  remember (handlebar w1 k w2) as T eqn:ET.
  destruct T as [|c T]; [unfold handlebar in ET; discriminate|].
  change (String c T ++ post) with (String c (T ++ post)) in *.
  cbn [replaceLiteral]. rewrite Hm. f_equal.
  replace (String.length (String c T) - 1)%nat with (String.length T)
    by (cbn [String.length]; lia).
  rewrite replaceLiteral_skip.
  rewrite <- (append_nil_r post) at 1.
  rewrite replaceLiteral_openFree by exact Hpost.
  now rewrite append_nil_r.
Qed.

(** **** Handlebars for other keys *)

Lemma space_not_keyChar (c : ascii) : isSpace c = true -> isKeyChar c = false.
Proof. each_char c. Qed.

(** A key that matches at the head of [k ++ r], where [r] does not go on
    with a key character, is a prefix of [k]. *)
Lemma startsWith_key_prefix (k' : string) : forall k r,
  allChars isKeyChar k' = true ->
  startsWith k' (k ++ r) = true ->
  match r with String c _ => isKeyChar c = false | EmptyString => True end ->
  exists k2, k = k' ++ k2.
Proof.
  induction k' as [|c k' IH]; intros k r Hk' Hs Hr; [now exists k|].
  cbn [allChars] in Hk'. apply andb_true_iff in Hk' as [Hc Hk'].
  destruct k as [|d k].
  - cbn [String.append startsWith] in Hs. destruct r as [|e r]; [discriminate|].
    apply andb_true_iff in Hs as [He _]. apply Ascii.eqb_eq in He as <-. congruence.
  - cbn [String.append startsWith] in Hs.
    apply andb_true_iff in Hs as [Hd Hs]. apply Ascii.eqb_eq in Hd as <-.
    destruct (IH k r Hk' Hs Hr) as [k2 ->]. now exists k2.
Qed.

(** A handlebar for [k] is no handlebar for another key. *)
Lemma matchHandlebar_other_key (k k' w1 w2 post : string) :
  plainKey k = true -> plainKey k' = true -> k <> k' ->
  spaces w1 = true -> spaces w2 = true ->
  matchHandlebar k' (handlebar w1 k w2 ++ post) = None.
Proof.
  intros Hk Hk' Hne H1 H2. rewrite handlebar_app. unfold matchHandlebar.
  rewrite (startsWith_app "{{"), (dropStr_app "{{").
  rewrite (countSpaces_app w1) by (auto using countSpaces_key).
  rewrite dropStr_app.
  destruct (startsWith k' (k ++ w2 ++ "}}" ++ post)) eqn:Es; [|reflexivity].
  apply plainKey_inv in Hk' as [Hall' _].
  apply startsWith_key_prefix in Es as [k2 Ek]; [|exact Hall'|].
  - subst k. rewrite append_assoc, dropStr_app.
    destruct k2 as [|c k2]; [now rewrite append_nil_r in Hne|].
    apply plainKey_inv in Hk as [Hall _]. rewrite allChars_app in Hall.
    apply andb_true_iff in Hall as [_ Hall]. cbn [allChars] in Hall.
    apply andb_true_iff in Hall as [Hc _].
    apply keyChar_facts in Hc as (Hsp & _ & Hcl).
    cbn [String.append countSpaces]. rewrite Hsp. cbn [dropStr startsWith].
    now rewrite (Ascii.eqb_sym "}" c), Hcl.
  - destruct w2 as [|c w2]; [reflexivity|].
    unfold spaces in H2. cbn [allChars] in H2.
    apply andb_true_iff in H2 as [Hc _]. now apply space_not_keyChar.
Qed.

Lemma hasHandlebar_other_key (k k' w1 w2 pre post : string) :
  plainKey k = true -> plainKey k' = true -> k <> k' ->
  spaces w1 = true -> spaces w2 = true ->
  openFree pre = true -> openFree post = true ->
  hasHandlebar k' (pre ++ handlebar w1 k w2 ++ post) = false.
Proof.
  intros Hk Hk' Hne H1 H2 Hpre Hpost.
  rewrite hasHandlebar_app_openFree by exact Hpre.
  pose proof (matchHandlebar_other_key k k' w1 w2 post Hk Hk' Hne H1 H2) as Hm.
  rewrite handlebar_app in *.
  change ("{{" ++ w1 ++ k ++ w2 ++ "}}" ++ post)
    with (String "{" (String "{" (w1 ++ k ++ w2 ++ "}}" ++ post))) in *.
  assert (Hrest : openFree (w1 ++ k ++ w2 ++ "}}" ++ post) = true).
  { unfold openFree. rewrite !allChars_app.
    fold (openFree w1) (openFree k) (openFree w2) (openFree post).
    rewrite (spaces_openFree w1 H1), (plainKey_openFree k Hk),
      (spaces_openFree w2 H2), Hpost. reflexivity. }
  cbn [hasHandlebar]. rewrite Hm.
  rewrite matchHandlebar_single_open by exact Hrest.
  now apply hasHandlebar_openFree.
Qed.

(** **** A match only reads the handlebar *)

Lemma spaces_split (r : string) :
  exists w, r = w ++ dropStr (countSpaces r) r /\ spaces w = true /\
    String.length w = countSpaces r.
Proof.
  induction r as [|c r IH]; [now exists ""|].
  cbn [countSpaces]. destruct (isSpace c) eqn:Hc; [|now exists ""].
  destruct IH as (w & E & Hw & Hl). exists (String c w).
  cbn [dropStr String.append String.length]. unfold spaces in *. cbn [allChars].
  rewrite Hc, Hw, Hl. repeat split. now f_equal.
Qed.

(** What is matched is a handlebar at the head of the text. *)
Lemma matchHandlebar_inv (k s : string) (n : nat) :
  matchHandlebar k s = Some n ->
  exists w1 w2 rest, s = handlebar w1 k w2 ++ rest /\
    spaces w1 = true /\ spaces w2 = true /\
    n = String.length (handlebar w1 k w2).
Proof.
  unfold matchHandlebar.
  destruct (startsWith "{{" s) eqn:E0; [|discriminate].
  apply prefix_drop in E0. change (String.length "{{") with 2%nat in E0.
  destruct (spaces_split (dropStr 2 s)) as (w1 & E1 & Hw1 & Hl1).
  destruct (startsWith k _) eqn:E2; [|discriminate].
  apply prefix_drop in E2.
  destruct (spaces_split (dropStr (String.length k)
              (dropStr (countSpaces (dropStr 2 s)) (dropStr 2 s))))
    as (w2 & E3 & Hw2 & Hl2).
  destruct (startsWith "}}" _) eqn:E4; [|discriminate].
  apply prefix_drop in E4. change (String.length "}}") with 2%nat in E4.
  intros [= <-].
  exists w1, w2. eexists. rewrite handlebar_app, handlebar_length.
  refine (conj _ (conj Hw1 (conj Hw2 _))); [|rewrite Hl1, Hl2; reflexivity].
  rewrite E0 at 1. f_equal.
  rewrite E1 at 1. f_equal.
  rewrite E2 at 1. f_equal.
  rewrite E3 at 1. f_equal.
  exact E4.
Qed.

Lemma closeFree_get (b : string) : forall j c,
  closeFree b = true -> String.get j b = Some c -> (c =? "}")%char = false.
Proof.
  unfold closeFree. induction b as [|d b IH]; intros j c H Hg; [discriminate|].
  cbn [allChars] in H. apply andb_true_iff in H as [Hd H].
  destruct j as [|j]; cbn [String.get] in Hg.
  - injection Hg as <-. now apply negb_true_iff.
  - now apply (IH j).
Qed.

Lemma prefix_of_app (t : string) : forall a b rest,
  a ++ b = t ++ rest -> (String.length t <= String.length a)%nat ->
  a = t ++ dropStr (String.length t) a.
Proof.
  induction t as [|c t IH]; intros a b rest E Hl; [reflexivity|].
  destruct a as [|d a]; [cbn [String.length] in Hl; lia|].
  cbn [String.append] in E. injection E as -> E.
  cbn [String.length dropStr String.append] in *. f_equal.
  apply (IH a b rest E). lia.
Qed.

(** A handlebar ends with a closing brace. *)
Lemma handlebar_last (w1 k w2 : string) :
  String.get (String.length (handlebar w1 k w2) - 1) (handlebar w1 k w2) = Some "}"%char.
Proof.
  assert (E : handlebar w1 k w2 = ("{{" ++ w1 ++ k ++ w2) ++ "}}").
  { unfold handlebar. cbn [String.append]. do 2 f_equal.
    now rewrite (append_assoc w1), (append_assoc k). }
  rewrite E, length_append. cbn [String.length].
  replace (String.length ("{{" ++ w1 ++ k ++ w2) + 2 - 1)%nat
    with (1 + String.length ("{{" ++ w1 ++ k ++ w2))%nat by lia.
  now rewrite <- append_correct2.
Qed.

(** A match in front of text without a closing brace lies before that
    text. *)
Lemma matchHandlebar_local (k a b : string) (n : nat) :
  plainKey k = true -> closeFree b = true ->
  matchHandlebar k (a ++ b) = Some n -> matchHandlebar k a = Some n.
Proof.
  intros Hk Hb Hm.
  apply matchHandlebar_inv in Hm as (w1 & w2 & rest & E & H1 & H2 & ->).
  set (T := handlebar w1 k w2) in *.
  assert (HT : (0 < String.length T)%nat)
    by (unfold T; rewrite handlebar_length; lia).
  assert (Hlen : (String.length T <= String.length a)%nat).
  { destruct (Nat.le_gt_cases (String.length T) (String.length a)) as [H|H];
      [exact H | exfalso].
    pose proof (handlebar_last w1 k w2) as Hlast. fold T in Hlast.
    rewrite (append_correct1 T rest) in Hlast by lia.
    rewrite <- E in Hlast.
    replace (String.length T - 1)%nat
      with ((String.length T - 1 - String.length a) + String.length a)%nat
      in Hlast by lia.
    rewrite <- append_correct2 in Hlast.
    now apply (closeFree_get b _ _ Hb) in Hlast. }
  rewrite (prefix_of_app T a b rest E Hlen).
  now apply matchHandlebar_handlebar.
Qed.

(** A value without a handlebar for [k] has none either when text without
    braces follows it. *)
Lemma hasHandlebar_app_braceFree (k v post : string) :
  plainKey k = true -> braceFree post = true ->
  hasHandlebar k v = false -> hasHandlebar k (v ++ post) = false.
Proof.
  intros Hk Hpost. induction v as [|c v IH]; intros Hv.
  - apply hasHandlebar_openFree. now apply braceFree_openFree.
  - cbn [hasHandlebar] in Hv.
    destruct (matchHandlebar k (String c v)) eqn:Hm; [discriminate|].
    change (String c v ++ post) with (String c (v ++ post)). cbn [hasHandlebar].
    destruct (matchHandlebar k (String c (v ++ post))) as [n|] eqn:Hm'.
    + change (String c (v ++ post)) with (String c v ++ post) in Hm'.
      apply matchHandlebar_local in Hm';
        [congruence | exact Hk | now apply braceFree_closeFree].
    + now apply IH.
Qed.

(** **** The sequence of passes *)

Lemma substituteVars_app (p1 p2 : list (string * string)) (s : string) :
  substituteVars (p1 ++ p2) s = substituteVars p2 (substituteVars p1 s).
Proof. apply fold_left_app. Qed.

Lemma blankLegacy_as_passes (s : string) :
  blankLegacy s = substituteVars (map (fun key => (key, "N/A")) legacyKeys) s.
Proof.
  unfold blankLegacy, substituteVars. generalize legacyKeys. intros keys. revert s.
  induction keys as [|key keys IH]; intros s; [reflexivity | apply IH].
Qed.

(** Passes whose keys have no handlebar in the text leave it alone. *)
Lemma substituteVars_no_handlebar (passes : list (string * string)) (s : string) :
  Forall (fun kv => hasHandlebar (fst kv) s = false) passes ->
  substituteVars passes s = s.
Proof.
  induction 1 as [|[k v] passes Hk _ IH]; [reflexivity|].
  unfold substituteVars in *. cbn [fold_left fst snd] in *.
  unfold replaceHandlebars. now rewrite replaceScan_no_handlebar.
Qed.

(** The passes before the one for [k] leave a handlebar for [k] alone, and
    the pass for [k] puts the value in its place. *)
Lemma substituteVars_reach (earlier later : list (string * string))
    (k v w1 w2 pre post : string) :
  Forall (fun kv => plainKey (fst kv) = true /\ fst kv <> k) earlier ->
  plainKey k = true -> spaces w1 = true -> spaces w2 = true ->
  braceFree pre = true -> braceFree post = true -> dollarFree v = true ->
  substituteVars (earlier ++ (k, v) :: later) (pre ++ handlebar w1 k w2 ++ post)
    = substituteVars later (pre ++ v ++ post).
Proof.
  intros Hearlier Hk H1 H2 Hpre Hpost Hv.
  pose proof (braceFree_openFree _ Hpre) as Hpre'.
  pose proof (braceFree_openFree _ Hpost) as Hpost'.
  rewrite substituteVars_app. rewrite (substituteVars_no_handlebar earlier).
  - change (substituteVars ((k, v) :: later) (pre ++ handlebar w1 k w2 ++ post))
      with (substituteVars later
              (replaceHandlebars k v (pre ++ handlebar w1 k w2 ++ post))).
    now rewrite replaceHandlebars_single by assumption.
  - eapply Forall_impl; [|exact Hearlier]. intros [k' v'] [Hk' Hne]. cbn [fst] in *.
    apply hasHandlebar_other_key; auto.
Qed.

(** A sequence of passes over one handlebar for [k] in text without braces:
    the value of [k] takes its place and stays as it is when it holds no
    handlebar for a key of a later pass. *)
Lemma substituteVars_single (earlier later : list (string * string))
    (k v w1 w2 pre post : string) :
  Forall (fun kv => plainKey (fst kv) = true /\ fst kv <> k) earlier ->
  plainKey k = true -> spaces w1 = true -> spaces w2 = true ->
  braceFree pre = true -> braceFree post = true -> dollarFree v = true ->
  Forall (fun kv => plainKey (fst kv) = true /\ hasHandlebar (fst kv) v = false) later ->
  substituteVars (earlier ++ (k, v) :: later) (pre ++ handlebar w1 k w2 ++ post)
    = pre ++ v ++ post.
Proof.
  intros Hearlier Hk H1 H2 Hpre Hpost Hv Hlater.
  rewrite substituteVars_reach by assumption.
  apply substituteVars_no_handlebar.
  eapply Forall_impl; [|exact Hlater]. intros [k' v'] [Hk' Hno]. cbn [fst] in *.
  rewrite hasHandlebar_app_openFree by (now apply braceFree_openFree).
  now apply hasHandlebar_app_braceFree.
Qed.

Lemma normalized_pairs (P : string -> string -> Prop)
    (l : list (string * option string)) :
  Forall (fun kv => P (fst kv) (normalizeValue (snd kv))) l ->
  Forall (fun kv => P (fst kv) (snd kv)) (normalizeVarsToNA l).
Proof. induction 1 as [|[k' v'] l H _ IH]; constructor; auto. Qed.

Lemma legacy_pairs (P : string -> string -> Prop) (keys : list string) :
  Forall (fun key => P key "N/A") keys ->
  Forall (fun kv => P (fst kv) (snd kv)) (map (fun key => (key, "N/A")) keys).
Proof. induction 1 as [|key keys H _ IH]; constructor; auto. Qed.

Lemma legacyKeys_plain : forallb plainKey legacyKeys = true.
Proof. reflexivity. Qed.


(** **** Text and handlebars *)

Lemma joinAll_app (a b : list string) : joinAll (a ++ b) = joinAll a ++ joinAll b.
Proof.
  induction a as [|x a IH]; [reflexivity|]. cbn [app joinAll].
  now rewrite IH, append_assoc.
Qed.

Lemma textOf_app (a b : list segment) : textOf (a ++ b) = textOf a ++ textOf b.
Proof. unfold textOf. now rewrite map_app, joinAll_app. Qed.

Lemma textOf_cons (s : segment) (segs : list segment) :
  textOf (s :: segs) = segmentText s ++ textOf segs.
Proof. reflexivity. Qed.

(** The pass for [k] puts the value in the place of a handlebar for [k]
    and goes on behind it. *)
Lemma replaceLiteral_bar_same (k v w1 w2 s : string) :
  plainKey k = true -> spaces w1 = true -> spaces w2 = true ->
  replaceLiteral k v 0 (handlebar w1 k w2 ++ s) = v ++ replaceLiteral k v 0 s.
Proof.
  intros Hk H1 H2.
  pose proof (matchHandlebar_handlebar w1 k w2 s Hk H1 H2) as Hm.
  remember (handlebar w1 k w2) as T eqn:ET.
  destruct T as [|c T]; [unfold handlebar in ET; discriminate|].
  change (String c T ++ s) with (String c (T ++ s)) in *.
  cbn [replaceLiteral]. rewrite Hm. f_equal.
  replace (String.length (String c T) - 1)%nat with (String.length T)
    by (cbn [String.length]; lia).
  apply replaceLiteral_skip.
Qed.

(** The pass for [k] copies a handlebar for another key. *)
Lemma replaceLiteral_bar_other (k k' v w1 w2 s : string) :
  plainKey k = true -> plainKey k' = true -> k <> k' ->
  spaces w1 = true -> spaces w2 = true ->
  replaceLiteral k v 0 (handlebar w1 k' w2 ++ s) =
  handlebar w1 k' w2 ++ replaceLiteral k v 0 s.
Proof.
  intros Hk Hk' Hne H1 H2.
  pose proof (matchHandlebar_other_key k' k w1 w2 s Hk' Hk (not_eq_sym Hne) H1 H2) as Hm.
  rewrite handlebar_app in Hm. rewrite !handlebar_app.
  change ("{{" ++ w1 ++ k' ++ w2 ++ "}}" ++ s)
    with (String "{" (String "{" (w1 ++ k' ++ w2 ++ "}}" ++ s))) in *.
  change ("{{" ++ w1 ++ k' ++ w2 ++ "}}" ++ replaceLiteral k v 0 s)
    with (String "{" (String "{" (w1 ++ k' ++ w2 ++ "}}" ++ replaceLiteral k v 0 s))).
  cbn [replaceLiteral]. rewrite Hm.
  assert (Hin : matchHandlebar k (String "{" (w1 ++ k' ++ w2 ++ "}}" ++ s)) = None).
  { unfold matchHandlebar. cbn [startsWith].
    destruct (w1 ++ k' ++ w2 ++ "}}" ++ s) as [|c r] eqn:E; [reflexivity|].
    replace (("{" =? c)%char) with false; [reflexivity|]. symmetry.
    destruct w1 as [|a w1].
    - cbn [String.append] in E. apply plainKey_inv in Hk' as (_ & c' & k2 & -> & Hc').
      cbn [String.append] in E. injection E as <- _.
      rewrite Ascii.eqb_sym. now apply keyChar_facts in Hc' as (_ & ? & _).
    - cbn [String.append] in E. injection E as <- _.
      unfold spaces in H1. cbn [allChars] in H1. apply andb_true_iff in H1 as [Ha _].
      rewrite Ascii.eqb_sym. now apply space_facts in Ha as (? & _). }
  rewrite Hin. do 2 f_equal.
  replace (w1 ++ k' ++ w2 ++ "}}" ++ s) with ((w1 ++ k' ++ w2 ++ "}}") ++ s)
    by (now rewrite !append_assoc).
  rewrite replaceLiteral_openFree; [now rewrite !append_assoc|].
  unfold openFree. rewrite !allChars_app.
  fold (openFree w1) (openFree k') (openFree w2).
  rewrite (spaces_openFree _ H1), (plainKey_openFree _ Hk'), (spaces_openFree _ H2).
  reflexivity.
Qed.

Lemma textOf_single (s : segment) : textOf [s] = segmentText s.
Proof. unfold textOf. cbn [map joinAll]. apply append_nil_r. Qed.

(** One pass of the scan is the pass on the pieces. *)
Lemma replaceLiteral_segments (k : string) (value segs : list segment) :
  plainKey k = true -> forallb wellFormed segs = true ->
  replaceLiteral k (textOf value) 0 (textOf segs) = textOf (splice k value segs).
Proof.
  intros Hk. induction segs as [|s segs IH]; intros Hwf; [reflexivity|].
  cbn [forallb] in Hwf. apply andb_true_iff in Hwf as [Hs Hwf].
  unfold splice. cbn [flat_map]. fold (splice k value segs).
  rewrite textOf_cons, textOf_app, <- (IH Hwf).
  destruct s as [t|w1 k' w2]; cbn [segmentText wellFormed] in *.
  - rewrite replaceLiteral_openFree by (now apply braceFree_openFree).
    now rewrite textOf_single.
  - apply andb_true_iff in Hs as [Hs H2]. apply andb_true_iff in Hs as [H1 Hk'].
    destruct (String.eqb_spec k k') as [<-|Hne].
    + now apply replaceLiteral_bar_same.
    + rewrite replaceLiteral_bar_other by assumption.
      now rewrite textOf_single.
Qed.

Lemma splice_wellFormed (k : string) (value segs : list segment) :
  forallb wellFormed value = true -> forallb wellFormed segs = true ->
  forallb wellFormed (splice k value segs) = true.
Proof.
  intros Hv. induction segs as [|s segs IH]; intros Hwf; [reflexivity|].
  cbn [forallb] in Hwf. apply andb_true_iff in Hwf as [Hs Hwf].
  unfold splice. cbn [flat_map]. fold (splice k value segs).
  rewrite forallb_app, (IH Hwf), andb_true_r.
  destruct s as [t|w1 k' w2]; [cbn [forallb]; now rewrite Hs|].
  destruct (k === k'); [assumption | cbn [forallb]; now rewrite Hs].
Qed.

(** The sequence of passes of the scan is the sequence of passes on the
    pieces. *)
Lemma passes_segments (passes : list (string * list segment)) :
  forall segs,
  Forall (fun p => plainKey (fst p) = true /\ forallb wellFormed (snd p) = true) passes ->
  forallb wellFormed segs = true ->
  fold_left (fun o kv => replaceLiteral (fst kv) (snd kv) 0 o)
    (map (fun p => (fst p, textOf (snd p))) passes) (textOf segs)
  = textOf (resolveAll passes segs) /\
  forallb wellFormed (resolveAll passes segs) = true.
Proof.
  induction passes as [|[k value] passes IH]; intros segs Hp Hwf; [now split|].
  inversion Hp as [|? ? [Hk Hv] Hp']; subst. cbn [fst snd] in *.
  cbn [map fold_left fst snd]. unfold resolveAll. cbn [fold_left fst snd].
  fold (resolveAll passes (splice k value segs)).
  rewrite replaceLiteral_segments by assumption.
  apply IH; [assumption|]. now apply splice_wellFormed.
Qed.

Lemma fold_left_map {A B C : Type} (f : A -> C -> A) (g : B -> C) (l : list B) :
  forall a, fold_left f (map g l) a = fold_left (fun x b => f x (g b)) l a.
Proof. induction l as [|b l IH]; intros a; [reflexivity | apply IH]. Qed.

Lemma normalSegments_text (v : option (list segment)) :
  textOf (normalSegments v) = normalizeValue (option_map textOf v).
Proof.
  destruct v as [segs|]; [|reflexivity]. cbn [normalSegments option_map normalizeValue].
  now destruct (nonEmpty (textOf segs)).
Qed.

Lemma identifierKey_plain (k : string) : identifierKey k = true -> plainKey k = true.
Proof. unfold identifierKey. intros H. now apply andb_true_iff in H as [H _]. Qed.

Lemma substituteVars_literal (passes : list (string * string)) :
  Forall (fun kv => dollarFree (snd kv) = true) passes ->
  forall s, substituteVars passes s =
            fold_left (fun o kv => replaceLiteral (fst kv) (snd kv) 0 o) passes s.
Proof.
  unfold substituteVars. induction 1 as [|[k v] passes Hv _ IH]; intros s; [reflexivity|].
  cbn [fold_left fst snd] in *. unfold replaceHandlebars at 2.
  rewrite replaceScan_literal by exact Hv. apply IH.
Qed.

Lemma passesOf_ok (entries : list (string * option (list segment))) :
  forallb entryOk entries = true ->
  Forall (fun p => plainKey (fst p) = true /\ forallb wellFormed (snd p) = true)
    (passesOf entries) /\
  Forall (fun kv => dollarFree (snd kv) = true)
    (map (fun p => (fst p, textOf (snd p))) (passesOf entries)).
Proof.
  intros He. rewrite forallb_forall in He. unfold passesOf. split.
  - apply Forall_app. split; apply Forall_map, Forall_forall.
    + intros e Hin. specialize (He e Hin). unfold entryOk in He. cbn [fst snd].
      apply andb_true_iff in He as [He _]. apply andb_true_iff in He as [H1 H2].
      split; [now apply identifierKey_plain | assumption].
    + intros key Hin. cbn [fst snd]. split; [|reflexivity].
      pose proof legacyKeys_plain as Hl. rewrite forallb_forall in Hl. now apply Hl.
  - rewrite map_app. apply Forall_app. split; apply Forall_map, Forall_map, Forall_forall.
    + intros e Hin. specialize (He e Hin). unfold entryOk in He. cbn [fst snd].
      now apply andb_true_iff in He as [_ He].
    + intros key Hin. reflexivity.
Qed.

Lemma passesOf_text (entries : list (string * option (list segment))) :
  map (fun p => (fst p, textOf (snd p))) (passesOf entries)
  = (normalizeVarsToNA (varsOf entries) ++ map (fun key => (key, "N/A")) legacyKeys)%list.
Proof.
  unfold passesOf, normalizeVarsToNA, varsOf. rewrite map_app, !map_map. cbn [fst snd].
  f_equal. apply map_ext. intros [k v]. cbn [fst snd]. now rewrite normalSegments_text.
Qed.

(** The passes of the renderer, before the final trim, on a template and on
    values made of text without braces and of handlebars, are the passes on
    the pieces. *)
Lemma substituteAll_segments (tpl : list segment)
    (entries : list (string * option (list segment))) :
  forallb wellFormed tpl = true -> forallb entryOk entries = true ->
  blankLegacy (substituteVars (normalizeVarsToNA (varsOf entries)) (textOf tpl))
    = textOf (resolveAll (passesOf entries) tpl).
Proof.
  intros Htpl He. destruct (passesOf_ok entries He) as [Hp Hd].
  rewrite blankLegacy_as_passes, <- substituteVars_app, <- passesOf_text.
  rewrite substituteVars_literal by exact Hd.
  now destruct (passes_segments (passesOf entries) tpl Hp Htpl) as [-> _].
Qed.

Lemma renderTemplate_segments (tpl : list segment)
    (entries : list (string * option (list segment))) :
  forallb wellFormed tpl = true -> forallb entryOk entries = true ->
  renderTemplate (Some (textOf tpl)) (varsOf entries)
    = trim (textOf (resolveAll (passesOf entries) tpl)).
Proof.
  intros Htpl He. unfold renderTemplate. cbn [orEmpty].
  now rewrite substituteAll_segments.
Qed.

(** **** Literal insertion *)






(** A handlebar that bears the key of no pass stays where it is. *)
Lemma resolveAll_unknown (passes : list (string * list segment))
    (w1 k w2 : string) :
  ~ In k (map fst passes) ->
  forall a b,
  resolveAll passes (a ++ Bar w1 k w2 :: b)
    = (resolveAll passes a ++ Bar w1 k w2 :: resolveAll passes b)%list.
Proof.
  induction passes as [|[key value] passes IH]; intros H a b; [reflexivity|].
  cbn [map fst In] in H. unfold resolveAll. cbn [fold_left fst snd].
  fold (resolveAll passes (splice key value (a ++ Bar w1 k w2 :: b))).
  fold (resolveAll passes (splice key value a)).
  fold (resolveAll passes (splice key value b)).
  unfold splice at 1. rewrite flat_map_app. cbn [flat_map].
  fold (splice key value a) (splice key value b).
  destruct (String.eqb_spec key k) as [->|Hne]; [elim H; now left|].
  cbn [app]. apply IH. intros Hin. apply H. now right.
Qed.



(** A legacy handlebar within text without braces is written as "N/A"
    whatever the values are, when no variable bears the legacy name. *)
Lemma renderTemplate_legacy_handlebar (vars : list (string * option string))
    (before after : list string) (key w1 w2 pre post : string) :
  legacyKeys = (before ++ key :: after)%list ->
  Forall (fun kv => plainKey (fst kv) = true /\ fst kv <> key) vars ->
  Forall (fun k' => k' <> key) before ->
  spaces w1 = true -> spaces w2 = true ->
  braceFree pre = true -> braceFree post = true ->
  renderTemplate (Some (pre ++ handlebar w1 key w2 ++ post)) vars
    = trim (pre ++ "N/A" ++ post).
Proof.
  intros Hleg Hvars Hbefore H1 H2 Hpre Hpost.
  pose proof legacyKeys_plain as Hp. rewrite forallb_forall, Hleg in Hp.
  unfold renderTemplate. f_equal. cbn [orEmpty].
  rewrite blankLegacy_as_passes, <- substituteVars_app, Hleg.
  rewrite map_app. cbn [map]. rewrite app_assoc.
  apply substituteVars_single; try assumption; try reflexivity.
  - apply Forall_app. split.
    + clear -Hvars. induction Hvars as [|[k' v'] l H _ IH]; constructor; auto.
    + rewrite Forall_forall in *. intros [k' v'] Hin. cbn [fst].
      apply in_map_iff in Hin as (k0 & [= <- <-] & Hin). split.
      * apply Hp. apply in_or_app. now left.
      * now apply Hbefore.
  - apply Hp. apply in_or_app. right. now left.
  - rewrite Forall_forall. intros [k' v'] Hin. cbn [fst].
    apply in_map_iff in Hin as (k0 & [= <- <-] & Hin). split.
    + apply Hp. apply in_or_app. right. now right.
    + reflexivity.
Qed.

(** With the variables of [buildTemplateVars] the handlebar [{{lookup}}]
    renders as "N/A". *)
Lemma renderTemplate_lookup (values : list (option string)) (w1 w2 pre post : string) :
  List.length values = List.length knownKeys ->
  spaces w1 = true -> spaces w2 = true ->
  braceFree pre = true -> braceFree post = true ->
  renderTemplate (Some (pre ++ handlebar w1 "lookup" w2 ++ post))
    (combine knownKeys values) = trim (pre ++ "N/A" ++ post).
Proof.
  intros Hlen H1 H2 Hpre Hpost.
  apply (renderTemplate_legacy_handlebar _
           ["start"; "end"; "time_class"; "timeClass"]
           ["lookup_url"; "lookup_rating"; "lookup_result";
            "other"; "other_url"; "other_rating"; "other_result"]);
    try assumption; try reflexivity.
  - assert (Hk : Forall (fun k => plainKey k = true /\ k <> "lookup") knownKeys)
      by (repeat constructor; discriminate).
    clear -Hk. revert values.
    induction Hk as [|k ks Hk _ IH]; intros values; [constructor|].
    destruct values as [|v values]; [constructor|].
    cbn [combine]. constructor; [exact Hk | apply IH].
  - repeat constructor; discriminate.
Qed.

(** ** Further properties *)

(** *** User names *)

Lemma trimEnd_idempotent (s : string) : trimEnd (trimEnd s) = trimEnd s.
Proof.
  induction s as [|c s IH]; [reflexivity|].
  cbn [trimEnd]. destruct (trimEnd s) as [|d t] eqn:E.
  - destruct (isSpace c) eqn:Hc; [reflexivity|]. cbn [trimEnd]. now rewrite Hc.
  - cbn [trimEnd]. cbn [trimEnd] in IH.
    destruct (match trimEnd t with
              | "" => if isSpace d then "" else String d ""
              | String a s0 => String d (String a s0)
              end) eqn:E'; [discriminate|].
    now rewrite <- IH.
Qed.

Lemma trimStart_head (s : string) : headNotSpace (trimStart s).
Proof.
  induction s as [|c s IH]; [exact I|].
  cbn [trimStart]. destruct (isSpace c) eqn:Hc; [exact IH | exact Hc].
Qed.

Lemma trimStart_fixed (s : string) : headNotSpace s -> trimStart s = s.
Proof. destruct s as [|c s]; [reflexivity|]. cbn. now intros ->. Qed.

Lemma trimEnd_head (s : string) : headNotSpace s -> headNotSpace (trimEnd s).
Proof.
  destruct s as [|c s]; [exact id|]. cbn [headNotSpace trimEnd]. intros Hc.
  destruct (trimEnd s); [now rewrite Hc | exact Hc].
Qed.

Lemma trim_idempotent (s : string) : trim (trim s) = trim s.
Proof.
  unfold trim at 1.
  rewrite (trimStart_fixed (trim s)) by (apply trimEnd_head, trimStart_head).
  apply trimEnd_idempotent.
Qed.

Lemma lowerChar_facts (c : ascii) :
  isSpace (lowerChar c) = isSpace c /\ lowerChar (lowerChar c) = lowerChar c.
Proof. each_char c. Qed.

Lemma toLowerCase_idempotent (s : string) :
  toLowerCase (toLowerCase s) = toLowerCase s.
Proof.
  induction s as [|c s IH]; [reflexivity|]. cbn [toLowerCase].
  now rewrite IH, (proj2 (lowerChar_facts c)).
Qed.

Lemma trimStart_toLowerCase (s : string) :
  trimStart (toLowerCase s) = toLowerCase (trimStart s).
Proof.
  induction s as [|c s IH]; [reflexivity|]. cbn [toLowerCase trimStart].
  rewrite (proj1 (lowerChar_facts c)). now destruct (isSpace c).
Qed.

Lemma trimEnd_toLowerCase (s : string) :
  trimEnd (toLowerCase s) = toLowerCase (trimEnd s).
Proof.
  induction s as [|c s IH]; [reflexivity|]. cbn [toLowerCase trimEnd].
  rewrite IH, (proj1 (lowerChar_facts c)).
  destruct (trimEnd s); [now destruct (isSpace c) | reflexivity].
Qed.

Lemma trim_toLowerCase (s : string) : trim (toLowerCase s) = toLowerCase (trim s).
Proof. unfold trim. now rewrite trimStart_toLowerCase, trimEnd_toLowerCase. Qed.

(** X1. The normal form of a user name is stable: normalising twice gives
    the same as once, and neither lower-casing the name nor trimming it
    first changes its normal form. *)
Theorem normalizeUsername_stable (name : option string) (s : string) :
  normalizeUsername (normalizeUsername name) = normalizeUsername name /\
  normalizeUsername (Some (toLowerCase s)) = normalizeUsername (Some s) /\
  normalizeUsername (Some (trim s)) = normalizeUsername (Some s).
Proof.
  refine (conj _ (conj _ _)).
  - destruct name as [n|]; [|reflexivity]. cbn [normalizeUsername].
    now rewrite trim_toLowerCase, trim_idempotent, toLowerCase_idempotent.
  - cbn [normalizeUsername].
    now rewrite trim_toLowerCase, toLowerCase_idempotent.
  - cbn [normalizeUsername]. now rewrite trim_idempotent.
Qed.

(** *** The resolver *)

Lemma scanLast_cons (fetchMonth : string -> outcome (list GameItem))
    (u user : string) (timeClass : option string) (a : string)
    (older : list string) (games : list GameItem) :
  fetchMonth a = Ok games ->
  scanLast fetchMonth u user timeClass (a :: older) =
    match archiveYields u timeClass games with
    | Some (g, c) => Ok (Some (mkResolved g c user))
    | None => scanLast fetchMonth u user timeClass older
    end.
Proof.
  intros Hf. unfold archiveYields, sideOfUser.
  destruct (pickLatest (candidatesOf timeClass games)) as [g|] eqn:Hp.
  - rewrite (scanLast_step _ _ _ _ _ _ games g Hf Hp).
    destruct (sameOpt _ (Some u)); [reflexivity|].
    now destruct (sameOpt _ (Some u)).
  - cbn [scanLast]. rewrite Hf. cbn [bind].
    destruct games as [|g1 games]; [reflexivity|]. now rewrite Hp.
Qed.

(** Archives that fetch and yield nothing are passed over. *)
Lemma scanLast_skip (fetchMonth : string -> outcome (list GameItem))
    (u user : string) (timeClass : option string) (rest : list string) :
  forall newer,
  (forall b, In b newer -> exists gs, fetchMonth b = Ok gs /\
     archiveYields u timeClass gs = None) ->
  scanLast fetchMonth u user timeClass (newer ++ rest) =
  scanLast fetchMonth u user timeClass rest.
Proof.
  induction newer as [|b newer IH]; intros H; [reflexivity|].
  destruct (H b (or_introl eq_refl)) as (gs & Hf & Hy).
  cbn [app]. rewrite (scanLast_cons _ _ _ _ _ _ gs Hf), Hy.
  apply IH. intros b' Hb'. apply H. now right.
Qed.

Lemma getLastGameForUser_unfold
    (fetchArchives : string -> outcome (list string))
    (fetchMonth : string -> outcome (list GameItem))
    (user : string) (timeClass : option string) (archives : list string) :
  nonEmpty (toLowerCase (trim user)) = true ->
  fetchArchives (indexUrl (toLowerCase (trim user))) = Ok archives ->
  getLastGameForUser fetchArchives fetchMonth user timeClass =
  scanLast fetchMonth (toLowerCase (trim user)) user timeClass (rev archives).
Proof.
  intros Hu Ha. unfold getLastGameForUser. cbn [normalizeUsername].
  now rewrite Hu, Ha.
Qed.

Lemma trim_blank_normal (user : string) :
  trim user = "" -> nonEmpty (toLowerCase (trim user)) = false.
Proof. now intros ->. Qed.

(** X2. A blank user name is answered locally: both traversals return
    not-found without asking the network, so even when every request would
    throw. *)
Theorem blank_username_is_not_found
    (fetchArchives : string -> outcome (list string))
    (fetchMonth : string -> outcome (list GameItem))
    (user : string) (timeClass : option string) (category : string) (cutoff : Z) :
  trim user = "" ->
  getLastGameForUser fetchArchives fetchMonth user timeClass = Ok None /\
  getPreviousGameForUser fetchArchives fetchMonth user category cutoff = Ok None /\
  getLastGameForUser (fun _ => Throw) (fun _ => Throw) user timeClass = Ok None /\
  getPreviousGameForUser (fun _ => Throw) (fun _ => Throw) user category cutoff = Ok None.
Proof.
  intros Hb. apply trim_blank_normal in Hb.
  unfold getLastGameForUser, getPreviousGameForUser. cbn [normalizeUsername].
  rewrite Hb. repeat split.
Qed.

Lemma blank_username_is_not_found_witness :
  getLastGameForUser exampleArchives exampleMonth "   " (Some "blitz") = Ok None /\
  getPreviousGameForUser exampleArchives exampleMonth "   " "blitz" 250 = Ok None.
Proof.
  destruct (blank_username_is_not_found exampleArchives exampleMonth "   "
              (Some "blitz") "blitz" 250 eq_refl) as (H1 & H2 & _).
  split; assumption.
Defined.

Lemma sameOpt_eq (a b : option string) : sameOpt a b = true <-> a = b.
Proof.
  destruct a as [x|], b as [y|]; cbn; try (split; congruence).
  rewrite String.eqb_eq. split; congruence.
Qed.

Lemma sideOfUser_spec (u : string) (g : GameItem) (c : Color) :
  sideOfUser u g = Some c ->
  normalizeUsername (username (playerOn g c)) = Some u.
Proof.
  unfold sideOfUser.
  destruct (sameOpt (normalizeUsername (username (orNoPlayer (white g)))) (Some u)) eqn:Ew.
  - intros [= <-]. now apply sameOpt_eq.
  - destruct (sameOpt (normalizeUsername (username (orNoPlayer (black g)))) (Some u)) eqn:Eb;
      [|discriminate].
    intros [= <-]. now apply sameOpt_eq.
Qed.

Lemma scanLast_invariant (fetchMonth : string -> outcome (list GameItem))
    (u user : string) (timeClass : option string) (r : Resolved) :
  forall newestFirst,
  scanLast fetchMonth u user timeClass newestFirst = Ok (Some r) ->
  meUsername r = user /\ sideOfUser u (game r) = Some (meColor r).
Proof.
  induction newestFirst as [|a older IH]; [discriminate|].
  destruct (fetchMonth a) as [games|] eqn:Hf.
  - rewrite (scanLast_cons _ _ _ _ _ _ games Hf). unfold archiveYields.
    destruct (pickLatest (candidatesOf timeClass games)) as [g|]; [|exact IH].
    destruct (sideOfUser u g) as [c|] eqn:Hs; [|exact IH].
    intros [= <-]. now split.
  - cbn [scanLast]. rewrite Hf. discriminate.
Qed.

(** X3. What [getLastGameForUser] returns is well formed: the user plays on
    the colour it reports (the name of that side has the normal form of the
    requested name), the name handed back is the requested one as given,
    and the game is the most recent candidate of one of the archives of the
    index. *)
Theorem getLastGameForUser_result_invariant
    (fetchArchives : string -> outcome (list string))
    (fetchMonth : string -> outcome (list GameItem))
    (user : string) (timeClass : option string) (r : Resolved) :
  getLastGameForUser fetchArchives fetchMonth user timeClass = Ok (Some r) ->
  meUsername r = user /\
  normalizeUsername (username (playerOn (game r) (meColor r)))
    = normalizeUsername (Some user) /\
  (meColor r = black_side ->
   normalizeUsername (username (playerOn (game r) white_side))
     <> normalizeUsername (Some user)) /\
  exists archives a games,
    fetchArchives (indexUrl (toLowerCase (trim user))) = Ok archives /\
    In a archives /\ fetchMonth a = Ok games /\
    pickLatest (candidatesOf timeClass games) = Some (game r) /\
    In (game r) games.
Proof.
  intros H.
  pose proof (getLastGameForUser_sound _ _ _ _ _ H)
    as (archives & a & games & Ha & Hin & Hf & Hp).
  assert (Hinv : meUsername r = user /\
                 sideOfUser (toLowerCase (trim user)) (game r) = Some (meColor r)).
  { revert H. unfold getLastGameForUser. cbn [normalizeUsername].
    destruct (nonEmpty (toLowerCase (trim user))); [|discriminate].
    rewrite Ha. cbn [bind]. apply scanLast_invariant. }
  destruct Hinv as [Hme Hside].
  refine (conj Hme (conj (sideOfUser_spec _ _ _ Hside) (conj _ _))).
  - intros Hc. rewrite Hc in Hside. unfold sideOfUser in Hside.
    cbn [playerOn normalizeUsername].
    destruct (sameOpt (normalizeUsername (username (orNoPlayer (white (game r)))))
                (Some (toLowerCase (trim user)))) eqn:Ew; [discriminate|].
    intros E. rewrite E in Ew. cbn [sameOpt] in Ew.
    now rewrite String.eqb_refl in Ew.
  - exists archives, a, games. repeat split; auto.
    apply pickLatest_In in Hp.
    destruct timeClass as [tc|]; cbn [candidatesOf] in Hp; [|exact Hp].
    destruct (nonEmpty tc); [|exact Hp]. now apply filter_In in Hp.
Qed.

Lemma getLastGameForUser_result_invariant_witness :
  let g := mkGame (Some "g") (Some 100) None (Some "blitz") None None None
             (Some (mkPlayer (Some "Someone") (Some "win") (Some 1500)))
             (Some (mkPlayer (Some "other") (Some "resigned") (Some 1400))) in
  let r := mkResolved g white_side " SomeOne " in
  meUsername r = " SomeOne " /\
  normalizeUsername (username (playerOn g white_side))
    = normalizeUsername (Some " SomeOne ").
Proof.
  intros g r.
  destruct (getLastGameForUser_result_invariant
              (fun _ => Ok ["m1"]) (fun _ => Ok [g]) " SomeOne " (Some "blitz") r
              eq_refl) as (H1 & H2 & _).
  split; assumption.
Defined.

(** X4. [getLastGameForUser] goes through the archives from the newest to
    the oldest and answers from the first one that yields: when every
    archive newer than [a] can be fetched and has no candidate in which the
    user plays, and the most recent candidate of [a] has the user on colour
    [c], the result is that candidate with that colour, whatever the older
    archives hold and even if they cannot be fetched. *)
Theorem getLastGameForUser_newest_first
    (fetchArchives : string -> outcome (list string))
    (fetchMonth : string -> outcome (list GameItem))
    (user : string) (timeClass : option string)
    (older newer : list string) (a : string) (games : list GameItem)
    (g : GameItem) (c : Color) :
  let u := toLowerCase (trim user) in
  nonEmpty u = true ->
  fetchArchives (indexUrl u) = Ok (older ++ a :: newer)%list ->
  (forall b, In b newer -> exists gs, fetchMonth b = Ok gs /\
     archiveYields u timeClass gs = None) ->
  fetchMonth a = Ok games ->
  archiveYields u timeClass games = Some (g, c) ->
  getLastGameForUser fetchArchives fetchMonth user timeClass
    = Ok (Some (mkResolved g c user)).
Proof.
  intros u Hu Ha Hnewer Hf Hy. subst u.
  rewrite (getLastGameForUser_unfold _ _ _ _ _ Hu Ha).
  rewrite rev_app_distr. cbn [rev]. rewrite <- app_assoc.
  rewrite scanLast_skip by (intros b Hb; apply Hnewer; now apply in_rev).
  cbn [app]. now rewrite (scanLast_cons _ _ _ _ _ _ games Hf), Hy.
Qed.

Lemma getLastGameForUser_newest_first_witness :
  getLastGameForUser twoArchives twoMonths " SomeOne" (Some "blitz")
    = Ok (Some (mkResolved blitzGame white_side " SomeOne")) /\
  getLastGameForUser twoArchives twoMonths " SomeOne" None
    = Ok (Some (mkResolved rapidGame black_side " SomeOne")).
Proof.
  split.
  - refine (getLastGameForUser_newest_first twoArchives twoMonths " SomeOne"
              (Some "blitz") [] ["2024/02"] "2024/01" [blitzGame] blitzGame
              white_side _ _ _ _ _); try reflexivity.
    intros b [<-|[]]. exists [rapidGame]. split; reflexivity.
  - refine (getLastGameForUser_newest_first twoArchives twoMonths " SomeOne"
              None ["2024/01"] [] "2024/02" [rapidGame] rapidGame
              black_side _ _ _ _ _); try reflexivity.
    intros b [].
Defined.

(** X5. Not-found is a value, not an error: when the index can be fetched
    and every archive of it can be fetched and yields nothing (in
    particular when the index is empty), [getLastGameForUser] returns
    not-found; and when no archive holds a qualifying game so does
    [getPreviousGameForUser]. *)
Theorem no_match_is_not_found
    (fetchArchives : string -> outcome (list string))
    (fetchMonth : string -> outcome (list GameItem))
    (user : string) (timeClass : option string) (category : string) (cutoff : Z)
    (archives : list string) :
  let u := toLowerCase (trim user) in
  fetchArchives (indexUrl u) = Ok archives ->
  ((forall b, In b archives -> exists gs, fetchMonth b = Ok gs /\
      archiveYields u timeClass gs = None) ->
   getLastGameForUser fetchArchives fetchMonth user timeClass = Ok None) /\
  ((forall b, In b archives -> exists gs, fetchMonth b = Ok gs /\
      filter (qualifies category cutoff) gs = []) ->
   getPreviousGameForUser fetchArchives fetchMonth user category cutoff = Ok None).
Proof.
  intros u Ha. subst u. split; intros H.
  - unfold getLastGameForUser. cbn [normalizeUsername].
    destruct (nonEmpty _); [|reflexivity]. rewrite Ha. cbn [bind].
    rewrite <- (app_nil_r (rev archives)).
    rewrite scanLast_skip; [reflexivity|].
    intros b Hb. apply H. now apply in_rev.
  - unfold getPreviousGameForUser. cbn [normalizeUsername].
    destruct (nonEmpty _); [|reflexivity]. rewrite Ha. cbn [bind].
    rewrite <- (app_nil_r (rev archives)).
    rewrite scanPrevious_skip; [reflexivity|].
    intros b Hb. apply H. now apply in_rev.
Qed.

Lemma no_match_is_not_found_witness :
  getLastGameForUser twoArchives twoMonths "someone" (Some "bullet") = Ok None /\
  getPreviousGameForUser twoArchives twoMonths "someone" "blitz" 1704449229 = Ok None.
Proof.
  destruct (no_match_is_not_found twoArchives twoMonths "someone" (Some "bullet")
              "blitz" 1704449229 ["2024/01"; "2024/02"] eq_refl) as [H1 H2].
  split.
  - apply H1. intros b [<-|[<-|[]]]; eexists; split; reflexivity.
  - apply H2. intros b [<-|[<-|[]]]; eexists; split; reflexivity.
Defined.

(** X6. A transport failure is propagated: for a user name that is not
    blank, a failing request for the index, or a failing request for an
    archive that is reached (every newer archive having been fetched
    without a result), makes the traversal throw. *)
Theorem transport_failure_propagates
    (fetchArchives : string -> outcome (list string))
    (fetchMonth : string -> outcome (list GameItem))
    (user : string) (timeClass : option string) (category : string) (cutoff : Z) :
  let u := toLowerCase (trim user) in
  nonEmpty u = true ->
  (fetchArchives (indexUrl u) = Throw ->
   getLastGameForUser fetchArchives fetchMonth user timeClass = Throw /\
   getPreviousGameForUser fetchArchives fetchMonth user category cutoff = Throw) /\
  (forall older a newer,
     fetchArchives (indexUrl u) = Ok (older ++ a :: newer)%list ->
     fetchMonth a = Throw ->
     ((forall b, In b newer -> exists gs, fetchMonth b = Ok gs /\
         archiveYields u timeClass gs = None) ->
      getLastGameForUser fetchArchives fetchMonth user timeClass = Throw) /\
     ((forall b, In b newer -> exists gs, fetchMonth b = Ok gs /\
         filter (qualifies category cutoff) gs = []) ->
      getPreviousGameForUser fetchArchives fetchMonth user category cutoff = Throw)).
Proof.
  intros u Hu. subst u. split.
  - intros Ha. unfold getLastGameForUser, getPreviousGameForUser.
    cbn [normalizeUsername]. now rewrite Hu, Ha.
  - intros older a newer Ha Hf. split; intros H.
    + rewrite (getLastGameForUser_unfold _ _ _ _ _ Hu Ha).
      rewrite rev_app_distr. cbn [rev]. rewrite <- app_assoc.
      rewrite scanLast_skip by (intros b Hb; apply H; now apply in_rev).
      cbn [app scanLast]. now rewrite Hf.
    + unfold getPreviousGameForUser. cbn [normalizeUsername].
      rewrite Hu, Ha. cbn [bind].
      rewrite rev_app_distr. cbn [rev]. rewrite <- app_assoc.
      rewrite scanPrevious_skip by (intros b Hb; apply H; now apply in_rev).
      cbn [app scanPrevious]. now rewrite Hf.
Qed.

Lemma transport_failure_propagates_witness :
  getLastGameForUser twoArchives brokenMonths "someone" (Some "blitz") = Throw /\
  getPreviousGameForUser twoArchives brokenMonths "someone" "blitz" 250 = Throw.
Proof.
  destruct (transport_failure_propagates twoArchives brokenMonths "someone"
              (Some "blitz") "blitz" 250 eq_refl) as [_ H].
  destruct (H ["2024/01"] "2024/02" [] eq_refl eq_refl) as [H1 H2].
  split; [apply H1 | apply H2]; intros b [].
Defined.

(** *** Dates, times and durations *)

Lemma zeroPad_nonempty (n : Z) : zeroPad n <> "".
Proof. apply append_nonempty_r, toString_nonempty. Qed.

Lemma renderToken_nonempty (date : JsDate) (tok : string) :
  In tok tokens -> renderToken date tok <> "".
Proof.
  intros H. cbn in H.
  repeat (destruct H as [<-|H];
          [first [apply toString_nonempty | apply zeroPad_nonempty | idtac]|]);
    try contradiction.
  unfold renderToken. cbn. unfold ampm. destruct (_ <? 12); discriminate.
Qed.

(** A pattern that is not empty does not format to the empty string. *)
Lemma expand_nonempty (date : JsDate) (s : string) :
  s <> "" -> expand date s <> "".
Proof.
  destruct s as [|c s]; [congruence|]. intros _. unfold expand.
  cbn [replaceTokens]. destruct (tokenAt (String c s)) as [tok|] eqn:E.
  - apply append_nonempty_l, renderToken_nonempty.
    now apply firstPrefix_some in E as [Hin _].
  - discriminate.
Qed.

Lemma orDefault_nonempty (pattern : option string) (dflt : string) :
  dflt <> "" -> orDefault pattern dflt <> "".
Proof.
  intros Hd. unfold orDefault. destruct pattern as [[|c p]|]; cbn; auto.
  discriminate.
Qed.

(** X7. A timestamp is formatted to the empty string exactly when it is
    missing, an epoch second 0 counting as missing. Otherwise the date
    and the time are both non-empty and the combined timestamp is the date,
    one space and the time; a missing or empty pattern stands for
    "yyyy-MM-dd" and "hh:mm". *)
Theorem formatTimestamp_date_space_time (localDate : Z -> JsDate)
    (ts : option Z) (datePattern timePattern : option string) :
  (truthy ts = false ->
     formatDateOnly localDate ts datePattern = "" /\
     formatTimeOnly localDate ts timePattern = "" /\
     formatTimestamp localDate ts datePattern timePattern = "") /\
  (truthy ts = true ->
     formatDateOnly localDate ts datePattern <> "" /\
     formatTimeOnly localDate ts timePattern <> "" /\
     formatTimestamp localDate ts datePattern timePattern =
       formatDateOnly localDate ts datePattern ++ " " ++
       formatTimeOnly localDate ts timePattern) /\
  formatTimestamp localDate (Some 0) datePattern timePattern = "" /\
  formatDateOnly localDate ts None = formatDateOnly localDate ts (Some "yyyy-MM-dd") /\
  formatDateOnly localDate ts (Some "") = formatDateOnly localDate ts (Some "yyyy-MM-dd") /\
  formatTimeOnly localDate ts None = formatTimeOnly localDate ts (Some "hh:mm") /\
  formatTimeOnly localDate ts (Some "") = formatTimeOnly localDate ts (Some "hh:mm").
Proof.
  refine (conj _ (conj _ (conj eq_refl (conj eq_refl (conj eq_refl (conj eq_refl eq_refl)))))).
  - intros Hts. unfold formatTimestamp, formatDateOnly, formatDate, formatTimeOnly.
    rewrite Hts. repeat split.
  - intros Hts.
    assert (Hd : formatDateOnly localDate ts datePattern <> "").
    { unfold formatDateOnly, formatDate, formatWithPattern. rewrite Hts.
      apply expand_nonempty. repeat apply orDefault_nonempty; discriminate. }
    assert (Ht : formatTimeOnly localDate ts timePattern <> "").
    { unfold formatTimeOnly, formatWithPattern. rewrite Hts.
      apply expand_nonempty. repeat apply orDefault_nonempty; discriminate. }
    refine (conj Hd (conj Ht _)). unfold formatTimestamp.
    now rewrite (nonEmpty_true _ Hd), (nonEmpty_true _ Ht).
Qed.

Lemma zeroPad_two_digits (n : Z) : 0 <= n < 100 ->
  String.length (zeroPad n) = 2%nat /\ allChars isDigit (zeroPad n) = true.
Proof.
  intros Hn.
  assert (Hk : (Z.to_nat n < 100)%nat) by lia.
  replace n with (Z.of_nat (Z.to_nat n)) by lia.
  clear Hn. revert Hk. generalize (Z.to_nat n). clear n. intros k Hk.
  do 100 (destruct k as [|k]; [vm_compute; split; reflexivity|]).
  lia.
Qed.

(** X8. For a valid date the tokens MM, dd, HH, hh, mm and ss each render
    as exactly two digits, and [a] renders "AM" before noon and "PM" from
    noon on; so the default time format renders five characters. *)
Theorem two_digit_tokens (date : JsDate) :
  valid_date date ->
  (forall tok, In tok ["MM"; "dd"; "HH"; "hh"; "mm"; "ss"] ->
     String.length (renderToken date tok) = 2%nat /\
     allChars isDigit (renderToken date tok) = true) /\
  (getHours date < 12 -> renderToken date "a" = "AM") /\
  (12 <= getHours date -> renderToken date "a" = "PM") /\
  String.length (formatWithPattern date (Some "hh:mm")) = 5%nat /\
  String.length (formatWithPattern date (Some "HH:mm:ss")) = 8%nat.
Proof.
  intros (HM & Hd & HH & Hm & Hs).
  assert (Hh12 : 0 <= h12 (getHours date) < 100)
    by (pose proof (h12_range _ HH) as (Hr & _); lia).
  assert (Htok : forall tok, In tok ["MM"; "dd"; "HH"; "hh"; "mm"; "ss"] ->
     String.length (renderToken date tok) = 2%nat /\
     allChars isDigit (renderToken date tok) = true).
  { intros tok Hin. cbn in Hin.
    repeat (destruct Hin as [<-|Hin];
            [unfold renderToken; cbn [lookup tokenMap String.eqb Ascii.eqb Bool.eqb];
             apply zeroPad_two_digits; lia|]).
    contradiction. }
  refine (conj Htok (conj _ (conj _ (conj _ _)))).
  - intros H. unfold renderToken. cbn. unfold ampm.
    now replace (getHours date <? 12) with true by (symmetry; apply Z.ltb_lt; lia).
  - intros H. unfold renderToken. cbn. unfold ampm.
    now replace (getHours date <? 12) with false by (symmetry; apply Z.ltb_ge; lia).
  - unfold formatWithPattern. cbn [orDefault nonEmpty].
    change "hh:mm" with ("hh" ++ ":mm").
    rewrite (expand_token date "hh" ":mm") by (reflexivity || discriminate).
    rewrite (expand_plain_char date ":" "mm") by reflexivity.
    change (expand date "mm") with (expand date ("mm" ++ "")).
    rewrite (expand_token date "mm" "") by (reflexivity || discriminate).
    rewrite length_append. cbn [String.length]. rewrite length_append.
    rewrite (proj1 (Htok "hh" ltac:(cbn; tauto))), (proj1 (Htok "mm" ltac:(cbn; tauto))).
    reflexivity.
  - unfold formatWithPattern. cbn [orDefault nonEmpty].
    change "HH:mm:ss" with ("HH" ++ ":mm:ss").
    rewrite (expand_token date "HH" ":mm:ss") by (reflexivity || discriminate).
    rewrite (expand_plain_char date ":" "mm:ss") by reflexivity.
    change (expand date "mm:ss") with (expand date ("mm" ++ ":ss")).
    rewrite (expand_token date "mm" ":ss") by (reflexivity || discriminate).
    rewrite (expand_plain_char date ":" "ss") by reflexivity.
    change (expand date "ss") with (expand date ("ss" ++ "")).
    rewrite (expand_token date "ss" "") by (reflexivity || discriminate).
    rewrite length_append. cbn [String.length]. rewrite length_append.
    cbn [String.length]. rewrite length_append.
    rewrite (proj1 (Htok "HH" ltac:(cbn; tauto))), (proj1 (Htok "mm" ltac:(cbn; tauto))),
      (proj1 (Htok "ss" ltac:(cbn; tauto))).
    reflexivity.
Qed.

Lemma two_digit_tokens_witness :
  String.length (formatWithPattern (mkDate 2024 0 5 0 7 9) (Some "hh:mm")) = 5%nat.
Proof.
  refine (proj1 (proj2 (proj2 (proj2 (two_digit_tokens (mkDate 2024 0 5 0 7 9) _))))).
  unfold valid_date; cbn; lia.
Defined.

Lemma truthy_some (z : Z) : z <> 0 -> truthy (Some z) = true.
Proof. intros H. cbn. now apply negb_true_iff, Z.eqb_neq. Qed.

(** From 100 on [zeroPad] adds nothing. *)
Lemma zeroPad_large (n : Z) : 100 <= n -> zeroPad n = toString n.
Proof.
  intros Hn. destruct n as [|p|p]; try lia.
  unfold zeroPad, padStart0.
  assert (Hlen : (2 <= String.length (toString (Z.pos p)))%nat).
  { unfold toString. cbn [Z.to_int].
    pose proof (DecimalPos.Unsigned.of_to p) as Hof.
    pose proof (DecimalPos.Unsigned.to_uint_nonnil p) as Hnn.
    unfold NilZero.string_of_int, NilZero.string_of_uint.
    destruct (Pos.to_uint p) as [|d|d|d|d|d|d|d|d|d|d] eqn:E; [congruence|..];
      (destruct d;
       [cbn in Hof; first [discriminate | injection Hof as <-; lia] | cbn; lia ..]). }
  replace (2 - String.length (toString (Z.pos p)))%nat with 0%nat by lia.
  reflexivity.
Qed.

(** X9. For epoch seconds below [2 ^ 32], the duration of a game that is
    not a daily game is the elapsed time as hours, a colon and minutes: the
    hours are the whole hours elapsed, written with two digits below 100 and
    in full from 100 on, without a cap and without rolling over into days,
    and the minutes are the whole minutes beyond the hours, written with two
    digits. It is empty when a time is missing (or is the epoch second 0) or
    the end precedes the start. *)
Theorem formatDuration_clock (start finish : Z) (timeClass : string) :
  epochSeconds start -> epochSeconds finish -> start <= finish ->
  toLowerCase timeClass <> "daily" ->
  let elapsed := finish - start in
  let hours := elapsed / 3600 in
  let minutes := (elapsed - 3600 * hours) / 60 in
  (hours < 100 ->
   formatDuration (Some start) (Some finish) timeClass =
     twoDigits hours ++ ":" ++ twoDigits minutes) /\
  (100 <= hours ->
   formatDuration (Some start) (Some finish) timeClass =
     toString hours ++ ":" ++ twoDigits minutes) /\
  0 <= hours /\ 0 <= minutes < 60 /\
  3600 * hours + 60 * minutes <= elapsed < 3600 * hours + 60 * minutes + 60 /\
  (forall tc, formatDuration None (Some finish) tc = "" /\
              formatDuration (Some start) None tc = "" /\
              formatDuration (Some 0) (Some finish) tc = "" /\
              (start < finish -> formatDuration (Some finish) (Some start) tc = "")).
Proof.
  intros [Hs Hs'] [Hf Hf'] Hle Htc elapsed hours minutes.
  assert (He : 0 <= elapsed) by (unfold elapsed; lia).
  assert (Hh : 0 <= hours) by (apply Z.div_pos; lia).
  assert (Hdm : elapsed = 3600 * hours + elapsed mod 3600) by (apply Z.div_mod; lia).
  assert (Hr : 0 <= elapsed mod 3600 < 3600) by (apply Z.mod_pos_bound; lia).
  assert (Hmin : minutes = (elapsed / 60) mod 60).
  { unfold minutes. replace (elapsed - 3600 * hours) with (elapsed mod 3600) by lia.
    change 3600 with (60 * 60). rewrite Z.rem_mul_r by lia.
    rewrite Z.mul_comm, Z.div_add by lia.
    rewrite (Z.div_small (elapsed mod 60) 60) by (apply Z.mod_pos_bound; lia).
    reflexivity. }
  assert (Hm : 0 <= minutes < 60) by (rewrite Hmin; apply Z.mod_pos_bound; lia).
  assert (Hdm2 : elapsed - 3600 * hours = 60 * minutes + (elapsed - 3600 * hours) mod 60)
    by (apply Z.div_mod; lia).
  assert (Hr2 : 0 <= (elapsed - 3600 * hours) mod 60 < 60)
    by (apply Z.mod_pos_bound; lia).
  assert (Hval : formatDuration (Some start) (Some finish) timeClass =
                 zeroPad hours ++ ":" ++ zeroPad minutes).
  { unfold formatDuration.
    rewrite (truthy_some start), (truthy_some finish) by lia.
    cbn [negb orb orZero].
    replace (finish <? start) with false by (symmetry; apply Z.ltb_ge; lia).
    replace (toLowerCase timeClass === "daily") with false
      by (symmetry; now apply String.eqb_neq).
    fold elapsed. cbv zeta.
    change 60000 with (60 * 1000). rewrite Z.div_mul_cancel_r by lia.
    rewrite Z.rem_mod_nonneg by (try apply Z.div_pos; lia).
    rewrite Z.div_div by lia. now rewrite Hmin. }
  refine (conj _ (conj _ (conj Hh (conj Hm (conj _ _))))).
  - intros H100. rewrite Hval, !zeroPad_twoDigits by lia. reflexivity.
  - intros H100. rewrite Hval, zeroPad_large, zeroPad_twoDigits by lia. reflexivity.
  - lia.
  - intros tc. unfold formatDuration.
    rewrite (truthy_some start), (truthy_some finish) by lia.
    cbn [truthy negb orb orZero Z.eqb]. repeat split.
    intros Hlt. now replace (start <? finish) with true by (symmetry; apply Z.ltb_lt; lia).
Qed.

Lemma formatDuration_clock_witness :
  formatDuration (Some 1704448000) (Some 1704449229) "blitz" = "00:20".
Proof.
  refine (proj1 (formatDuration_clock 1704448000 1704449229 "blitz" _ _ _ _) _);
    [unfold epochSeconds; lia | unfold epochSeconds; lia | lia | discriminate |
     reflexivity].
Defined.

(** X10. For epoch seconds below [2 ^ 32], the duration of a daily game is
    the elapsed time in days, rounded to the nearest day with a half rounded
    up, followed by " days"; it is "1 day" exactly for an elapsed time from
    12 hours up to, but not including, 36 hours. *)
Theorem formatDuration_daily (start finish : Z) (timeClass : string) :
  epochSeconds start -> epochSeconds finish -> start <= finish ->
  toLowerCase timeClass = "daily" ->
  let elapsed := finish - start in
  let days := (elapsed + 43200) / 86400 in
  formatDuration (Some start) (Some finish) timeClass =
    (if days =? 1 then "1 day" else toString days ++ " days") /\
  0 <= days /\
  86400 * days - 43200 <= elapsed < 86400 * days + 43200 /\
  (days = 1 <-> 43200 <= elapsed < 129600).
Proof.
  intros [Hs Hs'] [Hf Hf'] Hle Htc elapsed days.
  assert (Hdm : elapsed + 43200 = 86400 * days + (elapsed + 43200) mod 86400)
    by (apply Z.div_mod; lia).
  assert (Hmod : 0 <= (elapsed + 43200) mod 86400 < 86400)
    by (apply Z.mod_pos_bound; lia).
  assert (He0 : 0 <= elapsed) by (unfold elapsed; lia).
  refine (conj _ (conj _ (conj _ _))); try lia.
  unfold formatDuration. rewrite (truthy_some start), (truthy_some finish) by lia.
  cbn [negb orb orZero].
  replace (finish <? start) with false by (symmetry; apply Z.ltb_ge; lia).
  rewrite Htc. cbn [String.eqb Ascii.eqb Bool.eqb]. fold elapsed. cbv zeta.
  assert (He : 0 <= elapsed) by (unfold elapsed; lia).
  replace (2 * (elapsed * 1000) + 24 * 3600 * 1000) with ((elapsed + 43200) * 2000)
    by lia.
  change (2 * (24 * 3600 * 1000)) with (86400 * 2000).
  rewrite Z.div_mul_cancel_r by lia. fold days.
  rewrite Z.max_r by (apply Z.div_pos; lia). reflexivity.
Qed.

Lemma formatDuration_daily_witness :
  formatDuration (Some 1704448000) (Some (1704448000 + 3 * 86400 + 50000)) "Daily" =
  "4 days".
Proof.
  refine (eq_trans (proj1 (formatDuration_daily 1704448000
            (1704448000 + 3 * 86400 + 50000) "Daily" _ _ _ _)) _);
    [unfold epochSeconds; lia | unfold epochSeconds; lia | lia | reflexivity |
     reflexivity].
Defined.

(** *** Move counting: headers, comments and move numbers *)

Lemma splitBlankLine_nonempty (s : string) : splitBlankLine s <> [].
Proof.
  induction s as [|c s IH]; [discriminate|].
  cbn [splitBlankLine].
  assert (H : consHead c (splitBlankLine s) <> [])
    by (destruct (splitBlankLine s); discriminate).
  destruct s as [|d s]; [exact H|].
  destruct (isLF c && isLF d); [discriminate | exact H].
Qed.

Lemma splitBlankLine_two (c d : ascii) (s : string) :
  splitBlankLine (String c (String d s)) =
    if isLF c && isLF d then EmptyString :: splitBlankLine s
    else consHead c (splitBlankLine (String d s)).
Proof. reflexivity. Qed.

(** The first separator after a header block starts right behind it. *)
Lemma splitBlankLine_header (h m : string) :
  headerBlock h = true ->
  splitBlankLine (h ++ blankLine ++ m) = h :: splitBlankLine m.
Proof.
  induction h as [|c h IH]; intros Hh; [reflexivity|].
  destruct h as [|d h].
  - cbn [headerBlock] in Hh. apply negb_true_iff in Hh.
    change (String c "" ++ blankLine ++ m)
      with (String c (String (chr 10) (String (chr 10) m))).
    rewrite splitBlankLine_two, Hh. cbn [andb].
    rewrite splitBlankLine_two. reflexivity.
  - cbn [headerBlock] in Hh. apply andb_true_iff in Hh as [Hcd Hh].
    apply negb_true_iff in Hcd.
    change (String c (String d h) ++ blankLine ++ m)
      with (String c (String d (h ++ blankLine ++ m))).
    rewrite splitBlankLine_two, Hcd.
    change (String d (h ++ blankLine ++ m)) with (String d h ++ blankLine ++ m).
    now rewrite (IH Hh).
Qed.

Lemma lastPart_cons (p : string) (l : list string) :
  l <> [] -> lastPart (p :: l) = lastPart l.
Proof. destruct l; [congruence | reflexivity]. Qed.

(** X11. The headers do not count: for a text made of a header block, an
    empty line and the movetext, the plies are those of the movetext alone,
    and so is the number of full moves. A text that ends with the empty
    line, the movetext being empty, counts as one move. *)
Theorem countFullMovesFromPgn_ignores_headers (h m : string) :
  headerBlock h = true ->
  cleanTokens (h ++ blankLine ++ m) = cleanTokens m /\
  plyCount (h ++ blankLine ++ m) = plyCount m /\
  (m <> "" ->
   countFullMovesFromPgn (Some (h ++ blankLine ++ m)) = countFullMovesFromPgn (Some m)) /\
  countFullMovesFromPgn (Some (h ++ blankLine)) = "1".
Proof.
  intros Hh.
  assert (Hc : cleanTokens (h ++ blankLine ++ m) = cleanTokens m).
  { unfold cleanTokens. rewrite (splitBlankLine_header h m Hh).
    now rewrite lastPart_cons by apply splitBlankLine_nonempty. }
  assert (Hp : plyCount (h ++ blankLine ++ m) = plyCount m)
    by (unfold plyCount; now rewrite Hc).
  assert (Hne : forall x, nonEmpty (h ++ blankLine ++ x) = true).
  { intros x. apply nonEmpty_true, append_nonempty_r. discriminate. }
  refine (conj Hc (conj Hp (conj _ _))).
  - intros Hm. unfold countFullMovesFromPgn.
    now rewrite Hne, Hp, (nonEmpty_true m Hm).
  - unfold countFullMovesFromPgn.
    rewrite <- (append_nil_r blankLine), Hne.
    unfold plyCount, cleanTokens. rewrite (splitBlankLine_header h "" Hh).
    reflexivity.
Qed.

Lemma countFullMovesFromPgn_ignores_headers_witness :
  countFullMovesFromPgn
    (Some (("[Event Live Chess]" ++ newline ++ "[Result 1-0]")
           ++ blankLine ++ "1. e4 e5 2. Nf3 Nc6 3. Bb5 1-0" ++ newline))
  = countFullMovesFromPgn (Some ("1. e4 e5 2. Nf3 Nc6 3. Bb5 1-0" ++ newline)).
Proof.
  refine (proj1 (proj2 (proj2 (countFullMovesFromPgn_ignores_headers _ _ _))) _);
    [reflexivity | discriminate].
Defined.

Lemma indexOf_first (cl : ascii) (c post : string) :
  allChars (fun x => negb (x =? cl)%char) c = true ->
  indexOf cl (c ++ String cl post) = Some (String.length c).
Proof.
  induction c as [|x c IH]; intros H.
  - cbn. now rewrite Ascii.eqb_refl.
  - cbn [allChars] in H. apply andb_true_iff in H as [Hx H].
    apply negb_true_iff in Hx. cbn [String.append indexOf String.length].
    now rewrite Hx, (IH H).
Qed.

Lemma indexOf_none (cl : ascii) (s : string) :
  allChars (fun x => negb (x =? cl)%char) s = true -> indexOf cl s = None.
Proof.
  induction s as [|x s IH]; intros H; [reflexivity|].
  cbn [allChars] in H. apply andb_true_iff in H as [Hx H].
  apply negb_true_iff in Hx. cbn [indexOf]. now rewrite Hx, (IH H).
Qed.

Lemma stripDelimited_skip (op cl : ascii) (t s : string) :
  stripDelimited op cl (String.length t) (t ++ s) = stripDelimited op cl 0 s.
Proof. induction t as [|x t IH]; [reflexivity | exact IH]. Qed.

Lemma stripDelimited_plain (op cl : ascii) (pre s : string) :
  allChars (fun x => negb (x =? op)%char) pre = true ->
  stripDelimited op cl 0 (pre ++ s) = pre ++ stripDelimited op cl 0 s.
Proof.
  induction pre as [|x pre IH]; intros H; [reflexivity|].
  cbn [allChars] in H. apply andb_true_iff in H as [Hx H].
  apply negb_true_iff in Hx. cbn [String.append stripDelimited].
  now rewrite Hx, (IH H).
Qed.

(** X12. A comment in braces, or a variation in parentheses, becomes one
    space whatever it holds up to its first closing character; the text
    before the first opening character is kept and the text after the
    closing one is treated on its own. Without a closing character in the
    text nothing is removed, so the words of an unclosed comment stay. *)
Theorem stripDelimited_comment (op cl : ascii) (pre c post : string) :
  allChars (fun x => negb (x =? op)%char) pre = true ->
  allChars (fun x => negb (x =? cl)%char) c = true ->
  stripDelimited op cl 0 (pre ++ String op (c ++ String cl post))
    = pre ++ " " ++ stripDelimited op cl 0 post /\
  (forall s, allChars (fun x => negb (x =? cl)%char) s = true ->
     stripDelimited op cl 0 s = s).
Proof.
  intros Hpre Hc. split.
  - rewrite stripDelimited_plain by exact Hpre. f_equal.
    cbn [stripDelimited]. rewrite Ascii.eqb_refl, (indexOf_first cl c post Hc).
    cbn [String.append]. f_equal.
    replace (c ++ String cl post) with ((c ++ String cl "") ++ post)
      by (rewrite append_assoc; reflexivity).
    replace (S (String.length c)) with (String.length (c ++ String cl ""))
      by (rewrite length_append; cbn [String.length]; lia).
    apply stripDelimited_skip.
  - induction s as [|x s IH]; intros H; [reflexivity|].
    cbn [allChars] in H. apply andb_true_iff in H as [Hx H].
    cbn [stripDelimited]. rewrite (indexOf_none cl s H), (IH H).
    now destruct (x =? op)%char.
Qed.

Lemma stripDelimited_comment_witness :
  stripDelimited "{" "}" 0 ("1. e4 " ++ String "{" ("[%clk 0:02:59] (best) 1-0" ++ String "}" " e5"))
  = "1. e4 " ++ " " ++ stripDelimited "{" "}" 0 " e5".
Proof.
  refine (proj1 (stripDelimited_comment "{" "}" "1. e4 " "[%clk 0:02:59] (best) 1-0" " e5" _ _));
    reflexivity.
Defined.

Lemma dropDigits_app (ds rest : string) :
  allChars isDigit ds = true -> startsWithDigit rest = false ->
  dropDigits (ds ++ rest) = rest.
Proof.
  induction ds as [|d ds IH]; intros Hd Hr.
  - destruct rest as [|c rest]; [reflexivity|]. cbn in *. now rewrite Hr.
  - cbn [allChars] in Hd. apply andb_true_iff in Hd as [Hd0 Hd].
    cbn [String.append dropDigits]. rewrite Hd0. now apply IH.
Qed.

Lemma digit_facts (d : ascii) :
  isDigit d = true ->
  (d =? "$")%char = false /\ (d =? "*")%char = false /\ (d =? "-")%char = false /\
  (d =? "/")%char = false /\ (d =? "!")%char = false /\ (d =? "?")%char = false /\
  (d =? "+")%char = false /\ (d =? "#")%char = false /\ (d =? ".")%char = false.
Proof.
  destruct d as [[] [] [] [] [] [] [] []]; vm_compute; intros H;
    repeat split; congruence.
Qed.

(** X13. Which tokens pass for move numbers. A run of digits followed by
    one dot, or by three dots and anything, is a move-number marker and is
    not counted: this drops a black move written right behind its number,
    as in [12...Nf6]. A run of digits, one dot and a move written right
    behind it, as in [12.Nf3], is no marker and is counted as a ply. *)
Theorem move_number_tokens (ds rest : string) (c : ascii) :
  allChars isDigit ds = true -> ds <> "" ->
  isMoveNumber (ds ++ ".") = true /\
  isMoveNumber (ds ++ "..." ++ rest) = true /\
  ((c =? ".")%char = false -> isDigit c = false ->
   isMoveNumber (ds ++ "." ++ String c rest) = false /\
   isCleanToken (ds ++ "." ++ String c rest) = true).
Proof.
  intros Hd Hne.
  destruct ds as [|d ds]; [congruence|].
  pose proof Hd as Hd'. cbn [allChars] in Hd'.
  apply andb_true_iff in Hd' as [Hd0 Hds].
  pose proof (digit_facts d Hd0) as (F1 & F2 & F3 & F4 & F5 & F6 & F7 & F8 & F9).
  refine (conj _ (conj _ _)).
  - unfold isMoveNumber. rewrite dropDigits_app by (assumption || reflexivity).
    cbn [String.append startsWithDigit]. now rewrite Hd0, orb_true_r.
  - unfold isMoveNumber. rewrite dropDigits_app by (assumption || reflexivity).
    rewrite (startsWith_app "..." rest).
    cbn [String.append startsWithDigit]. now rewrite Hd0.
  - intros Hc Hcd. split.
    + unfold isMoveNumber. rewrite dropDigits_app by (assumption || reflexivity).
      cbn [String.append startsWithDigit startsWith String.eqb]. rewrite Hd0.
      rewrite (Ascii.eqb_sym "." c), Hc. cbn [andb orb].
      now rewrite Ascii.eqb_refl.
    + unfold isCleanToken.
      assert (Hsecond : exists x t, ds ++ "." ++ String c rest = String x t /\
                (x =? "-")%char = false /\ (x =? "/")%char = false).
      { destruct ds as [|e ds].
        - exists "."%char, (String c rest). repeat split.
        - cbn [allChars] in Hds. apply andb_true_iff in Hds as [He _].
          pose proof (digit_facts e He) as (_ & _ & G3 & G4 & _).
          exists e, (ds ++ "." ++ String c rest). repeat split; assumption. }
      destruct Hsecond as (x & t & Et & Hx1 & Hx2).
      change (String d ds ++ "." ++ String c rest)
        with (String d (ds ++ "." ++ String c rest)).
      rewrite Et.
      assert (Hnag : isNag (String d (String x t)) = false)
        by (cbn [isNag]; now rewrite F1).
      assert (Hddd : isDigitDashDigit (String d (String x t)) = false).
      { cbn [isDigitDashDigit]. destruct t as [|y [|z t]]; try reflexivity.
        rewrite Hx1. now destruct (isDigit d). }
      assert (Hstar : (String d (String x t) === "*") = false)
        by (cbn [String.eqb]; now rewrite F2).
      assert (Hres : (String d (String x t) === "1-0") || (String d (String x t) === "0-1")
                     || (String d (String x t) === "1/2-1/2") = false).
      { cbn [String.eqb]. rewrite Hx1, Hx2. cbn [andb].
        now destruct (d =? "1")%char, (d =? "0")%char. }
      assert (Hglyph : isGlyphRun (String d (String x t)) = false).
      { unfold isGlyphRun. cbn [nonEmpty allChars]. now rewrite F5, F6, F7, F8. }
      cbn [nonEmpty]. now rewrite Hnag, Hddd, Hstar, Hres, Hglyph.
Qed.

Lemma move_number_tokens_witness :
  isMoveNumber ("12" ++ "..." ++ "Nf6") = true /\
  isCleanToken ("12" ++ "." ++ String "N" "f3") = true.
Proof.
  destruct (move_number_tokens "12" "Nf6" "N" eq_refl ltac:(discriminate))
    as (_ & H1 & _).
  destruct (move_number_tokens "12" "f3" "N" eq_refl ltac:(discriminate))
    as (_ & _ & H2).
  split; [exact H1 | apply (H2 eq_refl eq_refl)].
Defined.

(** *** The template variables *)

Lemma knownKeys_plain_all : forallb plainKey knownKeys = true.
Proof. reflexivity. Qed.

Lemma knownKeys_not_legacy :
  forallb (fun k => negb (existsb (String.eqb k) legacyKeys)) knownKeys = true.
Proof. reflexivity. Qed.

Lemma knownKeys_NoDup : NoDup knownKeys.
Proof.
  unfold knownKeys.
  repeat (constructor; [cbn [In]; intuition discriminate|]).
  constructor.
Qed.

(** X14. [buildTemplateVars] always produces the same 35 keys, in the same
    order, whatever the game: the keys are distinct identifiers, and none of
    them is one of the legacy names that [renderTemplate] blanks out. *)
Theorem buildTemplateVars_keys
    (fetchArchives : string -> outcome (list string))
    (fetchMonth : string -> outcome (list GameItem))
    (localDate : Z -> JsDate)
    (g : GameItem) (me : Color) (lookupUsername dateFormat timeFormat : option string) :
  let vars := buildTemplateVars fetchArchives fetchMonth localDate g me
                lookupUsername dateFormat timeFormat in
  keysOf vars = knownKeys /\
  List.length vars = 35%nat /\
  NoDup (keysOf vars) /\
  (forall k, In k (keysOf vars) -> plainKey k = true /\ ~ In k legacyKeys) /\
  (forall k, In k (keysOf vars) -> exists v, lookup k vars = Some v).
Proof.
  intros vars.
  assert (Hk : keysOf vars = knownKeys) by reflexivity.
  refine (conj Hk (conj eq_refl (conj _ (conj _ _)))).
  - rewrite Hk. apply knownKeys_NoDup.
  - rewrite Hk. intros k Hin. split.
    + pose proof knownKeys_plain_all as Hp. rewrite forallb_forall in Hp. now apply Hp.
    + pose proof knownKeys_not_legacy as Hn. rewrite forallb_forall in Hn.
      specialize (Hn k Hin). apply negb_true_iff in Hn. intros Hl.
      assert (existsb (String.eqb k) legacyKeys = true)
        by (apply existsb_exists; exists k; split; [exact Hl | apply String.eqb_refl]).
      congruence.
  - rewrite Hk. intros k Hin. cbn [knownKeys In] in Hin.
    repeat (destruct Hin as [<-|Hin]; [eexists; reflexivity|]).
    contradiction.
Qed.

(** X15. No side is both the winner and the loser: the winner fields and
    the loser fields never come from the same side, whatever the two result
    codes are. *)
Theorem winner_and_loser_differ (g : GameItem) (c c' : Color) :
  sideWith Win g = Some c -> sideWith Loss g = Some c' -> c <> c'.
Proof.
  unfold sideWith.
  destruct (outcomeCategory (result (orNoPlayer (white g)))) eqn:Ew;
    destruct (outcomeCategory (result (orNoPlayer (black g)))) eqn:Eb;
    cbn; intros H1 H2; congruence.
Qed.

Lemma winner_and_loser_differ_witness :
  white_side <> black_side.
Proof.
  exact (winner_and_loser_differ blitzGame white_side black_side eq_refl eq_refl).
Defined.

(** X16. Focus and foe are the two sides of the game. When the normal form
    of the focus name is that of white's name, the focus fields are the
    white fields and the foe fields are the black fields; else, when it is
    that of black's name, the focus fields are the black fields and the foe
    fields the white fields; else the colour the caller gave decides in the
    same way. The focus name is the name of its side, or the name looked up
    when that side has no name. *)
Theorem buildTemplateVars_focus_and_foe
    (fetchArchives : string -> outcome (list string))
    (fetchMonth : string -> outcome (list GameItem))
    (localDate : Z -> JsDate)
    (g : GameItem) (me : Color) (lookupUsername dateFormat timeFormat : option string) :
  let vars := buildTemplateVars fetchArchives fetchMonth localDate g me
                lookupUsername dateFormat timeFormat in
  let norm := normalizeUsername (Some (lookupNameOf g me lookupUsername)) in
  let whiteNorm := normalizeUsername (username (orNoPlayer (white g))) in
  let blackNorm := normalizeUsername (username (orNoPlayer (black g))) in
  let sides (focus foe : string) :=
    lookup "focus_rating" vars = lookup (focus ++ "_rating") vars /\
    lookup "focus_result" vars = lookup (focus ++ "_result") vars /\
    (lookup focus vars <> Some "" ->
     lookup "focus" vars = lookup focus vars /\
     lookup "focus_url" vars = lookup (focus ++ "_url") vars) /\
    (lookup focus vars = Some "" ->
     lookup "focus" vars = Some (lookupNameOf g me lookupUsername)) /\
    lookup "foe" vars = lookup foe vars /\
    lookup "foe_url" vars = lookup (foe ++ "_url") vars /\
    lookup "foe_rating" vars = lookup (foe ++ "_rating") vars /\
    lookup "foe_result" vars = lookup (foe ++ "_result") vars in
  (norm = whiteNorm -> sides "white" "black") /\
  (norm <> whiteNorm -> norm = blackNorm -> sides "black" "white") /\
  (norm <> whiteNorm -> norm <> blackNorm -> me = white_side -> sides "white" "black") /\
  (norm <> whiteNorm -> norm <> blackNorm -> me = black_side -> sides "black" "white") /\
  (let shown := buildTemplateVars oneArchive (monthOf []) fixedDate rapidGame
                  white_side (Some " SomeOne ") None None in
   lookup "focus" shown = Some "someone" /\ lookup "focus_rating" shown = Some "1490" /\
   lookup "focus_result" shown = Some "Lost" /\
   lookup "foe" shown = Some "third" /\ lookup "foe_rating" shown = Some "1600" /\
   lookup "foe_result" shown = Some "Won" /\
   lookup "foe_url" shown = Some "https://www.chess.com/member/third").
Proof.
  intros vars norm whiteNorm blackNorm sides.
  set (side := lookupSideOf g me lookupUsername).
  assert (Hw : forall x, sameOpt norm x = true <-> norm = x) by (intros; apply sameOpt_eq).
  assert (Hside : (norm = whiteNorm -> side = white_side) /\
     (norm <> whiteNorm -> norm = blackNorm -> side = black_side) /\
     (norm <> whiteNorm -> norm <> blackNorm -> side = me)).
  { unfold side, lookupSideOf. fold norm whiteNorm blackNorm.
    destruct (sameOpt norm whiteNorm) eqn:E1.
    - apply Hw in E1. repeat split; congruence.
    - assert (N1 : norm <> whiteNorm) by (intros E; apply Hw in E; congruence).
      destruct (sameOpt norm blackNorm) eqn:E2.
      + apply Hw in E2. repeat split; congruence.
      + assert (N2 : norm <> blackNorm) by (intros E; apply Hw in E; congruence).
        repeat split; congruence. }
  destruct Hside as (S1 & S2 & S3).
  set (focusPlayer := playerOn g side).
  set (foePlayer := playerOn g (otherSide side)).
  assert (F1 : lookup "focus_rating" vars = Some (ratingText (rating focusPlayer)))
    by reflexivity.
  assert (F2 : lookup "focus_result" vars =
               Some (pastTenseLabel (outcomeCategory (result focusPlayer))))
    by reflexivity.
  assert (F3 : lookup "focus" vars =
               Some (if nonEmpty (orEmpty (username focusPlayer))
                     then orEmpty (username focusPlayer)
                     else lookupNameOf g me lookupUsername)) by reflexivity.
  assert (F4 : lookup "focus_url" vars =
               Some (profileUrl (Some (if nonEmpty (orEmpty (username focusPlayer))
                     then orEmpty (username focusPlayer)
                     else lookupNameOf g me lookupUsername)))) by reflexivity.
  assert (F5 : lookup "foe" vars = Some (orEmpty (username foePlayer))) by reflexivity.
  assert (F6 : lookup "foe_url" vars = Some (profileUrl (username foePlayer)))
    by reflexivity.
  assert (F7 : lookup "foe_rating" vars = Some (ratingText (rating foePlayer)))
    by reflexivity.
  assert (F8 : lookup "foe_result" vars =
               Some (pastTenseLabel (outcomeCategory (result foePlayer))))
    by reflexivity.
  assert (Hname : forall p : PlayerRef,
            (Some (orEmpty (username p)) <> Some "" ->
             Some (if nonEmpty (orEmpty (username p)) then orEmpty (username p)
                   else lookupNameOf g me lookupUsername) = Some (orEmpty (username p)) /\
             Some (profileUrl (Some (if nonEmpty (orEmpty (username p))
                                     then orEmpty (username p)
                                     else lookupNameOf g me lookupUsername)))
               = Some (profileUrl (username p))) /\
            (Some (orEmpty (username p)) = Some "" ->
             Some (if nonEmpty (orEmpty (username p)) then orEmpty (username p)
                   else lookupNameOf g me lookupUsername)
               = Some (lookupNameOf g me lookupUsername))).
  { intros p. destruct (username p) as [[|c n]|]; cbn [orEmpty nonEmpty]; split;
      intros H; try congruence; split; reflexivity. }
  assert (Hwhite : side = white_side -> sides "white" "black").
  { intros Hs. unfold sides. rewrite F1, F2, F3, F4, F5, F6, F7, F8.
    unfold focusPlayer, foePlayer. rewrite Hs. cbn [playerOn otherSide].
    destruct (Hname (orNoPlayer (white g))) as [N1 N2].
    exact (conj eq_refl (conj eq_refl (conj N1 (conj N2
             (conj eq_refl (conj eq_refl (conj eq_refl eq_refl))))))). }
  assert (Hblack : side = black_side -> sides "black" "white").
  { intros Hs. unfold sides. rewrite F1, F2, F3, F4, F5, F6, F7, F8.
    unfold focusPlayer, foePlayer. rewrite Hs. cbn [playerOn otherSide].
    destruct (Hname (orNoPlayer (black g))) as [N1 N2].
    exact (conj eq_refl (conj eq_refl (conj N1 (conj N2
             (conj eq_refl (conj eq_refl (conj eq_refl eq_refl))))))). }
  refine (conj _ (conj _ (conj _ (conj _ _)))).
  - intros H. apply Hwhite. now apply S1.
  - intros H1 H2. apply Hblack. now apply S2.
  - intros H1 H2 Hme. apply Hwhite. rewrite <- Hme. now apply S3.
  - intros H1 H2 Hme. apply Hblack. rewrite <- Hme. now apply S3.
  - repeat split; vm_compute; reflexivity.
Qed.

Lemma sameOpt_sym (a b : option string) : sameOpt a b = sameOpt b a.
Proof.
  destruct a as [x|], b as [y|]; cbn; try reflexivity. apply String.eqb_sym.
Qed.

Lemma toLowerCase_nonEmpty (s : string) : nonEmpty (toLowerCase s) = nonEmpty s.
Proof. now destruct s. Qed.

Lemma lookupSideOf_of_norm (g : GameItem) (me : Color) (lookupUsername : option string)
    (u : string) :
  normalizeUsername (Some (lookupNameOf g me lookupUsername)) = Some u ->
  sideOfUser u g = Some me ->
  lookupSideOf g me lookupUsername = me.
Proof.
  intros Hn Hs. unfold lookupSideOf. rewrite Hn.
  unfold sideOfUser in Hs.
  rewrite (sameOpt_sym (Some u) (normalizeUsername (username (orNoPlayer (white g))))).
  rewrite (sameOpt_sym (Some u) (normalizeUsername (username (orNoPlayer (black g))))).
  destruct (sameOpt (normalizeUsername (username (orNoPlayer (white g)))) (Some u));
    [congruence|].
  destruct (sameOpt (normalizeUsername (username (orNoPlayer (black g)))) (Some u));
    [congruence | reflexivity].
Qed.

(** X17. The focus is the player the resolver found. For a game returned by
    [getLastGameForUser], a lookup name that is blank or has the normal form
    of the requested name puts the focus on the colour the resolver
    reported; this is so for the name [fetchInsert] hands over, which is
    the lookup name or else the requested name. *)
Theorem focus_is_the_resolved_side
    (fetchArchives : string -> outcome (list string))
    (fetchMonth : string -> outcome (list GameItem))
    (user : string) (timeClass : option string) (r : Resolved) :
  getLastGameForUser fetchArchives fetchMonth user timeClass = Ok (Some r) ->
  (forall lookupUsername,
     trim (orEmpty lookupUsername) = "" \/
     normalizeUsername lookupUsername = normalizeUsername (Some user) ->
     lookupSideOf (game r) (meColor r) lookupUsername = meColor r) /\
  lookupSideOf (game r) (meColor r) (Some (orIfEmpty "" user)) = meColor r /\
  lookupSideOf (game r) (meColor r) (Some (orIfEmpty user user)) = meColor r.
Proof.
  intros H.
  assert (Hu : nonEmpty (toLowerCase (trim user)) = true).
  { revert H. unfold getLastGameForUser. cbn [normalizeUsername].
    now destruct (nonEmpty (toLowerCase (trim user))). }
  assert (Hside : sideOfUser (toLowerCase (trim user)) (game r) = Some (meColor r)).
  { revert H. unfold getLastGameForUser. cbn [normalizeUsername]. rewrite Hu.
    destruct (fetchArchives _); [|discriminate]. cbn [bind].
    intros H. now apply scanLast_invariant in H. }
  assert (Hgen : forall lookupUsername,
     trim (orEmpty lookupUsername) = "" \/
     normalizeUsername lookupUsername = normalizeUsername (Some user) ->
     lookupSideOf (game r) (meColor r) lookupUsername = meColor r).
  { intros lu Hlu. apply (lookupSideOf_of_norm _ _ _ (toLowerCase (trim user)));
      [|exact Hside].
    unfold lookupNameOf. destruct Hlu as [Hblank | Hsame].
    - rewrite Hblank. cbn [nonEmpty].
      apply sideOfUser_spec in Hside.
      destruct (meColor r); cbn [playerOn] in Hside;
        destruct (username (orNoPlayer _)) as [raw|]; try discriminate;
        exact Hside.
    - destruct lu as [l|]; [|discriminate]. cbn [normalizeUsername orEmpty] in *.
      injection Hsame as Hsame.
      assert (Hne : nonEmpty (trim l) = true)
        by (rewrite <- toLowerCase_nonEmpty, Hsame; exact Hu).
      rewrite Hne, trim_idempotent. now rewrite Hsame. }
  refine (conj Hgen (conj _ _)); apply Hgen; right.
  - unfold orIfEmpty. cbn [nonEmpty]. reflexivity.
  - unfold orIfEmpty. now destruct (nonEmpty user).
Qed.

Lemma focus_is_the_resolved_side_witness :
  lookupSideOf rapidGame black_side (Some (orIfEmpty "" " SomeOne")) = black_side.
Proof.
  exact (proj1 (proj2 (focus_is_the_resolved_side twoArchives twoMonths " SomeOne" None
           (mkResolved rapidGame black_side " SomeOne") eq_refl))).
Defined.

Lemma toString_inj (a b : Z) : toString a = toString b -> a = b.
Proof.
  unfold toString. intros H.
  assert (Hnn : forall z, Z.to_int z <> Decimal.Pos Decimal.Nil /\
                          Z.to_int z <> Decimal.Neg Decimal.Nil).
  { intros [|p|p]; cbn; split; try discriminate;
      intros E; injection E as E; now apply DecimalPos.Unsigned.to_uint_nonnil in E. }
  assert (E : Some (Z.to_int a) = Some (Z.to_int b)).
  { rewrite <- (NilZero.isi (Z.to_int a)) by apply Hnn.
    rewrite <- (NilZero.isi (Z.to_int b)) by apply Hnn. now rewrite H. }
  injection E as E. rewrite <- (DecimalZ.of_to a), <- (DecimalZ.of_to b).
  now rewrite E.
Qed.

Lemma uint_head_digit (d : Decimal.uint) :
  exists c t, NilZero.string_of_uint d = String c t /\ isDigit c = true.
Proof.
  unfold NilZero.string_of_uint.
  destruct d; cbn; eexists; eexists; split; reflexivity.
Qed.

Lemma toString_head (z : Z) :
  exists c t, toString z = String c t /\
    (z < 0 -> c = "-"%char) /\ (0 <= z -> isDigit c = true).
Proof.
  unfold toString. destruct z as [|p|p]; cbn [Z.to_int NilZero.string_of_int].
  - exists "0"%char, "". repeat split. lia.
  - destruct (uint_head_digit (Pos.to_uint p)) as (c & t & E & Hc).
    exists c, t. repeat split; [exact E | lia | now intros _].
  - eexists; eexists; split; [reflexivity|]. split; [reflexivity | lia].
Qed.

(** X18. The text of a rating change determines the change: different
    differences are written differently. A gain starts with a plus sign, a
    loss with a minus sign, and the text is "0" exactly for no change. *)
Theorem signedDelta_faithful (a b : Z) :
  (signedDelta a = signedDelta b -> a = b) /\
  (0 < a -> exists t, signedDelta a = String "+" t /\ t = toString a) /\
  (a < 0 -> exists t, signedDelta a = String "-" t) /\
  (signedDelta a = "0" <-> a = 0) /\
  signedDelta a <> "" /\ signedDelta a <> "N/A".
Proof.
  assert (Hplus : forall z, 0 < z -> signedDelta z = String "+" (toString z)).
  { intros z Hz. unfold signedDelta.
    now replace (z >? 0) with true by (symmetry; rewrite Z.gtb_ltb; apply Z.ltb_lt; lia). }
  assert (Hnon : forall z, z <= 0 -> signedDelta z = toString z).
  { intros z Hz. unfold signedDelta.
    now replace (z >? 0) with false by (symmetry; rewrite Z.gtb_ltb; apply Z.ltb_ge; lia). }
  assert (Hnoplus : forall z t, toString z <> String "+" t).
  { intros z t E. destruct (toString_head z) as (c & t' & E' & Hneg & Hpos).
    rewrite E' in E. injection E as -> _.
    destruct (Z.lt_ge_cases z 0) as [Hz|Hz].
    - specialize (Hneg Hz). discriminate.
    - specialize (Hpos Hz). discriminate. }
  assert (Hinj : forall x y, signedDelta x = signedDelta y -> x = y).
  { intros x y E.
    destruct (Z.lt_ge_cases 0 x) as [Hx|Hx]; destruct (Z.lt_ge_cases 0 y) as [Hy|Hy].
    - rewrite (Hplus x Hx), (Hplus y Hy) in E. injection E as E. now apply toString_inj.
    - rewrite (Hplus x Hx), (Hnon y Hy) in E. symmetry in E. now apply Hnoplus in E.
    - rewrite (Hnon x Hx), (Hplus y Hy) in E. now apply Hnoplus in E.
    - rewrite (Hnon x Hx), (Hnon y Hy) in E. now apply toString_inj. }
  refine (conj (Hinj a b) (conj _ (conj _ (conj _ (conj _ _))))).
  - intros Ha. exists (toString a). split; [now apply Hplus | reflexivity].
  - intros Ha. rewrite (Hnon a) by lia.
    destruct (toString_head a) as (c & t & E & Hneg & _).
    exists t. now rewrite E, (Hneg Ha).
  - split; [intros E; apply Hinj; exact E | now intros ->].
  - destruct (Z.lt_ge_cases 0 a) as [Ha|Ha].
    + rewrite (Hplus a Ha). discriminate.
    + rewrite (Hnon a Ha). apply toString_nonempty.
  - destruct (Z.lt_ge_cases 0 a) as [Ha|Ha].
    + rewrite (Hplus a Ha). discriminate.
    + rewrite (Hnon a Ha). destruct (toString_head a) as (c & t & E & Hneg & Hpos).
      rewrite E. intros E2. injection E2 as -> _.
      destruct (Z.lt_ge_cases a 0) as [Hz|Hz].
      * specialize (Hneg Hz). discriminate.
      * specialize (Hpos Hz). discriminate.
Qed.

(** *** Rendering, further *)

Lemma renderTemplate_as_passes (tpl : string) (vars : list (string * option string)) :
  renderTemplate (Some tpl) vars =
  trim (substituteVars
          (normalizeVarsToNA vars ++ map (fun key => (key, "N/A")) legacyKeys) tpl).
Proof.
  unfold renderTemplate. cbn [orEmpty].
  now rewrite blankLegacy_as_passes, <- substituteVars_app.
Qed.

Lemma renderTemplate_untouched (tpl : string) (vars : list (string * option string)) :
  Forall (fun kv => hasHandlebar (fst kv) tpl = false) vars ->
  Forall (fun key => hasHandlebar key tpl = false) legacyKeys ->
  renderTemplate (Some tpl) vars = trim tpl.
Proof.
  intros Hv Hl. rewrite renderTemplate_as_passes. f_equal.
  apply substituteVars_no_handlebar. apply Forall_app. split.
  - apply (normalized_pairs (fun a _ => hasHandlebar a tpl = false)), Hv.
  - apply (legacy_pairs (fun a _ => hasHandlebar a tpl = false)), Hl.
Qed.

(** X19. With identifier keys, a template in which no variable and no
    legacy name has a handlebar is only trimmed, whatever the values are;
    this is so in particular for a template without an opening brace. *)
Theorem renderTemplate_without_handlebars (tpl : string)
    (vars : list (string * option string)) :
  Forall (fun kv => plainKey (fst kv) = true) vars ->
  (Forall (fun kv => hasHandlebar (fst kv) tpl = false) vars ->
   Forall (fun key => hasHandlebar key tpl = false) legacyKeys ->
   renderTemplate (Some tpl) vars = trim tpl) /\
  (openFree tpl = true -> renderTemplate (Some tpl) vars = trim tpl).
Proof.
  intros _. split.
  - intros Hv Hl. now apply renderTemplate_untouched.
  - intros Ho. apply renderTemplate_untouched; apply Forall_forall; intros x _;
      now apply hasHandlebar_openFree.
Qed.

Lemma renderTemplate_without_handlebars_witness :
  renderTemplate (Some " {white} $& {{ nobody }} ")
    [("white", Some "Someone"); ("rules", Some "$&")]
  = trim " {white} $& {{ nobody }} ".
Proof.
  refine (proj1 (renderTemplate_without_handlebars " {white} $& {{ nobody }} "
            [("white", Some "Someone"); ("rules", Some "$&")] _) _ _).
  - repeat constructor.
  - repeat constructor.
  - repeat constructor.
Defined.


(** X21. In a template made of text without braces and of handlebars, with
    identifier keys and values of the same make without a dollar sign, a
    handlebar of an unknown name stays in the output as it was written: a
    name that is neither a variable nor a legacy name is not substituted
    and not blanked, and the text before it and the text after it are
    rendered as each would be on its own. *)
Theorem renderTemplate_keeps_unknown_handlebar
    (pre post : list segment) (entries : list (string * option (list segment)))
    (k w1 w2 : string) :
  forallb wellFormed pre = true -> forallb wellFormed post = true ->
  forallb entryOk entries = true ->
  plainKey k = true -> spaces w1 = true -> spaces w2 = true ->
  ~ In k (map fst entries) -> ~ In k legacyKeys ->
  let out s := blankLegacy (substituteVars (normalizeVarsToNA (varsOf entries)) s) in
  renderTemplate (Some (textOf pre ++ handlebar w1 k w2 ++ textOf post)) (varsOf entries)
    = trim (out (textOf pre) ++ handlebar w1 k w2 ++ out (textOf post)).
Proof.
  intros Hpre Hpost He Hk H1 H2 Hvars Hleg out.
  assert (Hwhole : forallb wellFormed (pre ++ Bar w1 k w2 :: post) = true).
  { rewrite forallb_app. cbn [forallb wellFormed]. now rewrite Hpre, Hpost, H1, Hk, H2. }
  assert (Hkeys : ~ In k (map fst (passesOf entries))).
  { unfold passesOf. rewrite map_app, !map_map. cbn [fst]. rewrite map_id.
    intros Hin. apply in_app_or in Hin as [Hin|Hin]; [|contradiction].
    apply Hvars. now rewrite <- (map_map fst (fun x => x)), map_id in Hin || exact Hin. }
  replace (textOf pre ++ handlebar w1 k w2 ++ textOf post)
    with (textOf (pre ++ Bar w1 k w2 :: post))
    by (now rewrite textOf_app, textOf_cons).
  rewrite (renderTemplate_segments _ _ Hwhole He).
  unfold out. rewrite !substituteAll_segments by assumption.
  rewrite resolveAll_unknown by exact Hkeys.
  now rewrite textOf_app, textOf_cons.
Qed.

Lemma renderTemplate_keeps_unknown_handlebar_witness :
  renderTemplate (Some "- {{end_date}} [{{white}}] {{ elo }} {{lookup}} ")
    [("end_date", Some "2024-01-05"); ("white", Some "Someone")]
  = "- 2024-01-05 [Someone] {{ elo }} N/A".
Proof.
  refine (renderTemplate_keeps_unknown_handlebar
            [Text "- "; Bar "" "end_date" ""; Text " ["; Bar "" "white" ""; Text "] "]
            [Text " "; Bar "" "lookup" ""; Text " "]
            [("end_date", Some [Text "2024-01-05"]); ("white", Some [Text "Someone"])]
            "elo" " " " " _ _ _ _ _ _ _ _); try reflexivity.
  - cbn. intuition discriminate.
  - cbn. intuition discriminate.
Defined.



(** *** The busy indicator and [fetchInsert] *)

Lemma iter_beginBusy_count (text : string) (n : nat) (b : Plugin.Busy) :
  Plugin.busyCount (Nat.iter n (Plugin.beginBusy text) b)
    = Plugin.busyCount b + Z.of_nat n.
Proof.
  induction n as [|n IH]; [cbn; lia|].
  change (Nat.iter (S n) (Plugin.beginBusy text) b)
    with (Plugin.beginBusy text (Nat.iter n (Plugin.beginBusy text) b)).
  unfold Plugin.beginBusy at 1. cbn [Plugin.busyCount]. rewrite IH. lia.
Qed.

Lemma endBusy_count (b : Plugin.Busy) :
  Plugin.busyCount (Plugin.endBusy b) = Z.max 0 (Plugin.busyCount b - 1).
Proof.
  unfold Plugin.endBusy. cbv zeta.
  destruct (Z.max 0 (Plugin.busyCount b - 1) =? 0); reflexivity.
Qed.

Lemma iter_endBusy_count (n : nat) (b : Plugin.Busy) :
  Plugin.busyCount (Nat.iter (S n) Plugin.endBusy b)
    = Z.max 0 (Plugin.busyCount b - Z.of_nat (S n)).
Proof.
  induction n as [|n IH]; [apply endBusy_count|].
  change (Nat.iter (S (S n)) Plugin.endBusy b)
    with (Plugin.endBusy (Nat.iter (S n) Plugin.endBusy b)).
  rewrite endBusy_count, IH. lia.
Qed.

Lemma endBusy_idle_cleared (b : Plugin.Busy) :
  Plugin.busyCount (Plugin.endBusy b) = 0 ->
  Plugin.statusBarEl (Plugin.endBusy b) = Plugin.setText "" (Plugin.statusBarEl b).
Proof.
  rewrite endBusy_count. intros H. unfold Plugin.endBusy. cbv zeta.
  now rewrite H.
Qed.

Lemma endBusy_el (c : Plugin.Busy) :
  Plugin.statusBarEl (Plugin.endBusy c) = None <-> Plugin.statusBarEl c = None.
Proof.
  unfold Plugin.endBusy. cbv zeta.
  destruct (Z.max 0 (Plugin.busyCount c - 1) =? 0);
    cbn [Plugin.clearBusy Plugin.statusBarEl]; [|reflexivity].
  destruct (Plugin.statusBarEl c); cbn; split; congruence.
Qed.

Lemma iter_endBusy_el (m : nat) (c : Plugin.Busy) :
  Plugin.statusBarEl (Nat.iter m Plugin.endBusy c) = None <->
  Plugin.statusBarEl c = None.
Proof.
  induction m as [|m IH]; [reflexivity|].
  change (Nat.iter (S m) Plugin.endBusy c)
    with (Plugin.endBusy (Nat.iter m Plugin.endBusy c)).
  now rewrite endBusy_el.
Qed.

(** X23. The count of the busy indicator never goes below zero, not even
    when an operation ends that never began; an operation that begins and
    ends leaves the count as it was; and when the last of any number of
    operations that began on an idle indicator has ended, the count is zero
    and the text of the status bar is cleared. *)
Theorem busy_indicator_balance (text : string) (b : Plugin.Busy) (n : nat) :
  0 <= Plugin.busyCount (Plugin.endBusy b) /\
  (0 <= Plugin.busyCount b ->
   Plugin.busyCount (Plugin.endBusy (Plugin.beginBusy text b)) = Plugin.busyCount b) /\
  (Plugin.busyCount (Plugin.endBusy b) = 0 ->
   Plugin.statusBarEl (Plugin.endBusy b) = Plugin.setText "" (Plugin.statusBarEl b)) /\
  (Plugin.busyCount b = 0 ->
   let after := Nat.iter (S n) Plugin.endBusy (Nat.iter (S n) (Plugin.beginBusy text) b) in
   Plugin.busyCount after = 0 /\
   (forall el, Plugin.statusBarEl b = Some el -> Plugin.statusBarEl after = Some "") /\
   (Plugin.statusBarEl b = None -> Plugin.statusBarEl after = None)).
Proof.
  refine (conj _ (conj _ (conj (endBusy_idle_cleared b) _))).
  - rewrite endBusy_count. lia.
  - intros H. rewrite endBusy_count. unfold Plugin.beginBusy. cbn [Plugin.busyCount]. lia.
  - intros H0 after.
    set (started := Nat.iter (S n) (Plugin.beginBusy text) b) in *.
    assert (Hel : Plugin.statusBarEl started = None <-> Plugin.statusBarEl b = None).
    { unfold started. generalize (S n). intros m.
      induction m as [|m IH]; [reflexivity|].
      change (Nat.iter (S m) (Plugin.beginBusy text) b)
        with (Plugin.beginBusy text (Nat.iter m (Plugin.beginBusy text) b)).
      unfold Plugin.beginBusy at 1. cbn [Plugin.statusBarEl]. rewrite <- IH.
      destruct (Plugin.statusBarEl (Nat.iter m (Plugin.beginBusy text) b));
        cbn; split; congruence. }
    assert (Hcount : Plugin.busyCount after = 0).
    { unfold after. rewrite iter_endBusy_count. unfold started.
      rewrite iter_beginBusy_count. lia. }
    pose proof iter_endBusy_el as Hkeep.
    assert (Hclear : Plugin.statusBarEl after =
                     Plugin.setText "" (Plugin.statusBarEl (Nat.iter n Plugin.endBusy started))).
    { unfold after. cbn [Nat.iter]. apply endBusy_idle_cleared. exact Hcount. }
    refine (conj Hcount (conj _ _)).
    + intros el Hb. rewrite Hclear.
      destruct (Plugin.statusBarEl (Nat.iter n Plugin.endBusy started)) eqn:E;
        [reflexivity|].
      apply Hkeep, Hel in E. congruence.
    + intros Hb. rewrite Hclear.
      destruct (Plugin.statusBarEl (Nat.iter n Plugin.endBusy started)) eqn:E;
        [|reflexivity].
      assert (Hn : Plugin.statusBarEl (Nat.iter n Plugin.endBusy started) = None)
        by (apply Hkeep, Hel; exact Hb).
      congruence.
Qed.

(** X24. What [fetchInsert] leaves behind. Without an open note nothing
    happens. Otherwise the busy count is back where it was, and on an idle
    indicator the status text is cleared, in every case: a request of the
    resolver that throws inserts nothing and reports the failure; not-found
    inserts nothing; a resolved game inserts the rendered template, which
    has no white space at either end, followed by one line feed. *)
Theorem fetchInsert_outcomes
    (fetchArchives : string -> outcome (list string))
    (fetchMonth : string -> outcome (list GameItem))
    (localDate : Z -> JsDate) (busyText : string)
    (settings : Plugin.LastChessSettings) (busy : Plugin.Busy)
    (user template : string) (lookupUsername timeClass : option string) :
  0 <= Plugin.busyCount busy ->
  let run := Plugin.fetchInsert fetchArchives fetchMonth localDate busyText
               settings busy in
  let resolved := getLastGameForUser fetchArchives fetchMonth user timeClass in
  (Plugin.insertedText (run false user template lookupUsername timeClass) = None /\
   Plugin.busyAfter (run false user template lookupUsername timeClass) = busy) /\
  (Plugin.busyCount (Plugin.busyAfter (run true user template lookupUsername timeClass))
     = Plugin.busyCount busy) /\
  (Plugin.busyCount busy = 0 ->
   Plugin.statusBarEl (Plugin.busyAfter (run true user template lookupUsername timeClass))
     = Plugin.setText "" (Plugin.statusBarEl busy)) /\
  (resolved = Throw ->
   Plugin.insertedText (run true user template lookupUsername timeClass) = None /\
   Plugin.notice (run true user template lookupUsername timeClass)
     = "Failed to fetch from Chess.com. See console for details.") /\
  (resolved = Ok None ->
   Plugin.insertedText (run true user template lookupUsername timeClass) = None) /\
  (forall r, resolved = Ok (Some r) ->
   exists line,
     Plugin.insertedText (run true user template lookupUsername timeClass)
       = Some (line ++ newline) /\
     trim line = line /\
     line = renderTemplate (Some template)
              (asVars (buildTemplateVars fetchArchives fetchMonth localDate
                         (game r) (meColor r)
                         (Some (orIfEmpty (orEmpty lookupUsername) user))
                         (Some (Plugin.dateFormat settings))
                         (Some (Plugin.timeFormat settings))))).
Proof.
  intros Hb run resolved.
  assert (Hafter : Plugin.busyAfter (run true user template lookupUsername timeClass)
                   = Plugin.endBusy (Plugin.beginBusy busyText busy)) by reflexivity.
  assert (Hcount : Plugin.busyCount (Plugin.endBusy (Plugin.beginBusy busyText busy))
                   = Plugin.busyCount busy).
  { rewrite endBusy_count. unfold Plugin.beginBusy. cbn [Plugin.busyCount]. lia. }
  refine (conj (conj eq_refl eq_refl) (conj _ (conj _ (conj _ (conj _ _))))).
  - now rewrite Hafter.
  - intros H0. rewrite Hafter, endBusy_idle_cleared by (rewrite Hcount; exact H0).
    unfold Plugin.beginBusy. cbn [Plugin.statusBarEl].
    now destruct (Plugin.statusBarEl busy).
  - intros Hr. unfold run, Plugin.fetchInsert, Plugin.fetchInsertTry.
    fold resolved. rewrite Hr. split; reflexivity.
  - intros Hr. unfold run, Plugin.fetchInsert, Plugin.fetchInsertTry.
    fold resolved. rewrite Hr. reflexivity.
  - intros r Hr. eexists. split; [|split; [|reflexivity]].
    + unfold run, Plugin.fetchInsert, Plugin.fetchInsertTry.
      fold resolved. rewrite Hr. reflexivity.
    + unfold renderTemplate. apply trim_idempotent.
Qed.

Lemma fetchInsert_outcomes_witness :
  Plugin.busyCount
    (Plugin.busyAfter
       (Plugin.fetchInsert twoArchives twoMonths fixedDate "Fetching"
          Plugin.DEFAULT_SETTINGS (Plugin.mkBusy 0 (Some ""))
          true "someone" "{{white}} - {{black}}" None (Some "blitz"))) = 0.
Proof.
  refine (proj1 (proj2 (fetchInsert_outcomes twoArchives twoMonths fixedDate "Fetching"
            Plugin.DEFAULT_SETTINGS (Plugin.mkBusy 0 (Some ""))
            "someone" "{{white}} - {{black}}" None (Some "blitz") _))).
  cbn. lia.
Defined.

(** *** Settings *)

(** X25. Saving and loading give the settings back, as long as the time
    format is not empty; and loading keeps a stored default template that
    is not empty, the template of the older single-template version being
    adopted only when there is none. *)
Theorem settings_round_trip (s : Plugin.LastChessSettings) (d : Plugin.StoredData) :
  (Plugin.timeFormat s <> "" ->
   Plugin.loadSettings (Some (Plugin.saveSettings s)) = s) /\
  (forall t, Plugin.storedTemplateDefault d = Some t -> t <> "" ->
     Plugin.templateDefault (Plugin.loadSettings (Some d)) = t) /\
  (forall t, Plugin.storedTemplate d = Some t -> t <> "" ->
     orEmpty (Plugin.storedTemplateDefault d) = "" ->
     Plugin.templateDefault (Plugin.loadSettings (Some d)) = t) /\
  Plugin.loadSettings None = Plugin.DEFAULT_SETTINGS.
Proof.
  refine (conj _ (conj _ (conj _ eq_refl))).
  - intros Ht. destruct s as [u td to df tf ll]. cbn [Plugin.timeFormat] in Ht.
    unfold Plugin.loadSettings, Plugin.saveSettings, Plugin.migrateFormats.
    cbn [Plugin.storedUsername Plugin.storedTemplateDefault Plugin.storedTemplateOtherUser
         Plugin.storedDateFormat Plugin.storedTimeFormat Plugin.storedLastLookupUsername
         Plugin.storedTemplate Plugin.assigned orEmpty nonEmpty andb
         Plugin.username Plugin.templateDefault Plugin.templateOtherUser
         Plugin.dateFormat Plugin.timeFormat Plugin.lastLookupUsername].
    now rewrite (nonEmpty_true tf Ht).
  - intros t Ht Hne. unfold Plugin.loadSettings. cbn [Plugin.templateDefault].
    rewrite Ht. cbn [orEmpty Plugin.assigned]. rewrite (nonEmpty_true t Hne).
    cbn [negb]. now rewrite andb_false_r.
  - intros t Ht Hne Hd. unfold Plugin.loadSettings. cbn [Plugin.templateDefault].
    rewrite Ht, Hd. cbn [orEmpty nonEmpty negb]. now rewrite (nonEmpty_true t Hne).
Qed.

Lemma splitSpaces_word (w : string) :
  allChars (fun c => negb (isSpace c)) w = true -> w <> "" ->
  splitSpaces false w = [w] /\ splitSpaces true w = [w].
Proof.
  induction w as [|c w IH]; [congruence|]. intros Hw _.
  cbn [allChars] in Hw. apply andb_true_iff in Hw as [Hc Hw].
  apply negb_true_iff in Hc. cbn [splitSpaces]. rewrite Hc.
  destruct w as [|c' w']; [split; reflexivity|].
  destruct (IH Hw) as [-> _]; [discriminate|]. split; reflexivity.
Qed.

Lemma splitSpaces_word_space (w r : string) :
  allChars (fun c => negb (isSpace c)) w = true -> w <> "" ->
  splitSpaces false (w ++ " " ++ r) = w :: splitSpaces true r /\
  splitSpaces true (w ++ " " ++ r) = w :: splitSpaces true r.
Proof.
  induction w as [|c w IH]; [congruence|]. intros Hw _.
  cbn [allChars] in Hw. apply andb_true_iff in Hw as [Hc Hw].
  apply negb_true_iff in Hc.
  change (String c w ++ " " ++ r) with (String c (w ++ " " ++ r)).
  cbn [splitSpaces]. rewrite Hc.
  destruct w as [|c' w'].
  - split; reflexivity.
  - destruct (IH Hw) as [-> _]; [discriminate|]. split; reflexivity.
Qed.

(** Words joined by single spaces are split into the same words. *)
Lemma wordsOf_joinWith (ws : list string) :
  forallb wordLike ws = true -> ws <> [] ->
  filter nonEmpty (splitSpaces false (joinWith " " ws)) = ws /\
  filter nonEmpty (splitSpaces true (joinWith " " ws)) = ws.
Proof.
  induction ws as [|w ws IH]; [congruence|]. intros Hws _.
  cbn [forallb] in Hws. apply andb_true_iff in Hws as [Hw Hws].
  unfold wordLike in Hw. apply andb_true_iff in Hw as [Hne Hw].
  assert (Hw' : w <> "") by (destruct w; [discriminate | congruence]).
  destruct ws as [|v ws'].
  - cbn [joinWith]. destruct (splitSpaces_word w Hw Hw') as [-> ->].
    cbn [filter]. rewrite Hne. split; reflexivity.
  - change (joinWith " " (w :: v :: ws'))
      with (w ++ " " ++ joinWith " " (v :: ws')).
    destruct (splitSpaces_word_space w (joinWith " " (v :: ws')) Hw Hw') as [-> ->].
    cbn [filter]. rewrite Hne.
    destruct (IH Hws) as [_ ->]; [discriminate|]. split; reflexivity.
Qed.

Lemma joinWith_nonempty (sep w : string) (ws : list string) :
  w <> "" -> joinWith sep (w :: ws) <> "".
Proof.
  intros Hw. destruct ws; cbn [joinWith]; [assumption|].
  now apply append_nonempty_l.
Qed.

(** The combined timestamp of a timestamp that is present. *)
Lemma formatTimestamp_parts (localDate : Z -> JsDate) (ts : option Z)
    (datePattern timePattern : option string) :
  truthy ts = true ->
  formatDateOnly localDate ts datePattern <> "" /\
  formatTimeOnly localDate ts timePattern <> "" /\
  formatTimestamp localDate ts datePattern timePattern =
    formatDateOnly localDate ts datePattern ++ " " ++
    formatTimeOnly localDate ts timePattern.
Proof.
  intros Hts.
  assert (Hd : formatDateOnly localDate ts datePattern <> "").
  { unfold formatDateOnly, formatDate, formatWithPattern. rewrite Hts.
    apply expand_nonempty. repeat apply orDefault_nonempty; discriminate. }
  assert (Ht : formatTimeOnly localDate ts timePattern <> "").
  { unfold formatTimeOnly, formatWithPattern. rewrite Hts.
    apply expand_nonempty. repeat apply orDefault_nonempty; discriminate. }
  refine (conj Hd (conj Ht _)). unfold formatTimestamp.
  now rewrite (nonEmpty_true _ Hd), (nonEmpty_true _ Ht).
Qed.

(** X26. Migration of a format of the older versions. When no time format
    is stored and the stored date format is two or more words joined by
    single spaces, the first word becomes the date format and the other
    words, joined by single spaces, the time format; a timestamp that is
    present is then formatted exactly as the combined pattern formats
    it. *)
Theorem loadSettings_splits_combined_format (localDate : Z -> JsDate)
    (d : Plugin.StoredData) (w0 w1 : string) (more : list string) (ts : option Z) :
  forallb wordLike (w0 :: w1 :: more) = true ->
  Plugin.storedDateFormat d = Some (joinWith " " (w0 :: w1 :: more)) ->
  orEmpty (Plugin.storedTimeFormat d) = "" ->
  let s := Plugin.loadSettings (Some d) in
  Plugin.dateFormat s = w0 /\
  Plugin.timeFormat s = joinWith " " (w1 :: more) /\
  (truthy ts = true ->
   formatTimestamp localDate ts (Some (Plugin.dateFormat s)) (Some (Plugin.timeFormat s))
     = formatWithPattern (localDate (orZero ts * 1000))
         (Some (joinWith " " (w0 :: w1 :: more)))).
Proof.
  intros Hws Hd Ht s.
  pose proof Hws as Hall. cbn [forallb] in Hall.
  apply andb_true_iff in Hall as [H0 Hrest].
  pose proof Hrest as Hrest'. cbn [forallb] in Hrest'.
  apply andb_true_iff in Hrest' as [H1 _].
  unfold wordLike in H0, H1.
  apply andb_true_iff in H0 as [Hne0 Hsp0]. apply andb_true_iff in H1 as [Hne1 _].
  assert (Hw0 : w0 <> "") by (destruct w0; [discriminate | congruence]).
  assert (Hw1 : w1 <> "") by (destruct w1; [discriminate | congruence]).
  assert (Hjoin : joinWith " " (w1 :: more) <> "") by now apply joinWith_nonempty.
  assert (Hfmt : (Plugin.dateFormat s, Plugin.timeFormat s)
                 = (w0, joinWith " " (w1 :: more))).
  { subst s. unfold Plugin.loadSettings.
    cbn [Plugin.dateFormat Plugin.timeFormat]. rewrite <- surjective_pairing.
    unfold Plugin.migrateFormats. rewrite Hd, Ht. cbn [nonEmpty].
    rewrite (nonEmpty_true _ (joinWith_nonempty " " w0 (w1 :: more) Hw0)).
    replace (hasSpace (joinWith " " (w0 :: w1 :: more))) with true.
    2:{ change (joinWith " " (w0 :: w1 :: more))
          with (w0 ++ " " ++ joinWith " " (w1 :: more)).
        unfold hasSpace. rewrite allChars_app. cbn [String.append allChars].
        change (negb (isSpace " ")) with false. cbn [andb].
        now rewrite andb_false_r. }
    unfold wordsOf.
    destruct (wordsOf_joinWith (w0 :: w1 :: more) Hws) as [-> _]; [discriminate|].
    unfold orIfEmpty. now rewrite Hne0, (nonEmpty_true _ Hjoin). }
  assert (Hdate : Plugin.dateFormat s = w0) by exact (f_equal fst Hfmt).
  assert (Htime : Plugin.timeFormat s = joinWith " " (w1 :: more))
    by exact (f_equal snd Hfmt).
  clearbody s. refine (conj Hdate (conj Htime _)). intros Hts.
  rewrite Hdate, Htime.
  destruct (formatTimestamp_parts localDate ts (Some w0)
              (Some (joinWith " " (w1 :: more))) Hts) as [_ [_ ->]].
  unfold formatDateOnly, formatDate, formatTimeOnly, formatWithPattern.
  rewrite Hts. unfold orDefault.
  rewrite !Hne0, !(nonEmpty_true _ Hjoin), ?Hne0, ?(nonEmpty_true _ Hjoin).
  rewrite (nonEmpty_true _ (joinWith_nonempty " " w0 (w1 :: more) Hw0)).
  change (joinWith " " (w0 :: w1 :: more))
    with (w0 ++ " " ++ joinWith " " (w1 :: more)).
  symmetry. apply expand_around_unrecognized; [reflexivity | discriminate].
Qed.

Lemma loadSettings_splits_combined_format_witness :
  Plugin.dateFormat
    (Plugin.loadSettings
       (Some (Plugin.mkData None None None (Some "yyyy-MM-dd HH:mm") None None None)))
    = "yyyy-MM-dd".
Proof.
  refine (proj1 (loadSettings_splits_combined_format fixedDate
            (Plugin.mkData None None None (Some "yyyy-MM-dd HH:mm") None None None)
            "yyyy-MM-dd" "HH:mm" [] (Some 1704449229) _ _ _));
    reflexivity.
Defined.

(** *** Profile addresses and game type labels *)

Lemma encodeURIComponent_safe (s : string) :
  allChars uriSafe (encodeURIComponent s) = true.
Proof.
  induction s as [|c s IH]; [reflexivity|].
  cbn [encodeURIComponent]. cbv zeta. rewrite allChars_app, IH, andb_true_r.
  each_char c.
Qed.

Lemma encodeURIComponent_nonempty (s : string) :
  s <> "" -> encodeURIComponent s <> "".
Proof.
  destruct s as [|c s]; [congruence|]. intros _.
  cbn [encodeURIComponent]. cbv zeta. apply append_nonempty_l.
  destruct (uriUnreserved c); [discriminate|].
  destruct (code c <? 128); discriminate.
Qed.

(** Text of unreserved characters is not changed by the escaping. *)
Lemma encodeURIComponent_unreserved (s : string) :
  allChars uriUnreserved s = true -> encodeURIComponent s = s.
Proof.
  induction s as [|c s IH]; [reflexivity|]. cbn [allChars]. intros H.
  apply andb_true_iff in H as [Hc Hs]. cbn [encodeURIComponent]. cbv zeta.
  rewrite Hc, (IH Hs). reflexivity.
Qed.

(** The escaping loses nothing: reading the escaped text back gives the
    text. *)
Lemma unescape_encodeURIComponent (s : string) :
  unescapeComponent 0 (encodeURIComponent s) = s.
Proof.
  induction s as [|c s IH]; [reflexivity|].
  cbn [encodeURIComponent]. cbv zeta. revert IH.
  generalize (encodeURIComponent s). intros r IH.
  transitivity (String c (unescapeComponent 0 r)); [|now rewrite IH].
  clear IH. destruct c as [[] [] [] [] [] [] [] []]; reflexivity.
Qed.

(** X27. The profile address of a blank name is empty. Any other name
    gives the member address followed by the escaped name without the white
    space around it: the escaped name is not empty, holds only letters,
    digits, [- _ . ! ~ * ' ( )] and the percent sign, hence no white space
    and no brace, reads back as the name, and is the name itself when the
    name holds only such letters, digits and signs. *)
Theorem profileUrl_is_escaped (name : option string) :
  (trim (orEmpty name) = "" -> profileUrl name = "") /\
  (trim (orEmpty name) <> "" ->
   exists path,
     profileUrl name = "https://www.chess.com/member/" ++ path /\
     path <> "" /\ allChars uriSafe path = true /\
     unescapeComponent 0 path = trim (orEmpty name) /\
     (allChars uriUnreserved (trim (orEmpty name)) = true ->
      path = trim (orEmpty name))) /\
  profileUrl (Some (trim (orEmpty name))) = profileUrl name /\
  (forall c, uriSafe c = true -> isSpace c = false /\ isBrace c = false) /\
  profileUrl (Some " Magnus_Carlsen-1 ") = "https://www.chess.com/member/Magnus_Carlsen-1" /\
  profileUrl (Some "a b/c?d") = "https://www.chess.com/member/a%20b%2Fc%3Fd" /\
  profileUrl (Some "{x}") = "https://www.chess.com/member/%7Bx%7D".
Proof.
  refine (conj _ (conj _ (conj _ (conj _ (conj eq_refl (conj eq_refl eq_refl)))))).
  - intros H. unfold profileUrl. now rewrite H.
  - intros H. exists (encodeURIComponent (trim (orEmpty name))).
    unfold profileUrl. rewrite (nonEmpty_true _ H).
    refine (conj eq_refl (conj _ (conj _ (conj _ _)))).
    + now apply encodeURIComponent_nonempty.
    + apply encodeURIComponent_safe.
    + apply unescape_encodeURIComponent.
    + apply encodeURIComponent_unreserved.
  - unfold profileUrl. cbn [orEmpty]. now rewrite trim_idempotent.
  - intros c. each_char c.
Qed.

(** X28. The label of a game type does not depend on the case of the time
    class, and a label that is not empty is the time class itself up to
    case; a missing time class has the empty label. *)
Theorem labelGameType_case_insensitive (tc : option string) :
  labelGameType (Some (toLowerCase (orEmpty tc))) = labelGameType tc /\
  (labelGameType tc <> "" ->
   toLowerCase (labelGameType tc) = toLowerCase (orEmpty tc)) /\
  labelGameType None = "".
Proof.
  refine (conj _ (conj _ eq_refl)).
  - unfold labelGameType. cbn [orEmpty]. now rewrite toLowerCase_idempotent.
  - unfold labelGameType.
    destruct (String.eqb_spec (toLowerCase (orEmpty tc)) "bullet") as [->|_];
      [reflexivity|].
    destruct (String.eqb_spec (toLowerCase (orEmpty tc)) "blitz") as [->|_];
      [reflexivity|].
    destruct (String.eqb_spec (toLowerCase (orEmpty tc)) "rapid") as [->|_];
      [reflexivity|].
    destruct (String.eqb_spec (toLowerCase (orEmpty tc)) "daily") as [->|_];
      [reflexivity|].
    congruence.
Qed.

(** *** Move counting: the tokens of a movetext *)

(** **** Words *)

Lemma splitSpaces_nonempty (f : bool) (s : string) : splitSpaces f s <> [].
Proof.
  revert f. induction s as [|c s IH]; intros f; [discriminate|].
  cbn [splitSpaces]. destruct (isSpace c).
  - destruct f; [apply IH | discriminate].
  - specialize (IH false). destruct (splitSpaces false s); [congruence | discriminate].
Qed.

Lemma consHead_nonempty (c : ascii) (l : list string) : consHead c l <> [].
Proof. destruct l; discriminate. Qed.

Lemma sameWords_filter (l1 l2 : list string) :
  l1 <> [] -> l2 <> [] -> sameWords l1 l2 ->
  filter nonEmpty l1 = filter nonEmpty l2.
Proof.
  intros H1 H2 [Hh Ht]. destruct l1 as [|a l1], l2 as [|b l2]; try congruence.
  cbn [hd tl] in *. subst b. cbn [filter]. now rewrite Ht.
Qed.

Lemma sameWords_consHead (c : ascii) (l1 l2 : list string) :
  l1 <> [] -> l2 <> [] -> sameWords l1 l2 ->
  sameWords (consHead c l1) (consHead c l2).
Proof.
  intros H1 H2 [Hh Ht]. destruct l1 as [|a l1], l2 as [|b l2]; try congruence.
  cbn [hd tl consHead] in *. subst b. now split.
Qed.

(** Whether the scan starts within a run of white space makes no difference
    to the words. *)
Lemma splitSpaces_inRun (s : string) :
  filter nonEmpty (splitSpaces true s) = filter nonEmpty (splitSpaces false s).
Proof.
  destruct s as [|c s]; [reflexivity|]. cbn [splitSpaces].
  now destruct (isSpace c).
Qed.

(** The words of a text with a space in it are the words before the space
    and the words after it. *)
Lemma splitSpaces_app_space (a b : string) :
  sameWords (splitSpaces false (a ++ " " ++ b))
            (splitSpaces false a ++ splitSpaces false b) /\
  filter nonEmpty (splitSpaces true (a ++ " " ++ b))
    = filter nonEmpty (splitSpaces true a ++ splitSpaces false b).
Proof.
  induction a as [|c a [IHf IHt]].
  - cbn [String.append splitSpaces app]. change (isSpace " ") with true. cbn iota.
    split; [split; [reflexivity|]; cbn [tl]; apply splitSpaces_inRun|].
    cbn [filter nonEmpty]. apply splitSpaces_inRun.
  - change (String c a ++ " " ++ b) with (String c (a ++ " " ++ b)).
    cbn [splitSpaces]. destruct (isSpace c).
    + split; [split; [reflexivity|]|]; cbn [app tl]; exact IHt.
    + assert (Hs : sameWords (consHead c (splitSpaces false (a ++ " " ++ b)))
                     (consHead c (splitSpaces false a) ++ splitSpaces false b)).
      { replace (consHead c (splitSpaces false a) ++ splitSpaces false b)%list
          with (consHead c (splitSpaces false a ++ splitSpaces false b)).
        - apply sameWords_consHead; [apply splitSpaces_nonempty| |exact IHf].
          pose proof (splitSpaces_nonempty false a).
          destruct (splitSpaces false a); [congruence | discriminate].
        - pose proof (splitSpaces_nonempty false a).
          destruct (splitSpaces false a); [congruence | reflexivity]. }
      split; [exact Hs|].
      apply sameWords_filter; [| |exact Hs].
      * apply consHead_nonempty.
      * intros E. apply app_eq_nil in E as [E _]. now apply consHead_nonempty in E.
Qed.

Lemma wordsOf_app_space (a b : string) :
  wordsOf (a ++ " " ++ b) = (wordsOf a ++ wordsOf b)%list.
Proof.
  unfold wordsOf. rewrite <- filter_app.
  apply sameWords_filter; [apply splitSpaces_nonempty| |apply splitSpaces_app_space].
  pose proof (splitSpaces_nonempty false a).
  destruct (splitSpaces false a); [congruence | discriminate].
Qed.

Lemma wordsOf_word (w : string) : wordLike w = true -> wordsOf w = [w].
Proof.
  intros H. unfold wordLike in H. apply andb_true_iff in H as [Hne Hw].
  unfold wordsOf.
  destruct (splitSpaces_word w Hw) as [-> _]; [destruct w; [discriminate | congruence]|].
  cbn [filter]. now rewrite Hne.
Qed.

(** Trimming does not change the words. *)
Lemma wordsOf_trimStart (s : string) : wordsOf (trimStart s) = wordsOf s.
Proof.
  unfold wordsOf. induction s as [|c s IH]; [reflexivity|].
  cbn [trimStart splitSpaces]. destruct (isSpace c) eqn:E.
  - rewrite IH. cbn [filter nonEmpty]. symmetry. apply splitSpaces_inRun.
  - cbn [splitSpaces]. now rewrite E.
Qed.

Lemma trimEnd_empty_spaces (s : string) : trimEnd s = "" -> spaces s = true.
Proof.
  induction s as [|c s IH]; [reflexivity|]. cbn [trimEnd].
  destruct (trimEnd s) eqn:E; [|discriminate].
  destruct (isSpace c) eqn:Ec; [|discriminate]. intros _.
  unfold spaces. cbn [allChars]. rewrite Ec. now apply IH.
Qed.

Lemma splitSpaces_spaces (s : string) :
  spaces s = true ->
  splitSpaces true s = [EmptyString] /\
  hd EmptyString (splitSpaces false s) = EmptyString /\
  filter nonEmpty (tl (splitSpaces false s)) = [].
Proof.
  unfold spaces. induction s as [|c s IH]; intros H; [now repeat split|].
  cbn [allChars] in H. apply andb_true_iff in H as [Hc H].
  destruct (IH H) as (IH1 & _). cbn [splitSpaces]. rewrite Hc, IH1.
  now repeat split.
Qed.

Lemma splitSpaces_trimEnd (s : string) :
  sameWords (splitSpaces false (trimEnd s)) (splitSpaces false s) /\
  filter nonEmpty (splitSpaces true (trimEnd s)) = filter nonEmpty (splitSpaces true s).
Proof.
  induction s as [|c s [IHf IHt]]; [now repeat split|].
  cbn [trimEnd]. destruct (trimEnd s) as [|d t] eqn:E.
  - apply trimEnd_empty_spaces in E.
    destruct (splitSpaces_spaces s E) as (S1 & S2 & S3).
    destruct (isSpace c) eqn:Ec; cbn [splitSpaces]; rewrite Ec.
    + rewrite S1. now repeat split.
    + pose proof (splitSpaces_nonempty false s) as Hn.
      destruct (splitSpaces false s) as [|p ps]; [congruence|].
      cbn [hd tl] in S2, S3. subst p. cbn [consHead hd tl filter nonEmpty].
      rewrite S3. now repeat split.
  - cbn [splitSpaces]. destruct (isSpace c).
    + split; [split; [reflexivity|]|]; cbn [tl]; exact IHt.
    + assert (Hs : sameWords (consHead c (splitSpaces false (String d t)))
                             (consHead c (splitSpaces false s)))
        by (apply sameWords_consHead; [apply splitSpaces_nonempty.. | exact IHf]).
      split; [exact Hs|].
      apply sameWords_filter; [| |exact Hs].
      * apply consHead_nonempty.
      * apply consHead_nonempty.
Qed.

Lemma wordsOf_trim (s : string) : wordsOf (trim s) = wordsOf s.
Proof.
  unfold trim. rewrite <- (wordsOf_trimStart s). unfold wordsOf.
  apply sameWords_filter; [apply splitSpaces_nonempty.. | apply splitSpaces_trimEnd].
Qed.

(** **** The result token *)

Lemma plainSpaced_space (c : ascii) :
  (negb (isSpace c) || (c =? " ")%char) = true -> isSpace c = true -> c = " "%char.
Proof.
  intros H Hs. rewrite Hs in H. cbn [negb orb] in H. now apply Ascii.eqb_eq.
Qed.

Lemma trailingSpaces_plain (r : string) : forall k,
  plainSpaced r = true -> trailingSpaces r = Some k ->
  spaces r = true /\ k = String.length r.
Proof.
  unfold plainSpaced, spaces. induction r as [|c r IH]; intros k Hp Ht.
  - cbn in Ht. injection Ht as <-. now split.
  - cbn [allChars] in Hp. apply andb_true_iff in Hp as [Hc Hp].
    pose proof (plainSpaced_space c Hc) as Hsp.
    cbn [trailingSpaces] in Ht. destruct (isSpace c) eqn:Ec; [|discriminate].
    rewrite (Hsp eq_refl) in *.
    destruct (trailingSpaces r) as [n|] eqn:En; [|discriminate].
    injection Ht as <-. destruct (IH n Hp eq_refl) as [Hs ->].
    cbn [allChars String.length]. rewrite Hs. now split.
Qed.

Lemma dropStr_all (s : string) : dropStr (String.length s) s = "".
Proof. induction s as [|c s IH]; [reflexivity | exact IH]. Qed.

(** In a text whose white space is the space character only, the
    expression that removes the result matches at most at the end: either
    nothing is removed, or the text ends with a space, a result token and
    spaces, and the space is all that is left of them. *)
Lemma stripResult_plain (s : string) :
  plainSpaced s = true ->
  stripResult s = s \/
  exists a tok sp,
    s = a ++ " " ++ tok ++ sp /\ In tok resultTokens /\
    spaces sp = true /\ plainSpaced sp = true /\ stripResult s = a ++ " ".
Proof.
  induction s as [|c s IH]; intros Hp; [now left|].
  pose proof Hp as Hp'. unfold plainSpaced in Hp'. cbn [allChars] in Hp'.
  apply andb_true_iff in Hp' as [Hc Hps]. fold (plainSpaced s) in Hps.
  cbn [stripResult]. destruct (resultAt (String c s)) as [n|] eqn:Er.
  - right. pose proof (plainSpaced_space c Hc) as Hspc.
    unfold resultAt in Er. destruct (isSpace c) eqn:Ec; [|discriminate].
    rewrite (Hspc eq_refl) in *. clear Hspc.
    destruct (firstPrefix resultTokens s) as [tok|] eqn:Ef; [|discriminate].
    apply firstPrefix_some in Ef as [Hin Hst].
    pose proof (prefix_drop tok s Hst) as Hs.
    set (r := dropStr (String.length tok) s) in *.
    assert (Hpr : plainSpaced r = true).
    { unfold plainSpaced in *. rewrite Hs, allChars_app in Hps.
      now apply andb_true_iff in Hps as [_ Hps]. }
    destruct (trailingSpaces r) as [k|] eqn:Et; [|discriminate].
    injection Er as <-. destruct (trailingSpaces_plain r k Hpr Et) as [Hsp ->].
    exists "", tok, r. refine (conj _ (conj Hin (conj Hsp (conj Hpr _)))).
    + cbn [String.append]. now rewrite <- Hs.
    + cbn [String.append]. f_equal.
      assert (Hl : (String.length tok + String.length r)%nat = String.length s)
        by (rewrite <- length_append; f_equal; symmetry; exact Hs).
      cbn [Nat.add dropStr]. rewrite Hl. apply dropStr_all.
  - destruct (IH Hps) as [->|(a & tok & sp & -> & Hin & Hsp & Hpsp & ->)]; [now left|].
    right. exists (String c a), tok, sp. now repeat split.
Qed.

Lemma wordsOf_spaces (sp : string) : spaces sp = true -> wordsOf sp = [].
Proof.
  intros H. unfold wordsOf.
  destruct (splitSpaces_spaces sp H) as (_ & H1 & H2).
  pose proof (splitSpaces_nonempty false sp) as Hn.
  destruct (splitSpaces false sp) as [|p ps]; [congruence|].
  cbn [hd tl] in *. subst p. exact H2.
Qed.

Lemma counted_result (tok : string) : In tok resultTokens -> counted tok = false.
Proof.
  intros H. cbn [resultTokens In] in H.
  destruct H as [<-|[<-|[<-|[<-|[]]]]]; reflexivity.
Qed.

Lemma wordLike_result (tok : string) : In tok resultTokens -> wordLike tok = true.
Proof.
  intros H. cbn [resultTokens In] in H.
  destruct H as [<-|[<-|[<-|[<-|[]]]]]; reflexivity.
Qed.

(** Removing the result makes no difference to the tokens that are counted:
    the filter drops a result token anyway. *)
Lemma counted_stripResult (s : string) :
  plainSpaced s = true ->
  filter counted (wordsOf (stripResult s)) = filter counted (wordsOf s).
Proof.
  intros Hp. destruct (stripResult_plain s Hp)
    as [->|(a & tok & sp & -> & Hin & Hsp & Hpsp & ->)]; [reflexivity|].
  rewrite wordsOf_app_space.
  rewrite <- (append_nil_r (a ++ " ")), append_assoc, wordsOf_app_space.
  change (wordsOf "") with (@nil string). rewrite app_nil_r, filter_app.
  replace (filter counted (wordsOf (tok ++ sp))) with (@nil string);
    [now rewrite app_nil_r|].
  symmetry. destruct sp as [|c sp].
  - rewrite append_nil_r, (wordsOf_word _ (wordLike_result _ Hin)).
    cbn [filter]. now rewrite (counted_result _ Hin).
  - unfold spaces, plainSpaced in Hsp, Hpsp. cbn [allChars] in Hsp, Hpsp.
    apply andb_true_iff in Hsp as [Hc Hsp]. apply andb_true_iff in Hpsp as [Hpc _].
    pose proof (plainSpaced_space c Hpc Hc) as ->.
    change (tok ++ String " " sp) with (tok ++ " " ++ sp).
    rewrite wordsOf_app_space, (wordsOf_word _ (wordLike_result _ Hin)),
      (wordsOf_spaces sp Hsp).
    cbn [app filter]. now rewrite (counted_result _ Hin).
Qed.

(** **** The pipeline *)

Lemma filter_counted (l : list string) :
  filter isCleanToken (filter (fun t => negb (isMoveNumber t)) l)
  = filter counted (filter nonEmpty l).
Proof.
  induction l as [|t l IH]; [reflexivity|]. cbn [filter]. unfold counted at 1.
  destruct t as [|c t]; [cbn; exact IH|].
  cbn [nonEmpty filter]. unfold counted.
  destruct (negb (isMoveNumber (String c t))); cbn [filter andb];
    [destruct (isCleanToken (String c t))|]; now rewrite IH.
Qed.

(** The tokens that are counted are the counted words of the movetext
    after the comments, the variations and the result are removed. *)
Lemma cleanTokens_words (text : string) :
  cleanTokens text =
  filter counted
    (wordsOf (stripResult
       (stripDelimited "(" ")" 0
          (stripDelimited "{" "}" 0 (lastPart (splitBlankLine text)))))).
Proof.
  unfold cleanTokens. rewrite filter_counted.
  fold (wordsOf (trim (stripResult
       (stripDelimited "(" ")" 0
          (stripDelimited "{" "}" 0 (lastPart (splitBlankLine text))))))).
  now rewrite wordsOf_trim.
Qed.

Lemma splitBlankLine_noLF (s : string) :
  allChars (fun c => negb (isLF c)) s = true -> splitBlankLine s = [s].
Proof.
  induction s as [|c s IH]; intros H; [reflexivity|].
  cbn [allChars] in H. apply andb_true_iff in H as [Hc H].
  apply negb_true_iff in Hc. cbn [splitBlankLine]. rewrite (IH H).
  destruct s as [|d s]; [reflexivity|]. now rewrite Hc.
Qed.

(** **** Comments and variations *)

Lemma stripDelimited_closed (op cl : ascii) (c post : string) :
  allChars (fun x => negb (x =? cl)%char) c = true ->
  stripDelimited op cl 0 (String op (c ++ String cl post))
    = " " ++ stripDelimited op cl 0 post.
Proof.
  intros Hc. cbn [stripDelimited]. rewrite Ascii.eqb_refl, (indexOf_first cl c post Hc).
  cbn [String.append]. f_equal.
  replace (c ++ String cl post) with ((c ++ String cl "") ++ post)
    by (rewrite append_assoc; reflexivity).
  replace (S (String.length c)) with (String.length (c ++ String cl ""))
    by (rewrite length_append; cbn [String.length]; lia).
  apply stripDelimited_skip.
Qed.

Lemma blank_free (op : ascii) (t : string) :
  allChars (fun x => negb (x =? op)%char) t = true -> blank op t = t.
Proof.
  destruct t as [|c t]; [reflexivity|]. cbn [allChars blank]. intros H.
  apply andb_true_iff in H as [Hc _]. apply negb_true_iff in Hc. now rewrite Hc.
Qed.

Lemma stripDelimited_item (op cl : ascii) (t rest : string) :
  freeOrClosed op cl t ->
  stripDelimited op cl 0 (t ++ rest) = blank op t ++ stripDelimited op cl 0 rest.
Proof.
  intros [Hfree|(c & -> & Hc)].
  - now rewrite stripDelimited_plain, blank_free.
  - change (String op (c ++ String cl "") ++ rest)
      with (String op ((c ++ String cl "") ++ rest)).
    rewrite append_assoc. cbn [String.append].
    rewrite stripDelimited_closed by exact Hc.
    cbn [blank]. now rewrite Ascii.eqb_refl.
Qed.

Lemma joinWith_cons (sep t u : string) (rest : list string) :
  joinWith sep (t :: u :: rest) = t ++ sep ++ joinWith sep (u :: rest).
Proof. reflexivity. Qed.

(** One pass over texts joined by spaces works on each text. *)
Lemma stripDelimited_joinWith (op cl : ascii) (ts : list string) :
  (" " =? op)%char = false ->
  Forall (freeOrClosed op cl) ts ->
  stripDelimited op cl 0 (joinWith " " ts) = joinWith " " (map (blank op) ts).
Proof.
  intros Hop. induction 1 as [|t ts Ht Hts IH]; [reflexivity|].
  destruct ts as [|u ts].
  - cbn [joinWith map]. rewrite <- (append_nil_r t) at 1.
    rewrite stripDelimited_item by exact Ht. apply append_nil_r.
  - rewrite joinWith_cons, stripDelimited_item by exact Ht.
    cbn [map]. rewrite joinWith_cons. f_equal.
    change (" " ++ joinWith " " (u :: ts)) with (String " " (joinWith " " (u :: ts))).
    cbn [stripDelimited]. rewrite Hop. cbn [String.append]. f_equal. exact IH.
Qed.

(** **** The items *)

Lemma tokenChar_facts (c : ascii) :
  tokenChar c = true ->
  isSpace c = false /\ (c =? "{")%char = false /\ (c =? "(")%char = false /\
  isLF c = false.
Proof. destruct c as [[] [] [] [] [] [] [] []]; vm_compute; intros H; repeat split; congruence. Qed.

Lemma digit_tokenChar (c : ascii) : isDigit c = true -> tokenChar c = true.
Proof. destruct c as [[] [] [] [] [] [] [] []]; vm_compute; congruence. Qed.

Lemma glyph_tokenChar (c : ascii) : isGlyph c = true -> tokenChar c = true.
Proof. destruct c as [[] [] [] [] [] [] [] []]; vm_compute; congruence. Qed.

Lemma letter_facts (c : ascii) :
  isLetter c = true ->
  isDigit c = false /\ (c =? "$")%char = false /\ (c =? "*")%char = false /\
  (c =? "1")%char = false /\ (c =? "0")%char = false /\ isGlyph c = false.
Proof. destruct c as [[] [] [] [] [] [] [] []]; vm_compute; intros H; repeat split; congruence. Qed.

Lemma tokenLike_facts (t : string) :
  tokenLike t = true ->
  wordLike t = true /\
  allChars (fun x => negb (x =? "{")%char) t = true /\
  allChars (fun x => negb (x =? "(")%char) t = true /\
  allChars (fun c => negb (isLF c)) t = true /\
  plainSpaced t = true.
Proof.
  unfold tokenLike, wordLike, plainSpaced. intros H.
  apply andb_true_iff in H as [Hne H]. rewrite Hne. cbn [andb].
  repeat split; apply (allChars_impl tokenChar); try exact H; intros c Hc;
    apply tokenChar_facts in Hc as (H1 & H2 & H3 & H4);
    rewrite ?H1, ?H2, ?H3, ?H4; reflexivity.
Qed.

Lemma tokenLike_stripped (t : string) :
  tokenLike t = true -> blank "(" (blank "{" t) = t.
Proof.
  intros H. apply tokenLike_facts in H as (_ & H1 & H2 & _).
  now rewrite (blank_free "{" t H1), (blank_free "(" t H2).
Qed.

Lemma digits_tokenLike (ds tail : string) :
  nonEmpty ds && allChars isDigit ds = true -> allChars tokenChar tail = true ->
  tokenLike (ds ++ tail) = true.
Proof.
  intros H Ht. apply andb_true_iff in H as [Hne Hd]. unfold tokenLike.
  rewrite allChars_app, Ht, (allChars_impl isDigit tokenChar ds digit_tokenChar Hd).
  destruct ds; [discriminate | reflexivity].
Qed.


Lemma item_tokenLike (i : item) :
  itemOk i = true -> isToken_item i = true -> tokenLike (itemText i) = true.
Proof.
  intros Hok Ht. destruct i as [san|ds|ds|c|v|ds|g|r];
    cbn [itemOk itemText isToken_item] in *; try discriminate.
  - apply andb_true_iff in Hok as [Hl Hc]. unfold tokenLike. rewrite Hc.
    destruct san; [discriminate | reflexivity].
  - now apply digits_tokenLike.
  - now apply digits_tokenLike.
  - change ("$" ++ ds) with (String "$" ds). unfold tokenLike.
    cbn [nonEmpty allChars andb]. apply andb_true_iff in Hok as [_ Hd].
    rewrite (allChars_impl isDigit tokenChar ds digit_tokenChar Hd). reflexivity.
  - apply andb_true_iff in Hok as [Hne Hg]. unfold tokenLike. rewrite Hne.
    now rewrite (allChars_impl isGlyph tokenChar g glyph_tokenChar Hg).
  - cbn [existsb resultTokens] in Hok. rewrite !orb_true_iff, !String.eqb_eq in Hok.
    destruct Hok as [->|[->|[->|[->|Hf]]]]; try reflexivity. discriminate.
Qed.

Lemma isDigitDashDigit_head (c : ascii) (r : string) :
  isDigit c = false -> isDigitDashDigit (String c r) = false.
Proof.
  intros H. destruct r as [|b [|d [|e r']]]; cbn [isDigitDashDigit]; rewrite ?H;
    reflexivity.
Qed.

Lemma counted_move (san : string) :
  startsWithLetter san = true -> counted san = true.
Proof.
  destruct san as [|c r]; [discriminate|]. cbn [startsWithLetter]. intros Hl.
  apply letter_facts in Hl as (H1 & H2 & H3 & H4 & H5 & H6).
  unfold isGlyph in H6.
  unfold counted, isMoveNumber, isCleanToken, isNag, isGlyphRun, startsWithDigit.
  rewrite (isDigitDashDigit_head c r H1).
  cbn [String.eqb allChars nonEmpty].
  rewrite H1, H2, H3, H4, H5, H6. reflexivity.
Qed.

Lemma dropDigits_all (ds : string) : allChars isDigit ds = true -> dropDigits ds = "".
Proof.
  intros H. rewrite <- (append_nil_r ds). now apply dropDigits_app.
Qed.

Lemma startsWithDigit_digits (ds tail : string) :
  nonEmpty ds && allChars isDigit ds = true -> startsWithDigit (ds ++ tail) = true.
Proof.
  destruct ds as [|d ds]; [discriminate|]. cbn [nonEmpty allChars andb String.append
    startsWithDigit]. intros H. now apply andb_true_iff in H as [H _].
Qed.

(** What each item adds to the tokens that are counted: a move adds itself,
    any other item nothing. *)
Lemma item_counted (i : item) :
  itemOk i = true ->
  filter counted (wordsOf (stripped i))
    = match i with Move san => [san] | _ => [] end.
Proof.
  intros Hok. destruct i as [san|ds|ds|c|v|ds|g|r].
  - unfold stripped.
    rewrite (tokenLike_stripped _ (item_tokenLike _ Hok eq_refl)).
    rewrite wordsOf_word by (apply tokenLike_facts; now apply item_tokenLike).
    cbn [itemText filter]. cbn [itemOk] in Hok. apply andb_true_iff in Hok as [Hl _].
    now rewrite (counted_move san Hl).
  - unfold stripped.
    rewrite (tokenLike_stripped _ (item_tokenLike _ Hok eq_refl)).
    rewrite wordsOf_word by (apply tokenLike_facts; now apply item_tokenLike).
    cbn [itemText filter itemOk] in *. unfold counted, isMoveNumber.
    rewrite (startsWithDigit_digits ds "." Hok).
    apply andb_true_iff in Hok as [_ Hd].
    rewrite (dropDigits_app ds "." Hd eq_refl). reflexivity.
  - unfold stripped.
    rewrite (tokenLike_stripped _ (item_tokenLike _ Hok eq_refl)).
    rewrite wordsOf_word by (apply tokenLike_facts; now apply item_tokenLike).
    cbn [itemText filter itemOk] in *. unfold counted, isMoveNumber.
    rewrite (startsWithDigit_digits ds "..." Hok).
    apply andb_true_iff in Hok as [_ Hd].
    rewrite (dropDigits_app ds "..." Hd eq_refl). reflexivity.
  - reflexivity.
  - reflexivity.
  - unfold stripped.
    rewrite (tokenLike_stripped _ (item_tokenLike _ Hok eq_refl)).
    rewrite wordsOf_word by (apply tokenLike_facts; now apply item_tokenLike).
    cbn [itemText filter itemOk] in *. change ("$" ++ ds) with (String "$" ds).
    unfold counted, isCleanToken, isNag.
    apply andb_true_iff in Hok as [Hne Hd].
    replace (startsWithDigit ds) with true
      by (destruct ds as [|d ds]; [discriminate|]; cbn in *;
          now apply andb_true_iff in Hd as [-> _]).
    rewrite (dropDigits_all ds Hd). cbn [Ascii.eqb Bool.eqb String.eqb andb negb nonEmpty].
    now rewrite !andb_false_r.
  - unfold stripped.
    rewrite (tokenLike_stripped _ (item_tokenLike _ Hok eq_refl)).
    rewrite wordsOf_word by (apply tokenLike_facts; now apply item_tokenLike).
    cbn [itemText filter itemOk] in *. unfold counted, isCleanToken.
    replace (isGlyphRun g) with true by (symmetry; exact Hok).
    cbn [negb]. now rewrite !andb_false_r.
  - unfold stripped.
    rewrite (tokenLike_stripped _ (item_tokenLike _ Hok eq_refl)).
    rewrite wordsOf_word by (apply tokenLike_facts; now apply item_tokenLike).
    cbn [itemText filter itemOk] in *.
    rewrite counted_result; [reflexivity|].
    apply existsb_exists in Hok as (x & Hin & Hx). apply String.eqb_eq in Hx.
    now subst x.
Qed.

Lemma allChars_joinWith (P : ascii -> bool) (ts : list string) :
  P " "%char = true -> Forall (fun t => allChars P t = true) ts ->
  allChars P (joinWith " " ts) = true.
Proof.
  intros Hsp. induction 1 as [|t ts Ht Hts IH]; [reflexivity|].
  destruct ts as [|u ts]; [exact Ht|].
  rewrite joinWith_cons, !allChars_app, Ht, IH. cbn [allChars]. now rewrite Hsp.
Qed.

Lemma item_text_facts (i : item) :
  itemOk i = true ->
  allChars (fun c => negb (isLF c)) (itemText i) = true /\
  freeOrClosed "{" "}" (itemText i) /\
  freeOrClosed "(" ")" (blank "{" (itemText i)) /\
  plainSpaced (stripped i) = true.
Proof.
  intros Hok.
  assert (Htok : isToken_item i = true ->
            allChars (fun c => negb (isLF c)) (itemText i) = true /\
            freeOrClosed "{" "}" (itemText i) /\
            freeOrClosed "(" ")" (blank "{" (itemText i)) /\
            plainSpaced (stripped i) = true).
  { intros Ht. pose proof (item_tokenLike i Hok Ht) as Hl.
    pose proof (tokenLike_facts _ Hl) as (_ & H1 & H2 & H3 & H4).
    unfold stripped. rewrite (blank_free "{" _ H1), (blank_free "(" _ H2).
    refine (conj H3 (conj (or_introl H1) (conj (or_introl H2) H4))). }
  destruct i as [san|ds|ds|c|v|ds|g|r]; try (apply Htok; reflexivity); clear Htok;
    cbn [itemOk itemText] in *.
  - assert (H1 : allChars (fun x => negb (isLF x)) c = true).
    { revert Hok. apply allChars_impl. intros x Hx.
      now apply andb_true_iff in Hx as [_ Hx]. }
    assert (H2 : allChars (fun x => negb (x =? "}")%char) c = true).
    { revert Hok. apply allChars_impl. intros x Hx.
      now apply andb_true_iff in Hx as [Hx _]. }
    change ("{" ++ c ++ "}") with (String "{" (c ++ String "}" "")).
    refine (conj _ (conj _ (conj _ _))).
    + cbn [allChars]. rewrite allChars_app, H1. reflexivity.
    + right. exists c. split; [reflexivity | exact H2].
    + left. reflexivity.
    + reflexivity.
  - assert (H1 : allChars (fun x => negb (isLF x)) v = true).
    { revert Hok. apply allChars_impl. intros x Hx.
      now apply andb_true_iff in Hx as [_ Hx]. }
    assert (H2 : allChars (fun x => negb (x =? ")")%char) v = true).
    { revert Hok. apply allChars_impl. intros x Hx.
      apply andb_true_iff in Hx as [Hx _]. now apply andb_true_iff in Hx as [Hx _]. }
    assert (H3 : allChars (fun x => negb (x =? "{")%char) v = true).
    { revert Hok. apply allChars_impl. intros x Hx.
      apply andb_true_iff in Hx as [Hx _]. now apply andb_true_iff in Hx as [_ Hx]. }
    change ("(" ++ v ++ ")") with (String "(" (v ++ String ")" "")).
    refine (conj _ (conj _ (conj _ _))).
    + cbn [allChars]. rewrite allChars_app, H1. reflexivity.
    + left. cbn [allChars]. rewrite allChars_app, H3. reflexivity.
    + right. exists v. split; [reflexivity | exact H2].
    + reflexivity.
Qed.

Lemma counted_movetext (items : list item) :
  forallb itemOk items = true ->
  filter counted (wordsOf (joinWith " " (map stripped items))) = movesOf items.
Proof.
  induction items as [|i items IH]; intros Hok; [reflexivity|].
  cbn [forallb] in Hok. apply andb_true_iff in Hok as [Hi Hok].
  unfold movesOf. cbn [flat_map]. fold (movesOf items). rewrite <- (IH Hok).
  rewrite <- (item_counted i Hi). cbn [map].
  destruct items as [|j items].
  - cbn [joinWith map wordsOf]. now rewrite app_nil_r.
  - cbn [map]. rewrite joinWith_cons, wordsOf_app_space. apply filter_app.
Qed.

(** The tokens that are counted in a movetext are its moves. *)
Lemma cleanTokens_movetext (items : list item) :
  forallb itemOk items = true -> cleanTokens (movetext items) = movesOf items.
Proof.
  intros Hok.
  assert (Hall : Forall (fun i => itemOk i = true) items)
    by (apply Forall_forall; now apply forallb_forall).
  rewrite cleanTokens_words. unfold movetext.
  rewrite splitBlankLine_noLF.
  2:{ apply allChars_joinWith; [reflexivity|]. apply Forall_map.
      eapply Forall_impl; [|exact Hall]. intros i Hi. now apply item_text_facts. }
  cbn [lastPart last].
  rewrite (stripDelimited_joinWith "{" "}") by
    (first [ reflexivity
           | apply Forall_map; eapply Forall_impl; [|exact Hall];
             intros i Hi; now apply item_text_facts ]).
  rewrite (stripDelimited_joinWith "(" ")") by
    (first [ reflexivity
           | apply Forall_map, Forall_map; eapply Forall_impl; [|exact Hall];
             intros i Hi; now apply item_text_facts ]).
  rewrite !map_map. fold stripped.
  change (map (fun x => blank "(" (blank "{" (itemText x))) items) with (map stripped items).
  rewrite counted_stripResult.
  - now apply counted_movetext.
  - apply allChars_joinWith; [reflexivity|]. apply Forall_map.
    eapply Forall_impl; [|exact Hall]. intros i Hi. now apply item_text_facts.
Qed.

(** C9. The count follows the documented heuristic. For a movetext made of
    moves, move numbers, comments in braces, variations in parentheses,
    numeric annotation glyphs, runs of annotation signs and result tokens,
    one space between them, the tokens that are counted are exactly the
    moves, with or without a header block and an empty line in front; and
    the result is the decimal numeral of the number [n] of full moves, the
    least number with [ply <= 2 * n] that is at least 1. The text of the
    documentation has 5 plies and gives "3". Absent and empty input give
    "N/A", and nothing else does: no step can fail on a text. *)
Theorem countFullMovesFromPgn_spec (items : list item) (h : string) :
  forallb itemOk items = true -> headerBlock h = true ->
  let m := movetext items in
  let ply := Z.of_nat (List.length (movesOf items)) in
  cleanTokens m = movesOf items /\
  cleanTokens (h ++ blankLine ++ m) = movesOf items /\
  plyCount m = ply /\ plyCount (h ++ blankLine ++ m) = ply /\
  (exists n,
     (m <> "" -> countFullMovesFromPgn (Some m) = toString n) /\
     countFullMovesFromPgn (Some (h ++ blankLine ++ m)) = toString n /\
     1 <= n /\ ply <= 2 * n /\ (n = 1 \/ 2 * n <= ply + 1)) /\
  countFullMovesFromPgn None = "N/A" /\
  countFullMovesFromPgn (Some "") = "N/A" /\
  (forall text, text <> "" -> countFullMovesFromPgn (Some text) <> "N/A") /\
  plyCount "1. e4 e5 2. Nf3 {note} Nc6 (2...d6) 3. Bb5 1-0" = 5 /\
  countFullMovesFromPgn (Some "1. e4 e5 2. Nf3 {note} Nc6 (2...d6) 3. Bb5 1-0") = "3" /\
  countFullMovesFromPgn (Some "1. e4 e5 2. Nf3 Nc6") = "2" /\
  countFullMovesFromPgn (Some "1. e4 {only one} *") = "1" /\
  countFullMovesFromPgn (Some "{nothing yet} *") = "1".
Proof.
  intros Hok Hh m ply.
  assert (Hc : cleanTokens m = movesOf items) by (now apply cleanTokens_movetext).
  assert (Hch : cleanTokens (h ++ blankLine ++ m) = movesOf items).
  { rewrite <- Hc. unfold cleanTokens. rewrite (splitBlankLine_header h m Hh).
    now rewrite lastPart_cons by apply splitBlankLine_nonempty. }
  assert (Hp : plyCount m = ply) by (unfold plyCount; now rewrite Hc).
  assert (Hph : plyCount (h ++ blankLine ++ m) = ply) by (unfold plyCount; now rewrite Hch).
  assert (Hply : 0 <= ply) by (unfold ply; lia).
  refine (conj Hc (conj Hch (conj Hp (conj Hph (conj _ (conj eq_refl (conj eq_refl
           (conj _ (conj eq_refl (conj eq_refl (conj eq_refl (conj eq_refl eq_refl)))))))))))).
  - exists (Z.max 1 (ceilHalf ply)). unfold ceilHalf.
    pose proof (Z.div_mod (ply + 1) 2 ltac:(lia)) as Hdm.
    pose proof (Z.mod_pos_bound (ply + 1) 2 ltac:(lia)) as Hm.
    refine (conj _ (conj _ _)); [| |lia].
    + intros Hne. unfold countFullMovesFromPgn. now rewrite (nonEmpty_true m Hne), Hp.
    + unfold countFullMovesFromPgn.
      rewrite (nonEmpty_true (h ++ blankLine ++ m)), Hph; [reflexivity|].
      apply append_nonempty_r. discriminate.
  - intros text Hne. unfold countFullMovesFromPgn. rewrite (nonEmpty_true text Hne).
    apply toString_not_NA. lia.
Qed.

Lemma countFullMovesFromPgn_spec_witness :
  cleanTokens "1. e4 e5 2. Nf3 {note} Nc6 (2...d6) 3. Bb5 1-0"
    = ["e4"; "e5"; "Nf3"; "Nc6"; "Bb5"].
Proof.
  refine (proj1 (countFullMovesFromPgn_spec
    [Number "1"; Move "e4"; Move "e5"; Number "2"; Move "Nf3"; Comment "note";
     Move "Nc6"; Variation "2...d6"; Number "3"; Move "Bb5"; Result "1-0"]
    "[Event Live Chess]" _ _)); reflexivity.
Defined.
